(** * photoSort: a shallow embedding of [src/photoSort.py]

    The development models the date resolver, the path planner, the
    per-file disposition and the walking driver of [photoSort.py] over an
    explicit filesystem store, and states the properties of the
    specification against that model.

    Conventions.
    - Python [str] values are [string]s of 8-bit characters; [str.lower]
      acts on the letters [A]..[Z] (file names are taken to be ASCII).
    - The filesystem is a finite map from absolute paths to nodes.  It is the
      single shared store: it is read for conflict detection and written by
      every disposition.  A path names its own node: links between paths
      are not modelled.  The [stat] of a directory is the one it entered the
      store with; the times the kernel writes on a directory when entries
      are added to it or removed from it are not followed, so statements
      about what a call keeps speak of a directory's existence and kind.
    - Functions that touch the filesystem, log, or raise live in the monad
      [M]: a state monad over [world] whose results are a value, a raised
      Python exception, or [Diverged] (a loop that ran out of its bound).
    - Third-party library calls (PIL, exifread, ffmpeg, piexif, the
      [datetime] parsers) are members of the class [Library]; every general
      theorem holds for any behaviour of these. *)

From Stdlib Require Import ZArith Ascii String List Lia DecimalString DecimalN.
From stdpp Require Import base tactics option list gmap strings.

Local Open Scope string_scope.
Local Open Scope Z_scope.

(* ===================================================================== *)
(** * Python strings and [os.path] *)
(* ===================================================================== *)

Module PyStr.

(** [c.lower()] for one 8-bit character. *)
Definition lower_ascii (c : ascii) : ascii :=
  let n := N_of_ascii c in
  if ((65 <=? n) && (n <=? 90))%N then ascii_of_N (n + 32) else c.

(** [s.lower()] *)
Fixpoint lower (s : string) : string :=
  match s with
  | EmptyString => EmptyString
  | String c s' => String (lower_ascii c) (lower s')
  end.

(** [s.startswith(p)] *)
Fixpoint startswith (p s : string) : bool :=
  match p, s with
  | EmptyString, _ => true
  | String a p', String b s' => Ascii.eqb a b && startswith p' s'
  | String _ _, EmptyString => false
  end.

(** [s.endswith(p)]: [p] is [s] or a suffix of the tail of [s]. *)
Fixpoint endswith (p s : string) : bool :=
  String.eqb s p ||
  match s with
  | EmptyString => false
  | String _ s' => endswith p s'
  end.

(** [s.replace(c, r)] for a one-character pattern [c]. *)
Fixpoint replace_char (c : ascii) (r : string) (s : string) : string :=
  match s with
  | EmptyString => EmptyString
  | String a s' =>
      if Ascii.eqb a c then r +:+ replace_char c r s'
      else String a (replace_char c r s')
  end.

(** Split at the last occurrence of [c]: [Some (s[:i], s[i:])] with
    [i = s.rfind(c)], [None] when [c] does not occur. *)
Fixpoint rsplit_at (c : ascii) (s : string) : option (string * string) :=
  match s with
  | EmptyString => None
  | String a s' =>
      match rsplit_at c s' with
      | Some (b, e) => Some (String a b, e)
      | None => if Ascii.eqb a c then Some (EmptyString, s) else None
      end
  end.

(** The maximal run of leading [c] characters, and the rest. *)
Fixpoint span_char (c : ascii) (s : string) : string * string :=
  match s with
  | String a s' =>
      if Ascii.eqb a c then
        let '(d, r) := span_char c s' in (String a d, r)
      else (EmptyString, s)
  | EmptyString => (EmptyString, EmptyString)
  end.

(** [str(n)] for a non-negative integer: its decimal digits. *)
Definition str (n : N) : string := NilEmpty.string_of_uint (N.to_uint n).

(** [f"{n:0{w}d}"] for a non-negative [n]: decimal, zero-padded on the
    left to width [w]. *)
Fixpoint zeros (k : nat) : string :=
  match k with O => "" | S k' => String "0" (zeros k') end.

Definition format_0d (w : nat) (n : Z) : string :=
  let s := str (Z.to_N n) in
  zeros (w - String.length s) +:+ s.

End PyStr.

Module OsPath.
Import PyStr.

Definition sep : ascii := "/"%char.
Definition extsep : ascii := "."%char.

(** [(p[:i], p[i:])] with [i = p.rfind('/') + 1]: the directory part with
    its trailing separator, and the last component. *)
Definition split_last (p : string) : string * string :=
  match rsplit_at sep p with
  | Some (b, String _ name) => (b +:+ "/", name)
  | _ => ("", p)
  end.

(** [os.path.basename(p)] *)
Definition basename (p : string) : string := (split_last p).2.

(** [os.path.splitext(p)]: the extension starts at the last dot of the
    last component, leading dots of that component not counting. *)
Definition splitext (p : string) : string * string :=
  let '(dir, name) := split_last p in
  let '(dots, rest) := span_char extsep name in
  match rsplit_at extsep rest with
  | Some (b, e) => (dir +:+ dots +:+ b, e)
  | None => (p, "")
  end.

(** [os.path.join(a, b)] *)
Definition join (a b : string) : string :=
  if startswith "/" b then b
  else if bool_decide (a = "") || endswith "/" a then a +:+ b
  else a +:+ "/" +:+ b.

(** The chain of directories [os.makedirs(p)] walks through, outermost
    first and [p] itself last; the root [/] is not listed. *)
Fixpoint dir_chain (acc s : string) : list string :=
  let emit := if bool_decide (acc = "") || endswith "/" acc then [] else [acc] in
  match s with
  | EmptyString => emit
  | String c s' =>
      if Ascii.eqb c sep then emit ++ dir_chain (acc +:+ "/") s'
      else dir_chain (acc +:+ String c "") s'
  end.

End OsPath.

(* ===================================================================== *)
(** * [datetime] *)
(* ===================================================================== *)

Definition is_leap (y : Z) : bool :=
  (y mod 4 =? 0) && (negb (y mod 100 =? 0) || (y mod 400 =? 0)).

Definition days_in_month (y m : Z) : Z :=
  if m =? 2 then (if is_leap y then 29 else 28)
  else if (m =? 4) || (m =? 6) || (m =? 9) || (m =? 11) then 30
  else 31.

(** The range checks of the [datetime] constructor ([MINYEAR = 1],
    [MAXYEAR = 9999]); it raises [ValueError] when one of them fails. *)
Definition datetime_check (y m d hh mm ss : Z) : bool :=
  (1 <=? y) && (y <=? 9999) && (1 <=? m) && (m <=? 12) &&
  (1 <=? d) && (d <=? days_in_month y m) &&
  (0 <=? hh) && (hh <=? 23) && (0 <=? mm) && (mm <=? 59) &&
  (0 <=? ss) && (ss <=? 59).

(** A [datetime] object.  Objects only come out of the constructor, so each
    one carries the constructor's checks. *)
Record datetime := mk_datetime {
  year : Z;
  month : Z;
  day : Z;
  hour : Z;
  minute : Z;
  second : Z;
  datetime_inv : datetime_check year month day hour minute second = true
}.

(** [datetime(y, m, d, hh, mm, ss)]; [None] stands for [ValueError]. *)
Definition datetime_new (y m d hh mm ss : Z) : option datetime :=
  match datetime_check y m d hh mm ss as b
        return datetime_check y m d hh mm ss = b -> option datetime with
  | true => fun e => Some (mk_datetime y m d hh mm ss e)
  | false => fun _ => None
  end eq_refl.

(* ===================================================================== *)
(** * The filesystem and the world *)
(* ===================================================================== *)

(** What [os.stat] reports and the code reads: [st_size] for
    [os.path.getsize], and [st_mtime] for [os.path.getmtime], in seconds
    since the epoch (the fraction of a second is left out). *)
Record stat := mk_stat {
  st_size : nat;
  st_mtime : Z
}.

(** What a metadata backend finds when asked for the capture tag of a file:
    the backend raises, the tag is absent, or the tag holds a raw value. *)
Inductive tag_read :=
| ReadRaises
| TagAbsent
| TagValue (v : string).

(** The dictionary [ffmpeg.probe] returns, cut down to the keys read:
    [probe['format']['tags']['creation_time']] and, per stream,
    [stream['tags']['creation_time']]; [None] where a key is missing. *)
Record probe_info := mk_probe {
  format_creation_time : option string;
  streams_creation_time : list (option string)
}.

(** The embedded metadata of a file as the three backends see it:
    [DateTimeOriginal] through PIL's [_getexif], [EXIF DateTimeOriginal]
    through [exifread.process_file], and [ffmpeg.probe] ([None] when it
    raises). *)
Record media := mk_media {
  pil_exif : tag_read;
  exifread_tags : tag_read;
  ffprobe : option probe_info
}.

Inductive node :=
| Dir (s : stat)
| File (s : stat) (m : media).

Definition node_stat (n : node) : stat :=
  match n with Dir s => s | File s _ => s end.

(** Opening a directory as an image or probing it raises. *)
Definition node_media (n : node) : media :=
  match n with
  | File _ m => m
  | Dir _ => mk_media ReadRaises ReadRaises None
  end.

Definition is_dir (n : node) : bool :=
  match n with Dir _ => true | File _ _ => false end.

(** Python exceptions the modelled code can meet. *)
Inductive exn :=
| FileNotFoundError
| FileExistsError
| NotADirectoryError
| IsADirectoryError
| IndexError
| ValueError
| OverflowError
| OSError
| ShutilError
| PiexifError.

Inductive level := DEBUG | INFO | WARNING | ERROR.

(** The log lines of the modelled functions, one constructor per
    [logger] call, carrying the values the f-string interpolates. *)
Inductive message :=
| PilFailed (file_path : string)
| ExifreadFailed (file_path : string)
| CouldNotParseCreationTime (creation_time : string)
| FfmpegFailed (file_path : string)
| NoMetadataDate (file_path : string) (date_taken : datetime)
| AddedMtimeToExif (file_path : string)
| FailedToAddMtime (file_path : string)
| ErrorAddingExif
| SkippingSameSize (file_path : string)
| Would (copy : bool) (file_path dest_path : string)
| Copying (file_path dest_path : string)
| Moving (file_path dest_path : string)
| ErrorProcessing (file_path : string) (e : exn)
| SameSourceAndDestination
| SkippingNonMedia (file_path : string)
| ProcessingComplete (success_count error_count skipped_count : nat)
| MissingImageBackend
| MissingFfmpeg
| MissingPiexif
| InstallWith (packages : string)
| Mode (dry_run copy : bool)
| SourceDoesNotExist (source : string)
| Starting (source destination : string)
| CompletedSuccessfully
| CompletedWithErrors.

(** The filesystem is one shared store; the log is append-only. *)
Record world := mk_world {
  fs : gmap string node;
  log : list (level * message)
}.

(** The outcome of a computation: a value, a raised exception, or a loop
    that did not finish within its bound. *)
Inductive result (A : Type) :=
| Ok (a : A)
| Raise (e : exn)
| Diverged.
Arguments Ok {A} a.
Arguments Raise {A} e.
Arguments Diverged {A}.

Definition M (A : Type) : Type := world -> result A * world.

Definition ret {A} (a : A) : M A := fun w => (Ok a, w).

Definition bind {A B} (m : M A) (k : A -> M B) : M B :=
  fun w =>
    match m w with
    | (Ok a, w') => k a w'
    | (Raise e, w') => (Raise e, w')
    | (Diverged, w') => (Diverged, w')
    end.

Definition raise {A} (e : exn) : M A := fun w => (Raise e, w).

(** [try: body except Exception as e: handler(e)] *)
Definition try_except {A} (body : M A) (handler : exn -> M A) : M A :=
  fun w =>
    match body w with
    | (Raise e, w') => handler e w'
    | r => r
    end.

Declare Scope py_scope.
Delimit Scope py_scope with py.
Notation "x <~ c1 ;; c2" := (bind c1 (fun x => c2))
  (at level 100, c1 at next level, right associativity) : py_scope.
Notation "c1 ;;; c2" := (bind c1 (fun _ => c2))
  (at level 100, right associativity) : py_scope.
Local Open Scope py_scope.

(** A computation that ends in every world: it returns or raises. *)
Definition terminates {A} (m : M A) : Prop :=
  forall w, (m w).1 <> Diverged.

(** A computation that always returns a value. *)
Definition returns {A} (m : M A) : Prop :=
  forall w, exists a w', m w = (Ok a, w').

(** A computation that keeps a property of the world, however it ends. *)
Definition preserves {A} (P : world -> Prop) (m : M A) : Prop :=
  forall w, P w -> P (m w).2.

(** Properties of the world that appending to the log keeps, that creating
    a directory at a free path keeps, and that do not look at the
    filesystem at all. *)
Definition log_stable (P : world -> Prop) : Prop :=
  forall f l e, P (mk_world f l) -> P (mk_world f (l ++ [e])%list).

Definition mkdir_stable (P : world -> Prop) : Prop :=
  forall f l p st, f !! p = None -> P (mk_world f l) -> P (mk_world (<[p := Dir st]> f) l).

Definition rewrite_stable (p : string) (P : world -> Prop) : Prop :=
  forall f l s m s' m',
    f !! p = Some (File s m) -> P (mk_world f l) -> P (mk_world (<[p := File s' m']> f) l).

Definition fs_blind (P : world -> Prop) : Prop :=
  forall f f' l, P (mk_world f l) -> P (mk_world f' l).

(** The worlds whose log starts with [l0]. *)
Definition log_from (l0 : list (level * message)) (w : world) : Prop :=
  exists l, log w = (l0 ++ l)%list.

Definition get_fs : M (gmap string node) := fun w => (Ok (fs w), w).

Definition put_fs (f : gmap string node) : M unit :=
  fun w => (Ok tt, mk_world f (log w)).

(** [logger.<level>(msg)] *)
Definition logger (l : level) (msg : message) : M unit :=
  fun w => (Ok tt, mk_world (fs w) (log w ++ [(l, msg)])%list).

(** [os.path.exists(p)] *)
Definition path_exists (f : gmap string node) (p : string) : bool :=
  bool_decide (is_Some (f !! p)).

Definition os_path_exists (p : string) : M bool :=
  f <~ get_fs ;; ret (path_exists f p).

(** [os.path.isdir(p)] *)
Definition os_path_isdir (p : string) : M bool :=
  f <~ get_fs ;; ret (match f !! p with Some (Dir _) => true | _ => false end).

(** [os.stat(p)], behind [getsize] and [getmtime]. *)
Definition os_stat (p : string) : M stat :=
  f <~ get_fs ;;
  match f !! p with
  | Some n => ret (node_stat n)
  | None => raise FileNotFoundError
  end.

(** [os.path.getsize(p)] *)
Definition os_path_getsize (p : string) : M nat :=
  s <~ os_stat p ;; ret (st_size s).

(** [os.makedirs(name, exist_ok=True)] along the chain of directories of
    [name]: a missing directory is created, an existing one is kept, and a
    regular file in the way raises.  The store records the new directory;
    the times of its parent are not followed. *)
Fixpoint makedirs_chain (st : stat) (chain : list string)
    (f : gmap string node) : option exn * gmap string node :=
  match chain with
  | [] => (None, f)
  | p :: rest =>
      match f !! p with
      | None => makedirs_chain st rest (<[p := Dir st]> f)
      | Some (Dir _) => makedirs_chain st rest f
      | Some (File _ _) =>
          (Some (match rest with [] => FileExistsError | _ => NotADirectoryError end), f)
      end
  end.

(** [shutil.copy2(src, dst)]: contents and stat of [src] are copied; a
    [dst] that is a directory receives the file under its base name. *)
Definition copy_target (f : gmap string node) (src dst : string) : string :=
  match f !! dst with
  | Some (Dir _) => OsPath.join dst (OsPath.basename src)
  | _ => dst
  end.

Definition shutil_copy2 (src dst : string) : M unit :=
  f <~ get_fs ;;
  match f !! src with
  | None => raise FileNotFoundError
  | Some (Dir _) => raise IsADirectoryError
  | Some (File s m) => put_fs (<[copy_target f src dst := File s m]> f)
  end.

(** [shutil.move(src, dst)]: a rename; into [dst] when [dst] is a
    directory, where an entry of the same name raises [shutil.Error].  The
    entry changes its path; the times of the two parent directories are
    not followed. *)
Definition shutil_move (src dst : string) : M unit :=
  f <~ get_fs ;;
  match f !! src with
  | None => raise FileNotFoundError
  | Some n =>
      match f !! dst with
      | Some (Dir _) =>
          let real_dst := OsPath.join dst (OsPath.basename src) in
          if path_exists f real_dst then raise ShutilError
          else put_fs (<[real_dst := n]> (delete src f))
      | _ => put_fs (<[dst := n]> (delete src f))
      end
  end.

(* ===================================================================== *)
(** * The environment of the script *)
(* ===================================================================== *)

(** The module-level flags set by the guarded imports (lines 20-43). *)
Record capabilities := mk_caps {
  HAS_PIL : bool;
  HAS_EXIFREAD : bool;
  HAS_FFMPEG : bool;
  HAS_PIEXIF : bool
}.

(** Library calls the script makes.  [None] stands for a raised exception
    ([ValueError] for the parsers). *)
Class Library := {
  (** [datetime.strptime(value, format)] *)
  strptime : string -> string -> option datetime;
  (** [datetime.fromisoformat(value)] *)
  fromisoformat : string -> option datetime;
  (** [datetime.fromtimestamp(t)]: the local time of [t], or the exception
      raised for a [t] that the platform or [datetime] cannot represent
      ([OverflowError], [OSError], [ValueError]) *)
  fromtimestamp : Z -> exn + datetime;
  (** [date.strftime(format)] *)
  strftime : datetime -> string -> string;
  (** [piexif.load], the two tag assignments, [piexif.dump] and
      [piexif.insert] of lines 180-191, on a regular file: the file as it
      is afterwards, or [None] when one of the calls raises. *)
  piexif_insert_dates : string -> stat -> media -> option (stat * media);
  (** [os.path.abspath(p)] *)
  abspath : string -> string;
  (** what [os.stat] reports for a directory just created *)
  mkdir_stat : stat
}.

(** lines 53-55 *)
Definition IMAGE_EXTENSIONS : gset string :=
  {[ ".jpg"; ".jpeg"; ".png"; ".gif"; ".tiff"; ".bmp"; ".heic"; ".heif"; ".dng" ]}.
Definition VIDEO_EXTENSIONS : gset string :=
  {[ ".mp4"; ".mov"; ".avi"; ".mkv"; ".wmv"; ".m4v"; ".3gp"; ".flv" ]}.
Definition MEDIA_EXTENSIONS : gset string := IMAGE_EXTENSIONS ∪ VIDEO_EXTENSIONS.

(** [os.path.splitext(p)[1].lower()] (lines 140 and 264) *)
Definition file_ext_of (p : string) : string := PyStr.lower (OsPath.splitext p).2.

(** line 201 *)
Definition month_names : list string :=
  ["Jan"; "Feb"; "Mar"; "Apr"; "May"; "Jun"; "Jul"; "Aug"; "Sep"; "Oct"; "Nov"; "Dec"].

(** [l[i]] on a Python list: a negative index counts from the end; [None]
    stands for [IndexError]. *)
Definition py_getitem {A} (l : list A) (i : Z) : option A :=
  if 0 <=? i then l !! Z.to_nat i
  else if - Z.of_nat (length l) <=? i then l !! Z.to_nat (Z.of_nat (length l) + i)
  else None.

(** Truthiness of a value that is [None] or a [str]. *)
Definition str_truthy (o : option string) : bool :=
  match o with
  | Some s => negb (bool_decide (s = ""))
  | None => false
  end.

(** The first stream that has a [creation_time] tag (lines 117-120). *)
Fixpoint first_stream_tag (streams : list (option string)) : option string :=
  match streams with
  | [] => None
  | Some t :: _ => Some t
  | None :: rest => first_stream_tag rest
  end.

(** What [process_file] returns: [True], [None] (the bare [return] of
    line 231) or [False]. *)
Inductive pyresult := RTrue | RNone | RFalse.

Definition truthy (r : pyresult) : bool :=
  match r with RTrue => true | _ => false end.

(** The three counters of [process_directory] (lines 257-259). *)
Record counts := mk_counts {
  success_count : nat;
  error_count : nat;
  skipped_count : nat
}.

(** [f"{base}_{counter}{ext}"] (line 225) *)
Definition suffixed (base ext : string) (counter : nat) : string :=
  base +:+ "_" +:+ PyStr.str (N.of_nat counter) +:+ ext.

(** The [while] loop of lines 224-226, on a fixed filesystem, with a bound
    on the number of tests of its condition.  It returns the final
    [dest_path] and [counter]. *)
Fixpoint rename_loop (fuel : nat) (f : gmap string node) (base ext : string)
    (counter : nat) (dest_path : string) : option (string * nat) :=
  match fuel with
  | O => None
  | S fuel' =>
      if path_exists f dest_path
      then rename_loop fuel' f base ext (S counter) (suffixed base ext counter)
      else Some (dest_path, counter)
  end.

(** The path the loop settles on after [n] runs of its body. *)
Definition settled (base ext dest_path : string) (n : nat) : string :=
  match n with O => dest_path | S _ => suffixed base ext n end.

(** Whether [p] is [base], an underscore, the decimal digits of a counter
    from 1 on, and [ext]: a name the loop of lines 224-226 can produce. *)
Definition is_suffixed (base ext p : string) : bool :=
  let lb := (String.length base + 1)%nat in
  let mid := substring lb (String.length p - lb - String.length ext) p in
  match NilEmpty.uint_of_string mid with
  | Some d =>
      let j := N.to_nat (N.of_uint d) in
      (1 <=? j)%nat && String.eqb p (suffixed base ext j)
  | None => false
  end.

(** The files already in the tree under a suffixed variant of the canonical
    path [base ++ ext]: the pre-existing colliding files the loop may have
    to step over. *)
Definition colliding (f : gmap string node) (base ext : string) : gset string :=
  filter (fun p => is_suffixed base ext p = true) (dom f).

(** The command-line arguments [argparse] hands to [main]. *)
Record args := mk_args {
  source : string;
  destination : string;
  dry_run : bool;
  copy : bool;
  verbose : bool
}.

(* ===================================================================== *)
(** * The script *)
(* ===================================================================== *)

Section PhotoSort.

Context {lib : Library}.
Variable caps : capabilities.

(** lines 57-72 *)
Definition check_dependencies : M bool :=
  if negb (HAS_PIL caps) && negb (HAS_EXIFREAD caps) then
    logger ERROR MissingImageBackend ;;;
    logger ERROR (InstallWith "Pillow exifread") ;;;
    ret false
  else
    (if negb (HAS_FFMPEG caps) then
       logger WARNING MissingFfmpeg ;;;
       logger WARNING (InstallWith "ffmpeg-python")
     else ret tt) ;;;
    (if negb (HAS_PIEXIF caps) then
       logger WARNING MissingPiexif ;;;
       logger WARNING (InstallWith "piexif")
     else ret tt) ;;;
    ret true.

(** What a backend reads at [file_path]; opening a missing file raises. *)
Definition backend_read (view : media -> tag_read) (file_path : string) : M tag_read :=
  f <~ get_fs ;;
  ret (match f !! file_path with
       | Some n => view (node_media n)
       | None => ReadRaises
       end).

(** One strategy of [get_date_taken_from_image]: the [try] block of lines
    78-87 (PIL) or 91-98 (exifread).  A raised exception is logged and the
    strategy yields nothing. *)
Definition image_strategy (view : media -> tag_read) (failed : message)
    (file_path : string) : M (option datetime) :=
  t <~ backend_read view file_path ;;
  match t with
  | TagValue value =>
      match strptime value "%Y:%m:%d %H:%M:%S" with
      | Some d => ret (Some d)
      | None => logger ERROR failed ;;; ret None
      end
  | TagAbsent => ret None
  | ReadRaises => logger ERROR failed ;;; ret None
  end.

(** lines 74-100 *)
Definition get_date_taken_from_image (file_path : string) : M (option datetime) :=
  r <~ (if HAS_PIL caps
        then image_strategy pil_exif (PilFailed file_path) file_path
        else ret None) ;;
  match r with
  | Some d => ret (Some d)
  | None =>
      if HAS_EXIFREAD caps
      then image_strategy exifread_tags (ExifreadFailed file_path) file_path
      else ret None
  end.

(** lines 102-136 *)
Definition get_date_taken_from_video (file_path : string) : M (option datetime) :=
  if HAS_FFMPEG caps then
    f <~ get_fs ;;
    match f !! file_path ≫= (fun n => ffprobe (node_media n)) with
    | None => logger ERROR (FfmpegFailed file_path) ;;; ret None
    | Some probe =>
        let creation_time := format_creation_time probe in
        let creation_time :=
          if negb (str_truthy creation_time) then
            match first_stream_tag (streams_creation_time probe) with
            | Some t => Some t
            | None => creation_time
            end
          else creation_time in
        match creation_time with
        | Some ct =>
            if str_truthy (Some ct) then
              match fromisoformat (PyStr.replace_char "Z" "+00:00" ct) with
              | Some d => ret (Some d)
              | None =>
                  match strptime ct "%Y-%m-%d %H:%M:%S" with
                  | Some d => ret (Some d)
                  | None => logger ERROR (CouldNotParseCreationTime ct) ;;; ret None
                  end
              end
            else ret None
        | None => ret None
        end
    end
  else ret None.

(** lines 166-196 *)
Definition add_date_to_exif (file_path : string) (date_taken : datetime) : M bool :=
  if negb (HAS_PIL caps) || negb (HAS_PIEXIF caps) then ret false
  else
    try_except
      (if negb (PyStr.endswith ".jpg" (PyStr.lower file_path)
                || PyStr.endswith ".jpeg" (PyStr.lower file_path))
       then ret false
       else
         let date_str := strftime date_taken "%Y:%m:%d %H:%M:%S" in
         f <~ get_fs ;;
         match f !! file_path with
         | Some (File s m) =>
             match piexif_insert_dates date_str s m with
             | Some (s', m') => put_fs (<[file_path := File s' m']> f) ;;; ret true
             | None => raise PiexifError
             end
         | Some (Dir _) => raise IsADirectoryError
         | None => raise FileNotFoundError
         end)
      (fun e => logger ERROR ErrorAddingExif ;;; ret false).

(** lines 142-148: the dispatch on the extension. *)
Definition metadata_date (file_ext file_path : string) : M (option datetime) :=
  if bool_decide (file_ext ∈ IMAGE_EXTENSIONS) then get_date_taken_from_image file_path
  else if bool_decide (file_ext ∈ VIDEO_EXTENSIONS) then get_date_taken_from_video file_path
  else ret None.

(** lines 138-164 *)
Definition get_file_date (file_path : string) : M datetime :=
  let file_ext := file_ext_of file_path in
  date_taken <~ metadata_date file_ext file_path ;;
  match date_taken with
  | Some d => ret d
  | None =>
      st <~ os_stat file_path ;;
      let mtime := st_mtime st in
      match fromtimestamp mtime with
      | inl e => raise e
      | inr date_taken =>
          logger INFO (NoMetadataDate file_path date_taken) ;;;
          (if bool_decide (file_ext ∈ IMAGE_EXTENSIONS) && HAS_PIL caps && HAS_PIEXIF caps
           then
             try_except
               (add_date_to_exif file_path date_taken ;;;
                logger INFO (AddedMtimeToExif file_path))
               (fun e => logger ERROR (FailedToAddMtime file_path))
           else ret tt) ;;;
          ret date_taken
      end
  end.

(** [os.makedirs(name, exist_ok=True)] *)
Definition os_makedirs (name : string) : M unit :=
  fun w =>
    match makedirs_chain mkdir_stat (OsPath.dir_chain "" name) (fs w) with
    | (None, f') => (Ok tt, mk_world f' (log w))
    | (Some e, f') => (Raise e, mk_world f' (log w))
    end.

(** lines 198-212 *)
Definition create_destination_path (dest_root : string) (date_taken : datetime)
    (file_path : string) : M string :=
  match py_getitem month_names (month date_taken - 1) with
  | None => raise IndexError
  | Some month_name =>
      let year_month_dir :=
        OsPath.join (OsPath.join dest_root (PyStr.format_0d 4 (year date_taken)))
                    (PyStr.format_0d 2 (month date_taken) +:+ " - " +:+ month_name) in
      os_makedirs year_month_dir ;;;
      let filename := OsPath.basename file_path in
      ret (OsPath.join year_month_dir filename)
  end.

(** The [while] loop of lines 223-226 run in the current world. *)
Definition while_exists (base ext dest_path : string) : M string :=
  fun w =>
    match rename_loop (S (S (size (fs w)))) (fs w) base ext 1 dest_path with
    | Some (d, _) => (Ok d, w)
    | None => (Diverged, w)
    end.

(** lines 220-226: the handling of a file name conflict; the value is the
    [dest_path] the rest of [process_file] works with. *)
Definition handle_conflict (file_path dest_path : string) : M string :=
  e <~ os_path_exists dest_path ;;
  if e then
    s1 <~ os_path_getsize file_path ;;
    s2 <~ os_path_getsize dest_path ;;
    if negb (s1 =? s2)%nat then
      let '(base, ext) := OsPath.splitext dest_path in
      while_exists base ext dest_path
    else ret dest_path
  else ret dest_path.

(** line 229: the condition of the skip. *)
Definition same_size_exists (file_path dest_path : string) : M bool :=
  e <~ os_path_exists dest_path ;;
  if e then
    s1 <~ os_path_getsize file_path ;;
    s2 <~ os_path_getsize dest_path ;;
    ret (s1 =? s2)%nat
  else ret false.

(** lines 214-246 *)
Definition process_file (file_path dest_root : string)
    (dry_run copy_instead_of_move : bool) : M pyresult :=
  try_except
    (date_taken <~ get_file_date file_path ;;
     dest_path <~ create_destination_path dest_root date_taken file_path ;;
     dest_path <~ handle_conflict file_path dest_path ;;
     skip <~ same_size_exists file_path dest_path ;;
     if skip then
       logger INFO (SkippingSameSize file_path) ;;;
       ret RNone
     else
       (if dry_run then
          logger INFO (Would copy_instead_of_move file_path dest_path)
        else if copy_instead_of_move then
          logger DEBUG (Copying file_path dest_path) ;;;
          shutil_copy2 file_path dest_path
        else
          logger DEBUG (Moving file_path dest_path) ;;;
          shutil_move file_path dest_path) ;;;
       ret RTrue)
    (fun e => logger ERROR (ErrorProcessing file_path e) ;;; ret RFalse).

(** lines 268-271: the counters after a call of [process_file]. *)
Definition counted (result : pyresult) (c : counts) : counts :=
  if truthy result
  then mk_counts (S (success_count c)) (error_count c) (skipped_count c)
  else mk_counts (success_count c) (S (error_count c)) (skipped_count c).

(** lines 262-274: the inner [for] loop over the files of one directory. *)
Fixpoint for_files (root : string) (files : list string) (dest_root : string)
    (dry_run copy_instead_of_move : bool) (c : counts) : M counts :=
  match files with
  | [] => ret c
  | filename :: rest =>
      let file_path := OsPath.join root filename in
      let file_ext := file_ext_of filename in
      c' <~ (if bool_decide (file_ext ∈ MEDIA_EXTENSIONS) then
               result <~ process_file file_path dest_root dry_run copy_instead_of_move ;;
               ret (counted result c)
             else
               logger INFO (SkippingNonMedia file_path) ;;;
               ret (mk_counts (success_count c) (error_count c) (S (skipped_count c)))) ;;
      for_files root rest dest_root dry_run copy_instead_of_move c'
  end.

(** line 261: the outer [for] loop, over the [(root, files)] pairs that
    [os.walk(source_dir)] yields. *)
Fixpoint for_walk (walk : list (string * list string)) (dest_root : string)
    (dry_run copy_instead_of_move : bool) (c : counts) : M counts :=
  match walk with
  | [] => ret c
  | (root, files) :: rest =>
      c' <~ for_files root files dest_root dry_run copy_instead_of_move c ;;
      for_walk rest dest_root dry_run copy_instead_of_move c'
  end.

(** lines 248-277.  [os_walk] is what [os.walk(source_dir)] yields during
    the run. *)
Definition process_directory (os_walk : list (string * list string))
    (source_dir dest_root : string) (dry_run copy_instead_of_move : bool) : M bool :=
  let source_dir := abspath source_dir in
  let dest_root := abspath dest_root in
  if bool_decide (source_dir = dest_root) then
    logger ERROR SameSourceAndDestination ;;;
    ret false
  else
    c <~ for_walk os_walk dest_root dry_run copy_instead_of_move (mk_counts 0 0 0) ;;
    logger INFO (ProcessingComplete (success_count c) (error_count c) (skipped_count c)) ;;;
    ret ((0 <? success_count c)%nat && (error_count c =? 0)%nat).

(** lines 279-312; the value is the argument of [sys.exit]. *)
Definition main (a : args) (os_walk : list (string * list string)) : M Z :=
  ok <~ check_dependencies ;;
  if negb ok then ret 1
  else
    d <~ os_path_isdir (source a) ;;
    if negb d then
      logger ERROR (SourceDoesNotExist (source a)) ;;;
      ret 1
    else
      os_makedirs (destination a) ;;;
      logger INFO (Starting (source a) (destination a)) ;;;
      logger INFO (Mode (dry_run a) (copy a)) ;;;
      success <~ process_directory os_walk (source a) (destination a) (dry_run a) (copy a) ;;
      if success then
        logger INFO CompletedSuccessfully ;;;
        ret 0
      else
        logger ERROR CompletedWithErrors ;;;
        ret 1.

(** The exit status of the process: the argument of [sys.exit], or 1 when
    an exception reaches the top level; none when the run does not end. *)
Definition exit_status (a : args) (os_walk : list (string * list string))
    (w : world) : option Z :=
  match (main a os_walk w).1 with
  | Ok code => Some code
  | Raise _ => Some 1
  | Diverged => None
  end.

End PhotoSort.

(* ===================================================================== *)
(** * A reference library, for running the script on concrete inputs *)
(* ===================================================================== *)

(** An instance of [Library] that covers the fixed-width layouts
    [YYYY:MM:DD HH:MM:SS], [YYYY-MM-DD HH:MM:SS] and
    [YYYY-MM-DDTHH:MM:SS] with an optional fraction or offset.  On these
    inputs it agrees with CPython; it serves the worked examples, the
    general theorems do not depend on it. *)
Module Reference.

Fixpoint read_digits (k : nat) (acc : Z) (s : string) : option (Z * string) :=
  match k with
  | O => Some (acc, s)
  | S k' =>
      match s with
      | String c s' =>
          match Ascii.is_nat c with
          | Some d => read_digits k' (10 * acc + Z.of_nat d) s'
          | None => None
          end
      | EmptyString => None
      end
  end.

Definition expect (c : ascii) (s : string) : option string :=
  match s with
  | String a s' => if Ascii.eqb a c then Some s' else None
  | EmptyString => None
  end.

Definition read_fields (date_sep time_lead : ascii) (s : string)
    : option (option datetime * string) :=
  '(y, s) ← read_digits 4 0 s;
  s ← expect date_sep s;
  '(m, s) ← read_digits 2 0 s;
  s ← expect date_sep s;
  '(d, s) ← read_digits 2 0 s;
  s ← expect time_lead s;
  '(hh, s) ← read_digits 2 0 s;
  s ← expect ":" s;
  '(mm, s) ← read_digits 2 0 s;
  s ← expect ":" s;
  '(ss, s) ← read_digits 2 0 s;
  Some (datetime_new y m d hh mm ss, s).

Definition parse_all (date_sep time_lead : ascii) (s : string) : option datetime :=
  match read_fields date_sep time_lead s with
  | Some (Some d, EmptyString) => Some d
  | _ => None
  end.

Definition strptime (value format : string) : option datetime :=
  if bool_decide (format = "%Y:%m:%d %H:%M:%S") then parse_all ":" " " value
  else if bool_decide (format = "%Y-%m-%d %H:%M:%S") then parse_all "-" " " value
  else None.

Definition fromisoformat (value : string) : option datetime :=
  match read_fields "-" "T" value with
  | Some (Some d, rest) =>
      if bool_decide (rest = "") || PyStr.startswith "." rest
         || PyStr.startswith "+" rest || PyStr.startswith "-" rest
      then Some d else None
  | _ => None
  end.

Definition strftime (d : datetime) (format : string) : string :=
  if bool_decide (format = "%Y:%m:%d %H:%M:%S") then
    PyStr.format_0d 4 (year d) +:+ ":" +:+ PyStr.format_0d 2 (month d) +:+ ":" +:+
    PyStr.format_0d 2 (day d) +:+ " " +:+ PyStr.format_0d 2 (hour d) +:+ ":" +:+
    PyStr.format_0d 2 (minute d) +:+ ":" +:+ PyStr.format_0d 2 (second d)
  else format.

(** The EXIF block grows the file and both readers see the new tag. *)
Definition piexif_insert_dates (date_str : string) (s : stat) (m : media)
    : option (stat * media) :=
  Some (mk_stat (st_size s + 74) (st_mtime s),
        mk_media (TagValue date_str) (TagValue date_str) (ffprobe m)).

(** The civil date of a day number counted from 1970-01-01, in the
    proleptic Gregorian calendar. *)
Definition civil_from_days (days : Z) : Z * Z * Z :=
  let z := days + 719468 in
  let era := z / 146097 in
  let doe := z - era * 146097 in
  let yoe := (doe - doe / 1460 + doe / 36524 - doe / 146096) / 365 in
  let doy := doe - (365 * yoe + yoe / 4 - yoe / 100) in
  let mp := (5 * doy + 2) / 153 in
  let d := doy - (153 * mp + 2) / 5 + 1 in
  let m := if mp <? 10 then mp + 3 else mp - 9 in
  let y := yoe + era * 400 + (if m <=? 2 then 1 else 0) in
  (y, m, d).

(** [datetime.fromtimestamp(t)] with the local time zone UTC: a year
    outside [1..9999] raises [ValueError]. *)
Definition fromtimestamp (t : Z) : exn + datetime :=
  let '(y, m, d) := civil_from_days (t / 86400) in
  let secs := t mod 86400 in
  match datetime_new y m d (secs / 3600) (secs mod 3600 / 60) (secs mod 60) with
  | Some dt => inr dt
  | None => inl ValueError
  end.

Definition epoch : Z := 0.

(** Paths are given absolute and normalised, so [abspath] is the
    identity; a new directory takes 4096 bytes. *)
#[export] Instance library : Library :=
  Build_Library strptime fromisoformat fromtimestamp strftime piexif_insert_dates
                (fun p => p) (mk_stat 4096 epoch).

End Reference.

(* ===================================================================== *)
(** * Statements taken from the specification *)
(* ===================================================================== *)

(** The provenance tag of a capture timestamp. *)
Inductive provenance := Metadata | ModificationTimeFallback.

(** The fallback branch of [get_file_date] announces itself in the log
    (line 154). *)
Definition fallback_logged (file_path : string) (entry : level * message) : bool :=
  match entry with
  | (INFO, NoMetadataDate p _) => String.eqb p file_path
  | _ => false
  end.

(** [resolve(file)] of the specification: the timestamp [get_file_date]
    returns, tagged with the branch that produced it. *)
Definition resolve {lib : Library} (caps : capabilities) (file_path : string)
    (w : world) : option (datetime * provenance) :=
  match get_file_date caps file_path w with
  | (Ok d, w') =>
      Some (d, if existsb (fallback_logged file_path) (drop (length (log w)) (log w'))
               then ModificationTimeFallback else Metadata)
  | _ => None
  end.




(** The fallback as the specification words it: it always succeeds, so
    the resolver has a timestamp with provenance
    [ModificationTimeFallback]. *)
Definition spec_fallback_always_succeeds {lib : Library} (caps : capabilities)
    (file_path : string) (w : world) : Prop :=
  exists d, resolve caps file_path w = Some (d, ModificationTimeFallback).

(** The planned path as the specification words it:
    [destinationRoot/<4-digit year>/<2-digit month> - <Mon>/<basename>]. *)
Definition spec_digit (n : Z) : ascii := ascii_of_N (48 + Z.to_N (n mod 10)).

Definition spec_year4 (y : Z) : string :=
  String (spec_digit (y / 1000)) (String (spec_digit (y / 100))
    (String (spec_digit (y / 10)) (String (spec_digit y) ""))).

Definition spec_month2 (m : Z) : string :=
  String (spec_digit (m / 10)) (String (spec_digit m) "").

Definition spec_month_name (m : Z) : string :=
  match m with
  | 1 => "Jan" | 2 => "Feb" | 3 => "Mar" | 4 => "Apr" | 5 => "May" | 6 => "Jun"
  | 7 => "Jul" | 8 => "Aug" | 9 => "Sep" | 10 => "Oct" | 11 => "Nov" | 12 => "Dec"
  | _ => ""
  end.

(** The root with its separator: [root/], or [root] itself when it is
    empty or already ends in a separator. *)
Definition spec_root (dest_root : string) : string :=
  if bool_decide (dest_root = "") || PyStr.endswith "/" dest_root
  then dest_root else dest_root +:+ "/".

Definition spec_planned_dir (dest_root : string) (d : datetime) : string :=
  spec_root dest_root +:+ spec_year4 (year d) +:+ "/" +:+
  spec_month2 (month d) +:+ " - " +:+ spec_month_name (month d).

Definition spec_planned_path (dest_root : string) (d : datetime) (file_path : string)
    : string :=
  spec_planned_dir dest_root d +:+ "/" +:+ OsPath.basename file_path.

(** The suffix search as the specification words it: the search stops at
    the first suffixed path that either does not exist or holds a file of
    the source's size, and the second case is a skip. *)
Definition spec_stops_at_free_or_same_size (w : world)
    (file_path dest_path : string) : Prop :=
  let '(base, ext) := OsPath.splitext dest_path in
  exists (n : nat) (src : node),
    (1 <= n)%nat /\
    fs w !! file_path = Some src /\
    handle_conflict file_path dest_path w = (Ok (suffixed base ext n), w) /\
    (forall j, (1 <= j < n)%nat ->
       exists other, fs w !! suffixed base ext j = Some other /\
                     st_size (node_stat other) <> st_size (node_stat src)) /\
    (fs w !! suffixed base ext n = None \/
     ((exists other, fs w !! suffixed base ext n = Some other /\
                     st_size (node_stat other) = st_size (node_stat src)) /\
      same_size_exists file_path (suffixed base ext n) w = (Ok true, w))).

(** A destination tree in which the canonical path is taken by a file of
    another size and the first suffixed path by a file of the source's
    size. *)
Definition plain_file (size : nat) : node :=
  File (mk_stat size Reference.epoch) (mk_media TagAbsent TagAbsent None).

Definition w_suffix_taken : world :=
  mk_world (list_to_map [("/src/a.jpg", plain_file 3);
                         ("/out/2024/03 - Mar/a.jpg", plain_file 5);
                         ("/out/2024/03 - Mar/a_1.jpg", plain_file 3)]) [].

(* ===================================================================== *)
(** * Concrete runs *)
(* ===================================================================== *)

(** Every backend present. *)
Definition all_caps : capabilities := mk_caps true true true true.

(** [datetime(2024, 3, 15, 10, 0, 0)], the value of the EXIF string
    [2024:03:15 10:00:00]. *)
Definition dt_2024_03_15 : datetime := mk_datetime 2024 3 15 10 0 0 eq_refl.

(** A modification time that differs from every capture time below, and
    its timestamp. *)
Definition dt_mtime : datetime := mk_datetime 2023 7 4 12 30 0 eq_refl.
Definition ts_mtime : Z := 1688473800.

Definition a_dir : node := Dir (mk_stat 4096 ts_mtime).

(** A JPEG of the given size whose EXIF [DateTimeOriginal] is [v]. *)
Definition jpeg_with_exif (size : nat) (v : string) : node :=
  File (mk_stat size ts_mtime) (mk_media (TagValue v) (TagValue v) None).

(** A JPEG of the given size without EXIF data. *)
Definition jpeg_without_exif (size : nat) : node :=
  File (mk_stat size ts_mtime) (mk_media TagAbsent TagAbsent None).

(** A source tree with the single file [a.jpg] and an empty destination
    root. *)
Definition w_one_file : world :=
  mk_world (list_to_map [("/src", a_dir);
                         ("/src/a.jpg", jpeg_with_exif 100 "2024:03:15 10:00:00");
                         ("/out", a_dir)]) [].

(** A JPEG without EXIF data, of the given size and modification time. *)
Definition jpeg_modified (size : nat) (mtime : Z) : node :=
  File (mk_stat size mtime) (mk_media TagAbsent TagAbsent None).

(** 10000-01-03 00:00:00 UTC: in the year 10000 in every time zone, past
    the last [datetime]. *)
Definition ts_year_10000 : Z := 253402473600.

(** A source file whose modification time is out of the range of
    [datetime]. *)
Definition w_far_future : world :=
  mk_world (list_to_map [("/src", a_dir);
                         ("/src/far.jpg", jpeg_modified 200 ts_year_10000);
                         ("/out", a_dir)]) [].

(** A source file without any embedded date, as every backend sees it. *)
Definition w_no_metadata : world :=
  mk_world (list_to_map [("/src", a_dir);
                         ("/src/b.jpg", jpeg_without_exif 200);
                         ("/out", a_dir)]) [].

(** The tree after a first run has moved [a.jpg] in, with a file of the
    same name and size in the source again (a second run over an unchanged
    copy of the source). *)
Definition w_already_migrated : world :=
  mk_world (list_to_map [("/src", a_dir);
                         ("/src/a.jpg", jpeg_with_exif 100 "2024:03:15 10:00:00");
                         ("/out", a_dir);
                         ("/out/2024", a_dir);
                         ("/out/2024/03 - Mar", a_dir);
                         ("/out/2024/03 - Mar/a.jpg",
                          jpeg_with_exif 100 "2024:03:15 10:00:00")]) [].

(** A source with a new file [a.jpg] and a file [b.jpg] that is already in
    the destination with the same size. *)
Definition w_partly_migrated : world :=
  mk_world (list_to_map [("/src", a_dir);
                         ("/src/a.jpg", jpeg_with_exif 100 "2024:03:15 10:00:00");
                         ("/src/b.jpg", jpeg_with_exif 200 "2024:03:16 11:00:00");
                         ("/out", a_dir);
                         ("/out/2024", a_dir);
                         ("/out/2024/03 - Mar", a_dir);
                         ("/out/2024/03 - Mar/b.jpg",
                          jpeg_with_exif 200 "2024:03:16 11:00:00")]) [].

(** The log lines of the [except] clause of [process_file] (line 245): one
    per file whose processing failed. *)
Definition is_failure (entry : level * message) : bool :=
  match entry with
  | (_, ErrorProcessing _ _) => true
  | _ => false
  end.

(** The log line of the skip of [process_file] (line 230): one per file
    that was left alone as a same-size duplicate. *)
Definition is_skip (entry : level * message) : bool :=
  match entry with
  | (_, SkippingSameSize _) => true
  | _ => false
  end.

(** A log line that reports neither a failed nor a skipped file. *)
Definition uneventful (entry : level * message) : bool :=
  negb (is_failure entry) && negb (is_skip entry).

(** A computation that only appends to the log, and only lines that pass
    [Q], however it ends. *)
Definition adds {A} (Q : level * message -> bool) (m : M A) : Prop :=
  forall w, exists l, log (m w).2 = (log w ++ l)%list /\ Forall (fun e => Q e = true) l.

(** The number of files the walk yields. *)
Definition walked (os_walk : list (string * list string)) : nat :=
  length (concat (os_walk.*2)).

Definition total (c : counts) : nat :=
  (success_count c + error_count c + skipped_count c)%nat.

(* ===================================================================== *)
(** * Further notions for the properties of the script *)
(* ===================================================================== *)

(** The path [q] still holds an entry of the kind of [n]: a regular file
    where [n] is one, a directory where [n] is one. *)
Definition still_there (q : string) (n : node) (w : world) : Prop :=
  exists n', fs w !! q = Some n' /\ is_dir n' = is_dir n.

(** Properties of the world that putting an entry at a free path keeps, and
    that removing the entry at [p] keeps. *)
Definition fresh_stable (P : world -> Prop) : Prop :=
  forall f l q n, f !! q = None -> P (mk_world f l) -> P (mk_world (<[q := n]> f) l).

Definition delete_stable (p : string) (P : world -> Prop) : Prop :=
  forall f l, P (mk_world f l) -> P (mk_world (delete p f) l).

(** What a property has to survive at the path of a file that
    [process_file] works on: the rewrite of its EXIF data, and its removal
    unless the run copies or only pretends. *)
Definition survives (P : world -> Prop) (dry_run copy : bool) (p : string) : Prop :=
  rewrite_stable p P /\ (dry_run = true \/ copy = true \/ delete_stable p P).

(** The paths [process_directory] builds on line 263 for the files of the
    walk. *)
Definition walked_paths (os_walk : list (string * list string)) : list string :=
  concat (map (fun '(root, files) => map (OsPath.join root) files) os_walk).

(** A destination that already holds two files, for runs in any mode. *)
Definition w_two_sources : world :=
  mk_world (list_to_map [("/src", a_dir);
                         ("/src/a.jpg", jpeg_with_exif 100 "2024:03:15 10:00:00");
                         ("/src/b.jpg", jpeg_without_exif 200);
                         ("/src/notes.txt", plain_file 10);
                         ("/out", a_dir);
                         ("/out/2024", a_dir);
                         ("/out/2024/03 - Mar", a_dir);
                         ("/out/2024/03 - Mar/a.jpg",
                          jpeg_with_exif 150 "2024:03:15 09:00:00")]) [].

(** The world after one more log line. *)
Definition logged (w : world) (l : level) (msg : message) : world :=
  mk_world (fs w) (log w ++ [(l, msg)])%list.

(** Lines 233-246 on a free [dest_path], read as a table: the result of
    [process_file] and the world it leaves, by mode and by what is at
    [file_path]. *)
Definition acted (file_path dest_path : string) (dry_run copy_instead_of_move : bool)
    (w : world) : pyresult * world :=
  if dry_run then
    (RTrue, logged w INFO (Would copy_instead_of_move file_path dest_path))
  else if copy_instead_of_move then
    let w' := logged w DEBUG (Copying file_path dest_path) in
    match fs w !! file_path with
    | Some (File s m) => (RTrue, mk_world (<[dest_path := File s m]> (fs w)) (log w'))
    | Some (Dir _) => (RFalse, logged w' ERROR (ErrorProcessing file_path IsADirectoryError))
    | None => (RFalse, logged w' ERROR (ErrorProcessing file_path FileNotFoundError))
    end
  else
    let w' := logged w DEBUG (Moving file_path dest_path) in
    match fs w !! file_path with
    | Some n => (RTrue, mk_world (<[dest_path := n]> (delete file_path (fs w))) (log w'))
    | None => (RFalse, logged w' ERROR (ErrorProcessing file_path FileNotFoundError))
    end.

Section Outcomes.

Context {lib : Library}.
Variable caps : capabilities.
Variables file_path dest_root : string.
Variables dry_run copy_instead_of_move : bool.
Variable w : world.

(** The ways a call of [process_file] can go, stage by stage: the date
    cannot be resolved, the directory cannot be created, the source is gone
    when its size is asked for, the planned path holds an entry of the
    source's size, or the file is dispositioned to a free path. *)
Inductive disposition : pyresult -> world -> Prop :=
| disp_date_fails e w1 :
    get_file_date caps file_path w = (Raise e, w1) ->
    disposition RFalse (logged w1 ERROR (ErrorProcessing file_path e))
| disp_makedirs_fails d w1 e w2 :
    get_file_date caps file_path w = (Ok d, w1) ->
    create_destination_path dest_root d file_path w1 = (Raise e, w2) ->
    disposition RFalse (logged w2 ERROR (ErrorProcessing file_path e))
| disp_source_gone d w1 planned w2 :
    get_file_date caps file_path w = (Ok d, w1) ->
    create_destination_path dest_root d file_path w1 = (Ok planned, w2) ->
    is_Some (fs w2 !! planned) ->
    fs w2 !! file_path = None ->
    disposition RFalse (logged w2 ERROR (ErrorProcessing file_path FileNotFoundError))
| disp_skip d w1 planned w2 src other :
    get_file_date caps file_path w = (Ok d, w1) ->
    create_destination_path dest_root d file_path w1 = (Ok planned, w2) ->
    fs w2 !! file_path = Some src ->
    fs w2 !! planned = Some other ->
    st_size (node_stat src) = st_size (node_stat other) ->
    disposition RNone (logged w2 INFO (SkippingSameSize file_path))
| disp_acted d w1 planned w2 dest_path :
    get_file_date caps file_path w = (Ok d, w1) ->
    create_destination_path dest_root d file_path w1 = (Ok planned, w2) ->
    handle_conflict file_path planned w2 = (Ok dest_path, w2) ->
    fs w2 !! dest_path = None ->
    disposition (acted file_path dest_path dry_run copy_instead_of_move w2).1
                (acted file_path dest_path dry_run copy_instead_of_move w2).2.

End Outcomes.

(** A source with a PNG without metadata, a HEIC file that PIL cannot open
    but exifread can read, and a video whose container and first tagged
    stream carry different creation times. *)
Definition heic_file : node :=
  File (mk_stat 300 ts_mtime)
       (mk_media ReadRaises (TagValue "2022:12:24 18:00:00") None).

Definition mp4_probe : probe_info :=
  mk_probe (Some "2020-05-20T15:30:10.000000Z")
           [None; Some "2019-01-01T00:00:00.000000Z"; Some "2018-01-01T00:00:00.000000Z"].

Definition mp4_file : node :=
  File (mk_stat 500 ts_mtime) (mk_media ReadRaises ReadRaises (Some mp4_probe)).

(** A video whose container has no creation time; the first tagged stream
    has one, a later stream another. *)
Definition mov_probe : probe_info :=
  mk_probe None [None; Some "2019-01-01T00:00:00.000000Z"; Some "2018-01-01T00:00:00.000000Z"].

Definition mov_file : node :=
  File (mk_stat 600 ts_mtime) (mk_media ReadRaises ReadRaises (Some mov_probe)).

(** A video whose only creation time is not a date. *)
Definition avi_file : node :=
  File (mk_stat 700 ts_mtime)
       (mk_media ReadRaises ReadRaises (Some (mk_probe (Some "yesterday") []))).

Definition w_mixed : world :=
  mk_world (list_to_map [("/src", a_dir);
                         ("/src/c.png", jpeg_without_exif 50);
                         ("/src/h.heic", heic_file);
                         ("/src/v.mp4", mp4_file);
                         ("/src/w.mov", mov_file);
                         ("/src/x.avi", avi_file);
                         ("/src/notes.txt", plain_file 10);
                         ("/out", a_dir)]) [].

Definition dt_2022_12_24 : datetime := mk_datetime 2022 12 24 18 0 0 eq_refl.
Definition dt_2020_05_20 : datetime := mk_datetime 2020 5 20 15 30 10 eq_refl.
Definition dt_2019_01_01 : datetime := mk_datetime 2019 1 1 0 0 0 eq_refl.

(** A destination in which a regular file has the name of the planned
    month directory. *)
Definition w_blocked : world :=
  mk_world (list_to_map [("/src", a_dir);
                         ("/src/a.jpg", jpeg_with_exif 100 "2024:03:15 10:00:00");
                         ("/out", a_dir);
                         ("/out/2024", a_dir);
                         ("/out/2024/03 - Mar", plain_file 1)]) [].

(** The names of the walk, and those of them that line 266 takes for media
    files. *)
Definition walked_names (os_walk : list (string * list string)) : list string :=
  concat (os_walk.*2).

Definition is_media_name (filename : string) : bool :=
  bool_decide (file_ext_of filename ∈ MEDIA_EXTENSIONS).

Definition media_names (files : list string) : list string :=
  List.filter is_media_name files.

Definition other_names (files : list string) : list string :=
  List.filter (fun f => negb (is_media_name f)) files.

(** No image backend at all. *)
Definition no_image_caps : capabilities := mk_caps false false true true.

(* ===================================================================== *)
(** * The string functions on examples *)
(* ===================================================================== *)

Example splitext_jpg : OsPath.splitext "/src/a.b/IMG_1.JPG" = ("/src/a.b/IMG_1", ".JPG").
Proof. reflexivity. Qed.
Example splitext_hidden : OsPath.splitext "/home/u/.bashrc" = ("/home/u/.bashrc", "").
Proof. reflexivity. Qed.
Example splitext_dotted_dir : OsPath.splitext "/a.b/c" = ("/a.b/c", "").
Proof. reflexivity. Qed.
Example splitext_two : OsPath.splitext "..x.tar.gz" = ("..x.tar", ".gz").
Proof. reflexivity. Qed.
Example basename_ex : OsPath.basename "/src/sub/a.jpg" = "a.jpg".
Proof. reflexivity. Qed.
Example join_ex : OsPath.join (OsPath.join "/out" "2024") "03 - Mar" = "/out/2024/03 - Mar".
Proof. reflexivity. Qed.
Example dir_chain_ex :
  OsPath.dir_chain "" "/out/2024/03 - Mar" = ["/out"; "/out/2024"; "/out/2024/03 - Mar"].
Proof. reflexivity. Qed.
Example format_ex : PyStr.format_0d 4 987 = "0987" /\ PyStr.format_0d 2 3 = "03".
Proof. split; reflexivity. Qed.
Example lower_ex : PyStr.lower ".JpG" = ".jpg".
Proof. reflexivity. Qed.
Example endswith_ex :
  PyStr.endswith ".jpg" "/src/a.jpg" = true /\ PyStr.endswith ".jpeg" "/src/a.jpg" = false.
Proof. split; reflexivity. Qed.
Example suffixed_ex : suffixed "/out/2024/03 - Mar/b" ".jpg" 12 = "/out/2024/03 - Mar/b_12.jpg".
Proof. reflexivity. Qed.

(* ===================================================================== *)
(** * Facts about strings *)
(* ===================================================================== *)

Lemma app_cons (x : ascii) (a b : string) : String x a +:+ b = String x (a +:+ b).
Proof. reflexivity. Qed.

Lemma str_length_app (a b : string) :
  String.length (a +:+ b) = (String.length a + String.length b)%nat.
Proof. induction a as [|c a IH]; simpl; [done | by rewrite IH]. Qed.

Lemma app_assoc_str (a b c : string) : (a +:+ b) +:+ c = a +:+ (b +:+ c).
Proof. induction a as [|x a IH]; [done | by rewrite !app_cons, IH]. Qed.

Lemma app_empty_r (a : string) : a +:+ "" = a.
Proof. induction a as [|x a IH]; [done | by rewrite !app_cons, IH]. Qed.

Lemma app_inv_tail_str (a b e : string) : a +:+ e = b +:+ e -> a = b.
Proof.
  revert b. induction a as [|x a IH]; intros [|y b] H; rewrite ?app_cons in H; simpl in *.
  - done.
  - apply (f_equal String.length) in H. cbn [String.length] in H.
    change ("" +:+ e) with e in H. rewrite str_length_app in H. lia.
  - apply (f_equal String.length) in H. cbn [String.length] in H.
    change ("" +:+ e) with e in H. rewrite str_length_app in H. lia.
  - injection H as -> H. f_equal. by apply IH.
Qed.

Lemma substring_app_head (b c : string) :
  substring 0 (String.length b) (b +:+ c) = b.
Proof.
  induction b as [|y b IHb]; [by destruct c|].
  rewrite app_cons. simpl. by rewrite IHb.
Qed.

Lemma substring_app_mid (a b c : string) :
  substring (String.length a) (String.length b) (a +:+ b +:+ c) = b.
Proof.
  induction a as [|x a IH]; [exact (substring_app_head b c)|].
  rewrite app_cons. simpl. apply IH.
Qed.

Lemma str_inj (m n : N) : PyStr.str m = PyStr.str n -> m = n.
Proof.
  unfold PyStr.str. intros H.
  apply Unsigned.to_uint_inj.
  assert (Some (N.to_uint m) = Some (N.to_uint n)) as [= ?]; [|done].
  by rewrite <- !NilEmpty.usu, H.
Qed.

Lemma suffixed_inj (base ext : string) (i j : nat) :
  suffixed base ext i = suffixed base ext j -> i = j.
Proof.
  unfold suffixed. intros H.
  apply String.app_inj in H. apply (String.app_inj "_") in H.
  apply app_inv_tail_str, str_inj in H. lia.
Qed.

Lemma is_suffixed_suffixed (base ext : string) (j : nat) :
  (1 <= j)%nat -> is_suffixed base ext (suffixed base ext j) = true.
Proof.
  intros Hj. unfold is_suffixed.
  assert (substring (String.length base + 1)
            (String.length (suffixed base ext j) - (String.length base + 1)
             - String.length ext) (suffixed base ext j)
          = PyStr.str (N.of_nat j)) as ->.
  { unfold suffixed.
    assert (String.length (base +:+ "_") = (String.length base + 1)%nat) as <-
      by (by rewrite str_length_app).
    rewrite <- (app_assoc_str base "_").
    generalize (base +:+ "_") (PyStr.str (N.of_nat j)). intros a s.
    replace (String.length (a +:+ s +:+ ext) - String.length a - String.length ext)%nat
      with (String.length s) by (rewrite !str_length_app; lia).
    apply substring_app_mid. }
  unfold PyStr.str at 1. rewrite NilEmpty.usu, Unsigned.of_to, Nat2N.id.
  rewrite String.eqb_refl, andb_true_r. by apply Nat.leb_le.
Qed.

Lemma is_suffixed_inv (base ext p : string) :
  is_suffixed base ext p = true ->
  exists j, (1 <= j)%nat /\ p = suffixed base ext j.
Proof.
  unfold is_suffixed. destruct (NilEmpty.uint_of_string _) as [d|]; [|done].
  intros [H1 H2]%andb_true_iff. eexists. split.
  - by apply Nat.leb_le in H1.
  - by apply String.eqb_eq in H2.
Qed.

(* ===================================================================== *)
(** * The renaming loop *)
(* ===================================================================== *)

Section RenameLoop.

Variable f : gmap string node.
Variables base ext : string.

(** More fuel does not change a result. *)
Lemma rename_loop_mono (n m : nat) (c : nat) (d : string) r :
  rename_loop n f base ext c d = Some r -> (n <= m)%nat ->
  rename_loop m f base ext c d = Some r.
Proof.
  revert m c d. induction n as [|n IH]; intros m c d H Hle; [done|].
  destruct m as [|m]; [lia|]. simpl in *.
  destruct (path_exists f d); [|done]. apply IH; [done | lia].
Qed.

(** A loop that runs out of fuel has found every candidate occupied. *)
Lemma rename_loop_None (n : nat) (c : nat) (d : string) :
  rename_loop (S n) f base ext c d = None ->
  forall j, (c <= j < c + n)%nat -> path_exists f (suffixed base ext j) = true.
Proof.
  revert c d. induction n as [|n IH]; intros c d H j Hj; [lia|].
  change (rename_loop (S (S n)) f base ext c d) with
    (if path_exists f d
     then rename_loop (S n) f base ext (S c) (suffixed base ext c)
     else Some (d, c)) in H.
  destruct (path_exists f d); [|done].
  destruct (decide (j = c)) as [->|Hne].
  - simpl in H. by destruct (path_exists f (suffixed base ext c)).
  - apply (IH _ _ H). lia.
Qed.

(** The shape of a result: the counter went from [c] to [c'] one step at
    a time, each step over an occupied path, and stopped at a free one. *)
Lemma rename_loop_Some (n : nat) (c : nat) (d : string) r c' :
  rename_loop n f base ext c d = Some (r, c') ->
  (c <= c')%nat /\ path_exists f r = false /\
  (c' = c -> r = d) /\
  ((c < c')%nat -> r = suffixed base ext (c' - 1) /\ path_exists f d = true) /\
  (forall j, (c <= j < c' - 1)%nat -> path_exists f (suffixed base ext j) = true).
Proof.
  revert c d. induction n as [|n IH]; intros c d H; [done|].
  simpl in H. destruct (path_exists f d) eqn:E.
  - apply IH in H as (Hle & Hfree & Heq & Hlt & Hocc).
    split; [lia|]. split; [done|]. split; [lia|]. split.
    + intros _. split; [|done].
      destruct (decide (c' = S c)) as [->|Hne].
      * rewrite (Heq eq_refl). f_equal. lia.
      * apply Hlt. lia.
    + intros j Hj. destruct (decide (j = c)) as [->|Hne].
      * destruct (decide (c' = S c)) as [->|Hne']; [lia|].
        apply Hlt. lia.
      * apply Hocc. lia.
  - injection H as -> ->. repeat split; try done; lia.
Qed.

(** The suffixed paths of distinct counters are distinct files, so no more
    of them are occupied than the tree has entries in [colliding]. *)
Lemma occupied_bound (c k : nat) :
  (1 <= c)%nat ->
  (forall j, (c <= j < c + k)%nat -> path_exists f (suffixed base ext j) = true) ->
  (k <= size (colliding f base ext))%nat.
Proof.
  intros Hc Hocc.
  set (l := suffixed base ext <$> seq c k).
  assert (NoDup l) as Hnd.
  { apply NoDup_fmap_2; [|apply NoDup_seq]. intros i j. apply suffixed_inj. }
  assert (list_to_set l ⊆ colliding f base ext) as Hsub.
  { intros p Hp. apply elem_of_list_to_set in Hp.
    apply list_elem_of_fmap in Hp as (j & -> & Hj).
    apply elem_of_seq in Hj.
    apply elem_of_filter. split.
    - apply is_suffixed_suffixed. lia.
    - apply elem_of_dom. specialize (Hocc j ltac:(lia)).
      unfold path_exists in Hocc. by apply bool_decide_eq_true in Hocc. }
  apply subseteq_size in Hsub.
  rewrite size_list_to_set in Hsub by done.
  unfold l in Hsub. by rewrite length_fmap, length_seq in Hsub.
Qed.

Lemma colliding_size : (size (colliding f base ext) <= size f)%nat.
Proof.
  rewrite <- (size_dom (D := gset string) f).
  apply subseteq_size. unfold colliding. intros p Hp.
  by apply elem_of_filter in Hp as [_ ?].
Qed.

(** The loop ends within the bound [while_exists] gives it. *)
Lemma rename_loop_terminates (c : nat) (d : string) :
  (1 <= c)%nat ->
  exists r c', rename_loop (S (S (size f))) f base ext c d = Some (r, c').
Proof.
  intros Hc.
  destruct (rename_loop (S (S (size f))) f base ext c d) as [[r c']|] eqn:E; [eauto|].
  pose proof (occupied_bound c (S (size f)) Hc (rename_loop_None _ _ _ E)).
  pose proof colliding_size. lia.
Qed.

End RenameLoop.

Section SuffixSearch.

Variable w : world.
Variables base ext dest_path : string.

Lemma rename_loop_result :
  exists n : nat,
    rename_loop (S (S (size (fs w)))) (fs w) base ext 1 dest_path
      = Some (settled base ext dest_path n, S n) /\
    path_exists (fs w) (settled base ext dest_path n) = false /\
    ((1 <= n)%nat -> path_exists (fs w) dest_path = true) /\
    (forall j, (1 <= j < n)%nat -> path_exists (fs w) (suffixed base ext j) = true) /\
    (n <= size (colliding (fs w) base ext) + 1)%nat.
Proof.
  destruct (rename_loop_terminates (fs w) base ext 1 dest_path) as (r & c' & E); [lia|].
  pose proof (rename_loop_Some _ _ _ _ _ _ _ _ E) as (Hle & Hfree & Heq & Hlt & Hocc).
  exists (c' - 1)%nat.
  assert (r = settled base ext dest_path (c' - 1)) as ->.
  { destruct (decide (c' = 1%nat)) as [->|Hne]; [by apply Heq|].
    destruct (Hlt ltac:(lia)) as [-> _]. unfold settled.
    by destruct (c' - 1)%nat eqn:E'; [lia|]. }
  replace (S (c' - 1)) with c' by lia.
  split; [done|]. split; [done|]. split; [intros ?; apply Hlt; lia|].
  split; [done|].
  pose proof (occupied_bound (fs w) base ext 1 (c' - 1 - 1) ltac:(lia)) as Hb.
  assert (c' - 1 - 1 <= size (colliding (fs w) base ext))%nat; [|lia].
  apply Hb. intros j Hj. apply Hocc. lia.
Qed.

End SuffixSearch.

(** ** C7 *)

(** C7. On a fixed destination tree and fixed inputs the suffix search is a
    function of its inputs and it ends: run in any world, the loop of lines
    224-226 returns after some number [n] of runs of its body, leaving the
    world as it was; every bound on the loop that lets it finish yields this
    same path and counter; the counter steps through 1, 2, ... [n] with
    every earlier suffixed path occupied; and [n] is at most the number of
    pre-existing colliding files plus one. *)
Theorem suffix_search_terminates_bounded (w : world) (base ext dest_path : string) :
  exists n : nat,
    while_exists base ext dest_path w = (Ok (settled base ext dest_path n), w) /\
    (forall fuel r, rename_loop fuel (fs w) base ext 1 dest_path = Some r ->
                    r = (settled base ext dest_path n, S n)) /\
    (forall j, (1 <= j < n)%nat -> is_Some (fs w !! suffixed base ext j)) /\
    fs w !! settled base ext dest_path n = None /\
    (n <= size (colliding (fs w) base ext) + 1)%nat.
Proof.
  destruct (rename_loop_result w base ext dest_path) as (n & E & Hfree & _ & Hocc & Hb).
  exists n. split; [|split; [|split; [|split]]].
  - unfold while_exists. by rewrite E.
  - intros fuel r Hr.
    pose proof (rename_loop_mono _ _ _ _ (fuel `max` S (S (size (fs w)))) _ _ _ Hr
                  ltac:(lia)) as H1.
    pose proof (rename_loop_mono _ _ _ _ (fuel `max` S (S (size (fs w)))) _ _ _ E
                  ltac:(lia)) as H2.
    congruence.
  - intros j Hj. specialize (Hocc j Hj).
    unfold path_exists in Hocc. by apply bool_decide_eq_true in Hocc.
  - unfold path_exists in Hfree. apply bool_decide_eq_false in Hfree.
    by apply eq_None_not_Some.
  - done.
Qed.

(* ===================================================================== *)
(** * Conflict handling *)
(* ===================================================================== *)

Lemma path_exists_Some (f : gmap string node) (p : string) (n : node) :
  f !! p = Some n -> path_exists f p = true.
Proof. intros H. unfold path_exists. apply bool_decide_eq_true. eauto. Qed.

Lemma path_exists_None (f : gmap string node) (p : string) :
  f !! p = None -> path_exists f p = false.
Proof.
  intros H. unfold path_exists. apply bool_decide_eq_false.
  rewrite H. by intros [? ?].
Qed.

Lemma path_exists_false (f : gmap string node) (p : string) :
  path_exists f p = false -> f !! p = None.
Proof.
  unfold path_exists. intros H%bool_decide_eq_false. by apply eq_None_not_Some.
Qed.

Lemma path_exists_true (f : gmap string node) (p : string) :
  path_exists f p = true -> is_Some (f !! p).
Proof. unfold path_exists. by intros H%bool_decide_eq_true. Qed.

Lemma Ok_pair_inj {A} (a b : A) (w1 w2 : world) :
  (Ok a, w1) = (Ok b, w2) -> a = b.
Proof. congruence. Qed.

(** The conflict handling reads the tree and leaves the world alone. *)
Lemma handle_conflict_free (w : world) (file_path dest_path : string) :
  fs w !! dest_path = None ->
  handle_conflict file_path dest_path w = (Ok dest_path, w).
Proof.
  intros H. unfold handle_conflict, os_path_exists, get_fs, bind, ret.
  by rewrite (path_exists_None _ _ H).
Qed.

Lemma handle_conflict_same_size (w : world) (file_path dest_path : string) n1 n2 :
  fs w !! file_path = Some n1 -> fs w !! dest_path = Some n2 ->
  st_size (node_stat n1) = st_size (node_stat n2) ->
  handle_conflict file_path dest_path w = (Ok dest_path, w).
Proof.
  intros H1 H2 Hs.
  unfold handle_conflict, os_path_exists, os_path_getsize, os_stat, get_fs, bind, ret.
  rewrite (path_exists_Some _ _ _ H2), H1, H2, Hs, Nat.eqb_refl. done.
Qed.

Lemma handle_conflict_other_size (w : world) (file_path dest_path : string) n1 n2 :
  fs w !! file_path = Some n1 -> fs w !! dest_path = Some n2 ->
  st_size (node_stat n1) <> st_size (node_stat n2) ->
  handle_conflict file_path dest_path w =
    while_exists (OsPath.splitext dest_path).1 (OsPath.splitext dest_path).2 dest_path w.
Proof.
  intros H1 H2 Hs.
  unfold handle_conflict, os_path_exists, os_path_getsize, os_stat, get_fs, bind, ret.
  rewrite (path_exists_Some _ _ _ H2), H1, H2.
  apply Nat.eqb_neq in Hs. rewrite Hs. simpl.
  by destruct (OsPath.splitext dest_path).
Qed.

Lemma same_size_exists_free (w : world) (file_path dest_path : string) :
  fs w !! dest_path = None ->
  same_size_exists file_path dest_path w = (Ok false, w).
Proof.
  intros H. unfold same_size_exists, os_path_exists, get_fs, bind, ret.
  by rewrite (path_exists_None _ _ H).
Qed.

(** A conflict with a file of another size: the loop runs at least once
    and settles on the first free suffixed path. *)
Lemma handle_conflict_renames (w : world) (file_path dest_path : string)
    (src other : node) :
  fs w !! file_path = Some src ->
  fs w !! dest_path = Some other ->
  st_size (node_stat src) <> st_size (node_stat other) ->
  exists n : nat,
    (1 <= n)%nat /\
    handle_conflict file_path dest_path w
      = (Ok (suffixed (OsPath.splitext dest_path).1 (OsPath.splitext dest_path).2 n), w) /\
    (forall j, (1 <= j < n)%nat ->
       is_Some (fs w !! suffixed (OsPath.splitext dest_path).1
                                 (OsPath.splitext dest_path).2 j)) /\
    fs w !! suffixed (OsPath.splitext dest_path).1 (OsPath.splitext dest_path).2 n = None.
Proof.
  intros H1 H2 Hs.
  rewrite (handle_conflict_other_size _ _ _ _ _ H1 H2 Hs).
  set (base := (OsPath.splitext dest_path).1). set (ext := (OsPath.splitext dest_path).2).
  destruct (rename_loop_result w base ext dest_path) as (n & E & Hfree & _ & Hocc & _).
  destruct n as [|n].
  { simpl in Hfree. by rewrite (path_exists_Some _ _ _ H2) in Hfree. }
  exists (S n). simpl in Hfree. apply path_exists_false in Hfree.
  split; [lia|]. split; [|split].
  - unfold while_exists. by rewrite E.
  - intros j Hj. by apply path_exists_true, Hocc.
  - done.
Qed.

(** ** C4 *)

(** C4, as the code has it.  When the candidate path holds a file of
    another size than the source, the suffixes 1, 2, ... are tried in
    increasing order and the search stops at the first suffixed path that
    does not exist: every earlier suffixed path is occupied (whatever its
    size), the returned path is free, so it collides with no existing file,
    and the skip test on it is negative. *)
Theorem conflict_renames_to_first_free (w : world) (file_path dest_path : string)
    (src other : node) :
  fs w !! file_path = Some src ->
  fs w !! dest_path = Some other ->
  st_size (node_stat src) <> st_size (node_stat other) ->
  let base := (OsPath.splitext dest_path).1 in
  let ext := (OsPath.splitext dest_path).2 in
  exists n : nat,
    (1 <= n)%nat /\
    handle_conflict file_path dest_path w = (Ok (suffixed base ext n), w) /\
    (forall j, (1 <= j < n)%nat -> is_Some (fs w !! suffixed base ext j)) /\
    fs w !! suffixed base ext n = None /\
    same_size_exists file_path (suffixed base ext n) w = (Ok false, w).
Proof.
  intros H1 H2 Hs base ext.
  destruct (handle_conflict_renames w file_path dest_path src other H1 H2 Hs)
    as (n & Hn & E & Hocc & Hfree).
  exists n. repeat split; try done. by apply same_size_exists_free.
Qed.

Lemma conflict_renames_to_first_free_witness :
  exists n : nat,
    (1 <= n)%nat /\
    handle_conflict "/src/a.jpg" "/out/2024/03 - Mar/a.jpg" w_suffix_taken
      = (Ok (suffixed "/out/2024/03 - Mar/a" ".jpg" n), w_suffix_taken) /\
    (forall j, (1 <= j < n)%nat ->
       is_Some (fs w_suffix_taken !! suffixed "/out/2024/03 - Mar/a" ".jpg" j)) /\
    fs w_suffix_taken !! suffixed "/out/2024/03 - Mar/a" ".jpg" n = None /\
    same_size_exists "/src/a.jpg" (suffixed "/out/2024/03 - Mar/a" ".jpg" n) w_suffix_taken
      = (Ok false, w_suffix_taken).
Proof.
  apply (conflict_renames_to_first_free w_suffix_taken "/src/a.jpg"
           "/out/2024/03 - Mar/a.jpg" (plain_file 3) (plain_file 5)).
  - reflexivity.
  - reflexivity.
  - simpl. lia.
Defined.

(** At that tree the code steps over the same-size file [a_1.jpg] and
    settles on [a_2.jpg]. *)
Lemma handle_conflict_steps_over_same_size :
  handle_conflict "/src/a.jpg" "/out/2024/03 - Mar/a.jpg" w_suffix_taken
    = (Ok "/out/2024/03 - Mar/a_2.jpg", w_suffix_taken).
Proof. vm_compute. reflexivity. Qed.

(** C4, as the specification words it, fails: the search does not stop at a
    suffixed path that holds a file of the source's size. *)
Lemma suffix_search_ignores_same_size :
  ~ (forall (w : world) (file_path dest_path : string) (src other : node),
       fs w !! file_path = Some src ->
       fs w !! dest_path = Some other ->
       st_size (node_stat src) <> st_size (node_stat other) ->
       spec_stops_at_free_or_same_size w file_path dest_path).
Proof.
  intros H.
  specialize (H w_suffix_taken "/src/a.jpg" "/out/2024/03 - Mar/a.jpg"
                (plain_file 3) (plain_file 5) eq_refl eq_refl ltac:(simpl; lia)).
  unfold spec_stops_at_free_or_same_size in H.
  change (OsPath.splitext "/out/2024/03 - Mar/a.jpg")
    with ("/out/2024/03 - Mar/a", ".jpg") in H.
  destruct H as (n & src & Hn & Hsrc & Hc & Hfirst & _).
  rewrite handle_conflict_steps_over_same_size in Hc.
  assert (n = 2%nat) as ->.
  { apply (suffixed_inj "/out/2024/03 - Mar/a" ".jpg").
    apply Ok_pair_inj in Hc. rewrite <- Hc. vm_compute. reflexivity. }
  destruct (Hfirst 1%nat ltac:(lia)) as (other & Ho & Hne).
  vm_compute in Hsrc. injection Hsrc as <-.
  vm_compute in Ho. injection Ho as <-.
  by apply Hne.
Qed.

(* ===================================================================== *)
(** * The planned path *)
(* ===================================================================== *)

Lemma datetime_ranges (d : datetime) :
  1 <= year d <= 9999 /\ 1 <= month d <= 12.
Proof.
  destruct d as [y m dd hh mm ss Hinv]. simpl.
  unfold datetime_check in Hinv.
  repeat (apply andb_true_iff in Hinv as [Hinv ?]). lia.
Qed.

Lemma Z_range_enum (P : Z -> bool) (lo : Z) (n : nat) :
  forallb P (map (fun i => lo + Z.of_nat i) (seq 0 n)) = true ->
  forall z, lo <= z < lo + Z.of_nat n -> P z = true.
Proof.
  intros H z Hz. rewrite forallb_forall in H. apply H.
  apply in_map_iff. exists (Z.to_nat (z - lo)). split; [lia|].
  apply in_seq. lia.
Qed.

Lemma year_facts (y : Z) :
  1 <= y <= 9999 ->
  PyStr.format_0d 4 y = spec_year4 y /\
  PyStr.startswith "/" (spec_year4 y) = false /\
  PyStr.endswith "/" (spec_year4 y) = false.
Proof.
  intros Hy.
  pose (P := fun y => String.eqb (PyStr.format_0d 4 y) (spec_year4 y)
                      && negb (PyStr.startswith "/" (spec_year4 y))
                      && negb (PyStr.endswith "/" (spec_year4 y))).
  assert (P y = true) as HP.
  { apply (Z_range_enum P 1 (Z.to_nat 9999)); [vm_compute; reflexivity|].
    rewrite Z2Nat.id; lia. }
  unfold P in HP. apply andb_true_iff in HP as [[H1 H2]%andb_true_iff H3].
  apply String.eqb_eq in H1. apply negb_true_iff in H2, H3. done.
Qed.

Lemma month_facts (m : Z) :
  1 <= m <= 12 ->
  py_getitem month_names (m - 1) = Some (spec_month_name m) /\
  PyStr.format_0d 2 m = spec_month2 m /\
  PyStr.startswith "/" (spec_month2 m +:+ " - " +:+ spec_month_name m) = false /\
  PyStr.endswith "/" (spec_month2 m +:+ " - " +:+ spec_month_name m) = false /\
  spec_month2 m +:+ " - " +:+ spec_month_name m <> "".
Proof.
  intros Hm.
  assert (m = 1 \/ m = 2 \/ m = 3 \/ m = 4 \/ m = 5 \/ m = 6 \/ m = 7 \/ m = 8
          \/ m = 9 \/ m = 10 \/ m = 11 \/ m = 12) as H by lia.
  repeat (destruct H as [-> | H]); try subst m; by vm_compute.
Qed.

Lemma app_nonempty (a b : string) : b <> "" -> a +:+ b <> "".
Proof. intros Hb. destruct a; [done|]. by rewrite app_cons. Qed.

Lemma eqb_single (s : string) (c : ascii) :
  s <> "" -> forall x, String.eqb (String x s) (String c "") = false.
Proof.
  intros Hs x. apply String.eqb_neq. intros [= -> ->]. done.
Qed.

Lemma endswith_sep_app (a b : string) :
  b <> "" -> PyStr.endswith "/" (a +:+ b) = PyStr.endswith "/" b.
Proof.
  intros Hb. induction a as [|x a IH]; [done|].
  rewrite app_cons. cbn [PyStr.endswith].
  rewrite (eqb_single (a +:+ b) "/" (app_nonempty a b Hb)). by rewrite IH.
Qed.

Lemma startswith_sep_app (a b : string) :
  a <> "" -> PyStr.startswith "/" (a +:+ b) = PyStr.startswith "/" a.
Proof. intros Ha. destruct a as [|x a]; [done|]. rewrite app_cons. simpl. by rewrite !andb_true_r. Qed.

(** [os.path.join] puts exactly one separator between its arguments when
    the second is relative. *)
Lemma join_relative (a b : string) :
  PyStr.startswith "/" b = false -> OsPath.join a b = spec_root a +:+ b.
Proof.
  intros Hb. unfold OsPath.join, spec_root. rewrite Hb.
  destruct (bool_decide (a = "") || PyStr.endswith "/" a); [done|].
  by rewrite app_assoc_str.
Qed.

Lemma spec_root_open (a : string) :
  a <> "" -> PyStr.endswith "/" a = false -> spec_root a = a +:+ "/".
Proof.
  intros Ha He. unfold spec_root. rewrite He, orb_false_r.
  by rewrite bool_decide_eq_false_2.
Qed.

Lemma rsplit_at_None_head (c : ascii) (s : string) :
  PyStr.rsplit_at c s = None -> PyStr.startswith (String c "") s = false.
Proof.
  destruct s as [|a s]; [done|]. simpl.
  destruct (PyStr.rsplit_at c s) as [[? ?]|]; [done|].
  rewrite (Ascii.eqb_sym c a). by destruct (Ascii.eqb a c).
Qed.

(** The tail produced by [rsplit_at] starts at the last occurrence: the
    character does not occur after its first position. *)
Lemma rsplit_at_tail (c : ascii) (s b e : string) :
  PyStr.rsplit_at c s = Some (b, e) ->
  exists r, e = String c r /\ PyStr.rsplit_at c r = None.
Proof.
  revert b e. induction s as [|a s IH]; intros b e H; [done|].
  simpl in H. destruct (PyStr.rsplit_at c s) as [[b' e']|] eqn:E.
  - injection H as <- <-. by eapply IH.
  - destruct (Ascii.eqb a c) eqn:Ec; [|done].
    apply Ascii.eqb_eq in Ec as ->. injection H as <- <-. eauto.
Qed.

Lemma basename_relative (p : string) :
  PyStr.startswith "/" (OsPath.basename p) = false.
Proof.
  unfold OsPath.basename, OsPath.split_last.
  destruct (PyStr.rsplit_at OsPath.sep p) as [[b e]|] eqn:E.
  - destruct (rsplit_at_tail _ _ _ _ E) as (r & -> & Hr). simpl.
    by apply rsplit_at_None_head in Hr.
  - simpl. by apply rsplit_at_None_head in E.
Qed.

Section PlannedPath.

Context {lib : Library}.

Lemma planned_dir_join (dest_root : string) (d : datetime) :
  OsPath.join (OsPath.join dest_root (PyStr.format_0d 4 (year d)))
    (PyStr.format_0d 2 (month d) +:+ " - " +:+ spec_month_name (month d))
  = spec_planned_dir dest_root d.
Proof.
  destruct (datetime_ranges d) as [Hy Hm].
  destruct (year_facts _ Hy) as (-> & Hys & Hye).
  destruct (month_facts _ Hm) as (_ & -> & Hms & Hme & Hmn).
  rewrite (join_relative _ _ Hys), (join_relative _ _ Hms).
  assert (spec_year4 (year d) <> "") as Hyn by done.
  rewrite spec_root_open.
  - unfold spec_planned_dir. by rewrite !app_assoc_str.
  - by apply app_nonempty.
  - by rewrite endswith_sep_app.
Qed.

Lemma planned_path_join (dest_root : string) (d : datetime) (file_path : string) :
  OsPath.join (spec_planned_dir dest_root d) (OsPath.basename file_path)
  = spec_planned_path dest_root d file_path.
Proof.
  destruct (datetime_ranges d) as [Hy Hm].
  destruct (month_facts _ Hm) as (_ & _ & Hms & Hme & Hmn).
  rewrite (join_relative _ _ (basename_relative file_path)).
  unfold spec_planned_path. rewrite spec_root_open; [by rewrite !app_assoc_str|..].
  - unfold spec_planned_dir. by do 3 apply app_nonempty.
  - unfold spec_planned_dir.
    rewrite endswith_sep_app by (by apply app_nonempty).
    rewrite endswith_sep_app by (by apply app_nonempty).
    by rewrite endswith_sep_app.
Qed.

(** The path planner is: create the planned directory, return the planned
    path. *)
Lemma create_destination_path_spec (dest_root : string) (d : datetime)
    (file_path : string) (w : world) :
  create_destination_path dest_root d file_path w =
    (os_makedirs (spec_planned_dir dest_root d) ;;;
     ret (spec_planned_path dest_root d file_path))%py w.
Proof.
  unfold create_destination_path.
  destruct (datetime_ranges d) as [_ Hm].
  destruct (month_facts _ Hm) as (-> & _).
  by rewrite planned_dir_join, planned_path_join.
Qed.

End PlannedPath.

(** ** C5 *)

(** C5. For every timestamp, destination root and source file name,
    [create_destination_path] creates the planned directory and returns the
    planned path
    [destinationRoot/<4-digit year>/<2-digit month> - <Mon>/<basename>],
    with the month name from the fixed table; a file [a.jpg] whose EXIF
    [DateTimeOriginal] is [2024:03:15 10:00:00] goes, with root [/out], to
    [/out/2024/03 - Mar/a.jpg]. *)
Theorem planned_path_layout :
  (forall (lib : Library) (dest_root : string) (d : datetime) (file_path : string)
          (w : world),
     create_destination_path dest_root d file_path w =
       (os_makedirs (spec_planned_dir dest_root d) ;;;
        ret (spec_planned_path dest_root d file_path))%py w) /\
  spec_planned_path "/out" dt_2024_03_15 "/src/a.jpg" = "/out/2024/03 - Mar/a.jpg" /\
  (@get_file_date Reference.library all_caps "/src/a.jpg" w_one_file).1
    = Ok dt_2024_03_15 /\
  (forall dry_run copy,
     exists w',
       @process_file Reference.library all_caps "/src/a.jpg" "/out" dry_run copy w_one_file
         = (Ok RTrue, w') /\
       log w' = [(if dry_run then INFO else DEBUG,
                  if dry_run then Would copy "/src/a.jpg" "/out/2024/03 - Mar/a.jpg"
                  else if copy then Copying "/src/a.jpg" "/out/2024/03 - Mar/a.jpg"
                  else Moving "/src/a.jpg" "/out/2024/03 - Mar/a.jpg")]).
Proof.
  split; [|split; [|split]].
  - intros. apply create_destination_path_spec.
  - reflexivity.
  - vm_compute. reflexivity.
  - intros [] []; eexists; split; vm_compute; reflexivity.
Qed.

(** ** C10 *)

Lemma makedirs_chain_exn (st : stat) (chain : list string) (f : gmap string node) e :
  (makedirs_chain st chain f).1 = Some e ->
  e = FileExistsError \/ e = NotADirectoryError.
Proof.
  revert f. induction chain as [|p rest IH]; intros f; simpl; [done|].
  destruct (f !! p) as [[s|s m]|]; [apply IH | | apply IH].
  simpl. intros [= <-]. destruct rest; auto.
Qed.

Example py_getitem_ex :
  py_getitem month_names 0 = Some "Jan" /\ py_getitem month_names 11 = Some "Dec" /\
  py_getitem month_names 12 = None /\ py_getitem month_names (-1) = Some "Dec" /\
  py_getitem month_names (-13) = None.
Proof. repeat split; reflexivity. Qed.

(** C10. For every timestamp the index [month - 1] lies within the
    twelve-entry table, the lookup yields that month's name, and
    [create_destination_path] never fails with [IndexError]. *)
Theorem month_lookup_in_bounds (d : datetime) :
  length month_names = 12%nat /\
  0 <= month d - 1 < Z.of_nat (length month_names) /\
  py_getitem month_names (month d - 1) = Some (spec_month_name (month d)) /\
  (forall (lib : Library) (dest_root file_path : string) (w : world),
     (create_destination_path dest_root d file_path w).1 <> Raise IndexError).
Proof.
  destruct (datetime_ranges d) as [_ Hm].
  destruct (month_facts _ Hm) as (Hget & _).
  split; [done|]. split; [simpl; lia|]. split; [done|].
  intros lib dest_root file_path w.
  rewrite create_destination_path_spec. unfold bind, os_makedirs.
  destruct (makedirs_chain _ _ _) as [[e|] f'] eqn:E; simpl; [|done].
  apply (f_equal fst) in E. apply makedirs_chain_exn in E. intros [= ->].
  by destruct E.
Qed.

(* ===================================================================== *)
(** * Letter case and extensions *)
(* ===================================================================== *)






Section LowerSplit.

(** A character that [lower] neither produces nor removes: the path and
    extension separators. *)
Variable c : ascii.
Hypothesis c_fixed : forall x, Ascii.eqb (PyStr.lower_ascii x) c = Ascii.eqb x c.



End LowerSplit.




(* ===================================================================== *)
(** * Reasoning in the monad *)
(* ===================================================================== *)

Section Structural.

Context {A B : Type}.

Lemma terminates_ret (a : A) : terminates (ret a).
Proof. by intros w. Qed.

Lemma terminates_raise (e : exn) : terminates (raise (A := A) e).
Proof. by intros w. Qed.

Lemma terminates_bind (m : M A) (k : A -> M B) :
  terminates m -> (forall a, terminates (k a)) -> terminates (bind m k).
Proof.
  intros Hm Hk w. unfold bind. specialize (Hm w).
  destruct (m w) as [[a|e|] w']; simpl in *; [apply Hk | done | done].
Qed.

Lemma terminates_try_except (m : M A) (h : exn -> M A) :
  terminates m -> (forall e, terminates (h e)) -> terminates (try_except m h).
Proof.
  intros Hm Hh w. unfold try_except. specialize (Hm w).
  destruct (m w) as [[a|e|] w']; simpl in *; [done | apply Hh | done].
Qed.

Lemma returns_ret (a : A) : returns (ret a).
Proof. intros w. by exists a, w. Qed.

Lemma returns_bind (m : M A) (k : A -> M B) :
  returns m -> (forall a, returns (k a)) -> returns (bind m k).
Proof.
  intros Hm Hk w. unfold bind. destruct (Hm w) as (a & w' & ->). apply Hk.
Qed.

(** A [try] whose handler returns, around a body that ends, returns. *)
Lemma returns_try_except (m : M A) (h : exn -> M A) :
  terminates m -> (forall e, returns (h e)) -> returns (try_except m h).
Proof.
  intros Hm Hh w. unfold try_except. specialize (Hm w).
  destruct (m w) as [[a|e|] w']; simpl in *; [eauto | apply Hh | done].
Qed.

Lemma returns_terminates (m : M A) : returns m -> terminates m.
Proof. intros Hm w. by destruct (Hm w) as (a & w' & ->). Qed.

Variable P : world -> Prop.

Lemma preserves_ret (a : A) : preserves P (ret a).
Proof. by intros w. Qed.

Lemma preserves_raise (e : exn) : preserves P (raise (A := A) e).
Proof. by intros w. Qed.

Lemma preserves_bind (m : M A) (k : A -> M B) :
  preserves P m -> (forall a, preserves P (k a)) -> preserves P (bind m k).
Proof.
  intros Hm Hk w Hw. unfold bind. specialize (Hm w Hw).
  destruct (m w) as [[a|e|] w']; simpl in *; [by apply Hk | done | done].
Qed.

Lemma preserves_try_except (m : M A) (h : exn -> M A) :
  preserves P m -> (forall e, preserves P (h e)) -> preserves P (try_except m h).
Proof.
  intros Hm Hh w Hw. unfold try_except. specialize (Hm w Hw).
  destruct (m w) as [[a|e|] w']; simpl in *; [done | by apply Hh | done].
Qed.

End Structural.

(** One step of a structural proof of [terminates], [returns] or
    [preserves]: through a [bind], a [try], or a case distinction. *)
Ltac monad_step :=
  match goal with
  | |- terminates (bind _ _) => apply terminates_bind; [|intros ?]
  | |- terminates (try_except _ _) => apply terminates_try_except; [|intros ?]
  | |- terminates (ret _) => apply terminates_ret
  | |- terminates (raise _) => apply terminates_raise
  | |- returns (bind _ _) => apply returns_bind; [|intros ?]
  | |- returns (ret _) => apply returns_ret
  | |- preserves _ (bind _ _) => apply preserves_bind; [|intros ?]
  | |- preserves _ (try_except _ _) => apply preserves_try_except; [|intros ?]
  | |- preserves _ (ret _) => apply preserves_ret
  | |- preserves _ (raise _) => apply preserves_raise
  | |- _ (if ?b then _ else _) => destruct b
  | |- _ (match ?x with _ => _ end) => destruct x
  | |- _ _ (if ?b then _ else _) => destruct b
  | |- _ _ (match ?x with _ => _ end) => destruct x
  end.

Create HintDb monad discriminated.

Ltac monad_solve := repeat (first [monad_step | solve [eauto with monad]]).

(** *** The primitives end. *)

Lemma terminates_get_fs : terminates get_fs.
Proof. by intros w. Qed.
Lemma terminates_put_fs f : terminates (put_fs f).
Proof. by intros w. Qed.
Lemma terminates_logger l msg : terminates (logger l msg).
Proof. by intros w. Qed.
Lemma returns_logger l msg : returns (logger l msg).
Proof. intros w. by eexists _, _. Qed.
#[export] Hint Resolve terminates_get_fs terminates_put_fs terminates_logger
  returns_logger : monad.

Lemma terminates_os_path_exists p : terminates (os_path_exists p).
Proof. unfold os_path_exists. monad_solve. Qed.
Lemma terminates_os_path_isdir p : terminates (os_path_isdir p).
Proof. unfold os_path_isdir. monad_solve. Qed.
Lemma terminates_os_stat p : terminates (os_stat p).
Proof. unfold os_stat. monad_solve. Qed.
#[export] Hint Resolve terminates_os_path_exists terminates_os_path_isdir
  terminates_os_stat : monad.
Lemma terminates_os_path_getsize p : terminates (os_path_getsize p).
Proof. unfold os_path_getsize. monad_solve. Qed.
Lemma terminates_shutil_copy2 src dst : terminates (shutil_copy2 src dst).
Proof. unfold shutil_copy2. monad_solve. Qed.
Lemma terminates_shutil_move src dst : terminates (shutil_move src dst).
Proof. unfold shutil_move. monad_solve. Qed.
#[export] Hint Resolve terminates_os_path_getsize terminates_shutil_copy2
  terminates_shutil_move : monad.

(** The suffix search ends: this is where the bound on the loop is used. *)
Lemma terminates_while_exists base ext dest_path :
  terminates (while_exists base ext dest_path).
Proof.
  intros w. unfold while_exists.
  destruct (rename_loop_result w base ext dest_path) as (n & -> & _). done.
Qed.
#[export] Hint Resolve terminates_while_exists : monad.

Lemma terminates_handle_conflict file_path dest_path :
  terminates (handle_conflict file_path dest_path).
Proof. unfold handle_conflict. monad_solve. Qed.
Lemma terminates_same_size_exists file_path dest_path :
  terminates (same_size_exists file_path dest_path).
Proof. unfold same_size_exists. monad_solve. Qed.
#[export] Hint Resolve terminates_handle_conflict terminates_same_size_exists : monad.

Section ScriptTerminates.

Context {lib : Library}.
Variable caps : capabilities.

Lemma terminates_os_makedirs name : terminates (os_makedirs name).
Proof. intros w. unfold os_makedirs. by destruct (makedirs_chain _ _ _) as [[e|] f']. Qed.
Hint Resolve terminates_os_makedirs : monad.

Lemma terminates_backend_read view p : terminates (backend_read view p).
Proof. unfold backend_read. monad_solve. Qed.
Hint Resolve terminates_backend_read : monad.

Lemma terminates_image_strategy view failed p :
  terminates (image_strategy view failed p).
Proof. unfold image_strategy. monad_solve. Qed.
Hint Resolve terminates_image_strategy : monad.

Lemma terminates_get_date_taken_from_image p :
  terminates (get_date_taken_from_image caps p).
Proof. unfold get_date_taken_from_image. monad_solve. Qed.

Lemma terminates_get_date_taken_from_video p :
  terminates (get_date_taken_from_video caps p).
Proof. unfold get_date_taken_from_video. monad_solve. Qed.
Hint Resolve terminates_get_date_taken_from_image
  terminates_get_date_taken_from_video : monad.

Lemma terminates_metadata_date e p : terminates (metadata_date caps e p).
Proof. unfold metadata_date. monad_solve. Qed.

Lemma terminates_add_date_to_exif p d : terminates (add_date_to_exif caps p d).
Proof. unfold add_date_to_exif. monad_solve. Qed.
Hint Resolve terminates_metadata_date terminates_add_date_to_exif : monad.

Lemma terminates_get_file_date p : terminates (get_file_date caps p).
Proof. unfold get_file_date. monad_solve. Qed.

Lemma terminates_create_destination_path dest_root d p :
  terminates (create_destination_path dest_root d p).
Proof. unfold create_destination_path. monad_solve. Qed.
Hint Resolve terminates_get_file_date terminates_create_destination_path : monad.

(** [process_file] always returns: the [except] clause turns every
    exception into [False], and nothing in the body loops for ever. *)
Lemma returns_process_file file_path dest_root dry_run copy :
  returns (process_file caps file_path dest_root dry_run copy).
Proof.
  unfold process_file. apply returns_try_except; [monad_solve|].
  intros e. monad_solve.
Qed.

End ScriptTerminates.

(** *** What the script keeps. *)

Lemma preserves_unchanged {A} (P : world -> Prop) (m : M A) :
  (forall w, (m w).2 = w) -> preserves P m.
Proof. intros H w Hw. by rewrite H. Qed.

Lemma preserves_get_fs P : preserves P get_fs.
Proof. by intros w. Qed.
#[export] Hint Resolve preserves_get_fs : monad.

Lemma preserves_os_path_exists P p : preserves P (os_path_exists p).
Proof. unfold os_path_exists. monad_solve. Qed.
Lemma preserves_os_path_isdir P p : preserves P (os_path_isdir p).
Proof. unfold os_path_isdir. monad_solve. Qed.
Lemma preserves_os_stat P p : preserves P (os_stat p).
Proof. unfold os_stat. monad_solve. Qed.
#[export] Hint Resolve preserves_os_path_exists preserves_os_path_isdir
  preserves_os_stat : monad.
Lemma preserves_os_path_getsize P p : preserves P (os_path_getsize p).
Proof. unfold os_path_getsize. monad_solve. Qed.
Lemma preserves_while_exists P base ext d : preserves P (while_exists base ext d).
Proof.
  apply preserves_unchanged. intros w. unfold while_exists.
  by destruct (rename_loop _ _ _ _ _ _) as [[? ?]|].
Qed.
#[export] Hint Resolve preserves_os_path_getsize preserves_while_exists : monad.
Lemma preserves_handle_conflict P file_path dest_path :
  preserves P (handle_conflict file_path dest_path).
Proof. unfold handle_conflict. monad_solve. Qed.
Lemma preserves_same_size_exists P file_path dest_path :
  preserves P (same_size_exists file_path dest_path).
Proof. unfold same_size_exists. monad_solve. Qed.
#[export] Hint Resolve preserves_handle_conflict preserves_same_size_exists : monad.

(** The conflict handling and the skip test only read. *)
Lemma handle_conflict_world file_path dest_path w :
  (handle_conflict file_path dest_path w).2 = w.
Proof. by apply (preserves_handle_conflict (fun w' => w' = w)). Qed.

Lemma same_size_exists_world file_path dest_path w :
  (same_size_exists file_path dest_path w).2 = w.
Proof. by apply (preserves_same_size_exists (fun w' => w' = w)). Qed.

Lemma preserves_logger P l msg : log_stable P -> preserves P (logger l msg).
Proof. intros HP [f lg] Hw. by apply HP. Qed.

Lemma preserves_put_fs P f : fs_blind P -> preserves P (put_fs f).
Proof. intros HP [f0 lg] Hw. by apply (HP f0). Qed.
#[export] Hint Resolve preserves_logger preserves_put_fs : monad.

Lemma preserves_shutil_copy2 P src dst : fs_blind P -> preserves P (shutil_copy2 src dst).
Proof. intros HP. unfold shutil_copy2. monad_solve. Qed.
Lemma preserves_shutil_move P src dst : fs_blind P -> preserves P (shutil_move src dst).
Proof. intros HP. unfold shutil_move. monad_solve. Qed.
#[export] Hint Resolve preserves_shutil_copy2 preserves_shutil_move : monad.

Lemma makedirs_chain_stable P st chain f l :
  mkdir_stable P -> P (mk_world f l) -> P (mk_world (makedirs_chain st chain f).2 l).
Proof.
  intros HP. revert f. induction chain as [|p rest IH]; intros f Hf; simpl; [done|].
  destruct (f !! p) as [[s|s m]|] eqn:E; [by apply IH | done |].
  apply IH. by apply HP.
Qed.

Section ScriptPreserves.

Context {lib : Library}.
Variable caps : capabilities.
Variable P : world -> Prop.
Hypothesis P_log : log_stable P.

Lemma preserves_os_makedirs name : mkdir_stable P -> preserves P (os_makedirs name).
Proof.
  intros HP [f l] Hw. unfold os_makedirs. simpl.
  pose proof (makedirs_chain_stable P mkdir_stat (OsPath.dir_chain "" name) f l HP Hw).
  by destruct (makedirs_chain _ _ _) as [[e|] f'].
Qed.

Lemma preserves_backend_read view p : preserves P (backend_read view p).
Proof. unfold backend_read. monad_solve. Qed.
Hint Resolve preserves_backend_read : monad.

Lemma preserves_image_strategy view failed p :
  preserves P (image_strategy view failed p).
Proof. unfold image_strategy. monad_solve. Qed.
Hint Resolve preserves_image_strategy : monad.

Lemma preserves_get_date_taken_from_image p :
  preserves P (get_date_taken_from_image caps p).
Proof. unfold get_date_taken_from_image. monad_solve. Qed.

Lemma preserves_get_date_taken_from_video p :
  preserves P (get_date_taken_from_video caps p).
Proof. unfold get_date_taken_from_video. monad_solve. Qed.
Hint Resolve preserves_get_date_taken_from_image
  preserves_get_date_taken_from_video : monad.

(** Reading the metadata only logs. *)
Lemma preserves_metadata_date e p : preserves P (metadata_date caps e p).
Proof. unfold metadata_date. monad_solve. Qed.
Hint Resolve preserves_metadata_date : monad.

Lemma preserves_add_date_to_exif p d :
  fs_blind P -> preserves P (add_date_to_exif caps p d).
Proof. intros HP. unfold add_date_to_exif. monad_solve. Qed.
Hint Resolve preserves_add_date_to_exif : monad.

Lemma preserves_get_file_date p : fs_blind P -> preserves P (get_file_date caps p).
Proof. intros HP. unfold get_file_date. monad_solve. Qed.

Lemma preserves_create_destination_path dest_root d p :
  mkdir_stable P -> preserves P (create_destination_path dest_root d p).
Proof.
  intros HP. unfold create_destination_path.
  pose proof (preserves_os_makedirs). monad_solve.
Qed.

End ScriptPreserves.

(* ===================================================================== *)
(** * The date resolver *)
(* ===================================================================== *)

Lemma bind_Ok {A B} (m : M A) (k : A -> M B) w a w1 :
  m w = (Ok a, w1) -> bind m k w = k a w1.
Proof. intros H. unfold bind. by rewrite H. Qed.

Lemma try_bind_Ok {A B} (m : M A) (k : A -> M B) (h : exn -> M B) w a w1 :
  m w = (Ok a, w1) -> try_except (bind m k) h w = try_except (k a) h w1.
Proof. intros H. unfold try_except. by rewrite (bind_Ok _ _ _ _ _ H). Qed.

Lemma os_stat_Some (w : world) (p : string) (n : node) :
  fs w !! p = Some n -> os_stat p w = (Ok (node_stat n), w).
Proof. intros H. unfold os_stat, bind, get_fs, ret. by rewrite H. Qed.

Lemma log_from_stable l0 : log_stable (log_from l0).
Proof. intros f l e [l' H]. simpl in H. exists (l' ++ [e])%list. simpl. by rewrite H, app_assoc. Qed.

Lemma log_from_blind l0 : fs_blind (log_from l0).
Proof. intros f f' l H. exact H. Qed.

Lemma log_from_refl w : log_from (log w) w.
Proof. exists []. by rewrite app_nil_r. Qed.

Lemma fs_is_stable (f0 : gmap string node) : log_stable (fun w => fs w = f0).
Proof. by intros f l e H. Qed.

Section Resolver.

Context {lib : Library}.
Variable caps : capabilities.

Lemma returns_image_strategy view failed p : returns (image_strategy view failed p).
Proof.
  intros w. unfold image_strategy, backend_read, bind, get_fs, ret, logger. simpl.
  destruct (match fs w !! p with Some n => view (node_media n) | None => ReadRaises end)
    as [| |v]; [eauto..|].
  destruct (strptime v _); eauto.
Qed.

Lemma returns_get_date_taken_from_image p : returns (get_date_taken_from_image caps p).
Proof.
  unfold get_date_taken_from_image.
  apply returns_bind.
  - destruct (HAS_PIL caps); [apply returns_image_strategy | apply returns_ret].
  - intros [d|]; [apply returns_ret|].
    destruct (HAS_EXIFREAD caps); [apply returns_image_strategy | apply returns_ret].
Qed.

Lemma returns_get_date_taken_from_video p : returns (get_date_taken_from_video caps p).
Proof.
  intros w. unfold get_date_taken_from_video, bind, get_fs, ret, logger.
  simpl. repeat case_match; eauto.
Qed.

(** The metadata extractor never raises past its boundary. *)
Lemma returns_metadata_date e p : returns (metadata_date caps e p).
Proof.
  unfold metadata_date.
  destruct (bool_decide _); [apply returns_get_date_taken_from_image|].
  destruct (bool_decide _); [apply returns_get_date_taken_from_video | apply returns_ret].
Qed.

Lemma returns_add_date_to_exif p d : returns (add_date_to_exif caps p d).
Proof.
  unfold add_date_to_exif. destruct (_ || _); [apply returns_ret|].
  apply returns_try_except; [monad_solve | intros e; monad_solve].
Qed.

(** The enrichment step of lines 157-162 always comes back. *)
Lemma returns_enrichment (cond : bool) p d :
  returns (if cond
           then try_except
                  (add_date_to_exif caps p d ;;; logger INFO (AddedMtimeToExif p))
                  (fun e => logger ERROR (FailedToAddMtime p))
           else ret tt).
Proof.
  destruct cond; [|apply returns_ret].
  apply returns_try_except.
  - pose proof (terminates_add_date_to_exif caps p d). monad_solve.
  - intros e. apply returns_logger.
Qed.

(** Without a metadata date the resolver reads the modification time of
    the file; the metadata extractors have left the filesystem as it
    was. *)
Lemma metadata_date_none (p : string) (w : world) (n : node) :
  fs w !! p = Some n ->
  (metadata_date caps (file_ext_of p) p w).1 = Ok None ->
  exists w1 l1,
    metadata_date caps (file_ext_of p) p w = (Ok None, w1) /\
    fs w1 = fs w /\ log w1 = (log w ++ l1)%list /\
    os_stat p w1 = (Ok (node_stat n), w1).
Proof.
  intros Hn Hmd.
  destruct (metadata_date caps (file_ext_of p) p w) as [r w1] eqn:E. simpl in Hmd. subst r.
  assert (fs w1 = fs w /\ log_from (log w) w1) as [Hfs [l1 Hl1]].
  { pose proof (preserves_metadata_date caps (fun w' => fs w' = fs w /\ log_from (log w) w')
                  ltac:(intros f l e [? ?]; split; [done | by apply log_from_stable])
                  (file_ext_of p) p w (conj eq_refl (log_from_refl w))) as H.
    by rewrite E in H. }
  exists w1, l1. repeat split; [done..|]. apply os_stat_Some. by rewrite Hfs.
Qed.

(** The fallback branch of [get_file_date], when [datetime.fromtimestamp]
    returns. *)
Lemma get_file_date_fallback (p : string) (w : world) (n : node) (d : datetime) :
  fs w !! p = Some n ->
  (metadata_date caps (file_ext_of p) p w).1 = Ok None ->
  fromtimestamp (st_mtime (node_stat n)) = inr d ->
  exists w' l1 l2,
    get_file_date caps p w = (Ok d, w') /\
    log w' = (log w ++ l1 ++ (INFO, NoMetadataDate p d) :: l2)%list.
Proof.
  intros Hn Hmd Hts. unfold get_file_date.
  destruct (metadata_date caps (file_ext_of p) p w) as [r w1] eqn:E. simpl in Hmd. subst r.
  assert (fs w1 = fs w /\ log_from (log w) w1) as [Hfs [l1 Hl1]].
  { pose proof (preserves_metadata_date caps (fun w' => fs w' = fs w /\ log_from (log w) w')
                  ltac:(intros f l e [? ?]; split; [done | by apply log_from_stable])
                  (file_ext_of p) p w (conj eq_refl (log_from_refl w))) as H.
    by rewrite E in H. }
  rewrite (bind_Ok _ _ _ _ _ E).
  rewrite (bind_Ok _ _ w1 (node_stat n) w1) by (apply os_stat_Some; by rewrite Hfs).
  rewrite Hts.
  set (w2 := mk_world (fs w1) (log w1 ++ [(INFO, NoMetadataDate p d)])%list).
  rewrite (bind_Ok _ _ w1 tt w2) by done.
  destruct (returns_enrichment
              (bool_decide (file_ext_of p ∈ IMAGE_EXTENSIONS) && HAS_PIL caps && HAS_PIEXIF caps)
              p d w2) as ([] & w3 & E3).
  rewrite (bind_Ok _ _ _ _ _ E3).
  assert (log_from (log w2) w3) as [l2 Hl2].
  { pose proof (log_from_stable (log w2)) as Hs.
    pose proof (log_from_blind (log w2)) as Hb.
    assert (preserves (log_from (log w2))
              (if bool_decide (file_ext_of p ∈ IMAGE_EXTENSIONS) && HAS_PIL caps && HAS_PIEXIF caps
               then try_except
                      (add_date_to_exif caps p d ;;; logger INFO (AddedMtimeToExif p))
                      (fun e => logger ERROR (FailedToAddMtime p))
               else ret tt)) as Hp.
    { pose proof (preserves_add_date_to_exif caps _ Hs p d Hb). monad_solve. }
    specialize (Hp w2 (log_from_refl w2)). by rewrite E3 in Hp. }
  exists w3, l1, l2. split; [done|].
  rewrite Hl2. unfold w2. simpl. rewrite Hl1. by rewrite <- !app_assoc.
Qed.

(** The fallback branch when [datetime.fromtimestamp] raises: the
    exception leaves [get_file_date], nothing has been written. *)
Lemma get_file_date_unrepresentable (p : string) (w : world) (n : node) (e : exn) :
  fs w !! p = Some n ->
  (metadata_date caps (file_ext_of p) p w).1 = Ok None ->
  fromtimestamp (st_mtime (node_stat n)) = inl e ->
  exists w', get_file_date caps p w = (Raise e, w') /\ fs w' = fs w.
Proof.
  intros Hn Hmd Hts.
  destruct (metadata_date_none p w n Hn Hmd) as (w1 & l1 & E & Hfs & _ & Est).
  exists w1. split; [|done]. unfold get_file_date.
  rewrite (bind_Ok _ _ _ _ _ E), (bind_Ok _ _ _ _ _ Est). by rewrite Hts.
Qed.

(** [get_file_date] returns a timestamp for every file that exists and
    whose modification time [datetime.fromtimestamp] can convert. *)
Lemma get_file_date_total (p : string) (w : world) (n : node) (d0 : datetime) :
  fs w !! p = Some n ->
  fromtimestamp (st_mtime (node_stat n)) = inr d0 ->
  exists d w', get_file_date caps p w = (Ok d, w').
Proof.
  intros Hn Hts.
  destruct (returns_metadata_date (file_ext_of p) p w) as ([d|] & w1 & E).
  - exists d, w1. unfold get_file_date. by rewrite (bind_Ok _ _ _ _ _ E).
  - destruct (get_file_date_fallback p w n d0 Hn) as (w' & _ & _ & H & _);
      [by rewrite E | done |].
    eauto.
Qed.

End Resolver.

(** ** C6 *)

(** C6. For every file for which no metadata strategy yields a parseable
    capture timestamp, the resolver converts the file's modification time
    with [datetime.fromtimestamp].  When the conversion returns, the
    resolved timestamp is its value, with provenance
    [ModificationTimeFallback].  When it raises (a modification time that
    [datetime] cannot represent), the fallback fails: [get_file_date]
    raises the same exception with nothing written, no timestamp is
    resolved, and [process_file] reports the file as an error. *)
Theorem fallback_to_modification_time {lib : Library} (caps : capabilities)
    (p : string) (w : world) (n : node) :
  fs w !! p = Some n ->
  (metadata_date caps (file_ext_of p) p w).1 = Ok None ->
  match fromtimestamp (st_mtime (node_stat n)) with
  | inr d =>
      (exists w', get_file_date caps p w = (Ok d, w')) /\
      resolve caps p w = Some (d, ModificationTimeFallback)
  | inl e =>
      (exists w', get_file_date caps p w = (Raise e, w') /\ fs w' = fs w) /\
      resolve caps p w = None /\
      (forall dest_root dry_run copy,
         exists w', process_file caps p dest_root dry_run copy w = (Ok RFalse, w') /\
                    fs w' = fs w /\
                    exists before,
                      log w' = (before ++ [(ERROR, ErrorProcessing p e)])%list)
  end.
Proof.
  intros Hn Hmd.
  destruct (fromtimestamp (st_mtime (node_stat n))) as [e|d] eqn:Hts.
  - destruct (get_file_date_unrepresentable caps p w n e Hn Hmd Hts) as (w' & E & Hfs).
    split; [eauto|]. split.
    + unfold resolve. by rewrite E.
    + intros dest_root dry_run copy.
      exists (mk_world (fs w') (log w' ++ [(ERROR, ErrorProcessing p e)])%list).
      split; [|split; [done | by exists (log w')]].
      unfold process_file, try_except. unfold bind at 1. by rewrite E.
  - destruct (get_file_date_fallback caps p w n d Hn Hmd Hts) as (w' & l1 & l2 & E & Hlog).
    split; [eauto|]. unfold resolve. rewrite E, Hlog.
    rewrite drop_app_length. rewrite existsb_app. simpl.
    by rewrite String.eqb_refl, orb_true_r.
Qed.

Lemma fallback_to_modification_time_witness :
  (exists w', @get_file_date Reference.library all_caps "/src/b.jpg" w_no_metadata
              = (Ok dt_mtime, w')) /\
  @resolve Reference.library all_caps "/src/b.jpg" w_no_metadata
    = Some (dt_mtime, ModificationTimeFallback).
Proof.
  apply (@fallback_to_modification_time Reference.library all_caps "/src/b.jpg"
           w_no_metadata (jpeg_without_exif 200)).
  - reflexivity.
  - vm_compute. reflexivity.
Defined.

(** A file whose modification time lies in the year 10000 has no metadata
    date and no fallback either. *)
Lemma get_file_date_year_10000 :
  @get_file_date Reference.library all_caps "/src/far.jpg" w_far_future
  = (Raise ValueError, w_far_future).
Proof. vm_compute. reflexivity. Qed.

(** C6, as the specification words it, fails: the fallback does not always
    succeed, so some existing file without metadata gets no timestamp. *)
Lemma fallback_can_fail :
  ~ (forall (lib : Library) (caps : capabilities) (p : string) (w : world) (n : node),
       fs w !! p = Some n ->
       (metadata_date caps (file_ext_of p) p w).1 = Ok None ->
       spec_fallback_always_succeeds caps p w).
Proof.
  intros H.
  specialize (H Reference.library all_caps "/src/far.jpg" w_far_future
                (jpeg_modified 200 ts_year_10000) eq_refl).
  destruct H as (d & H); [vm_compute; reflexivity|].
  unfold resolve in H. by rewrite get_file_date_year_10000 in H.
Qed.

#[export] Hint Resolve preserves_os_makedirs preserves_metadata_date
  preserves_add_date_to_exif preserves_get_file_date
  preserves_create_destination_path : monad.

(* ===================================================================== *)
(** * The enrichment write *)
(* ===================================================================== *)

Lemma lookup_is_mkdir_stable (p : string) (n : node) :
  mkdir_stable (fun w => fs w !! p = Some n).
Proof.
  intros f l q st Hq H. simpl in *. rewrite lookup_insert_ne; [done|].
  intros ->. congruence.
Qed.

Lemma lookup_is_log_stable (p : string) (n : node) :
  log_stable (fun w => fs w !! p = Some n).
Proof. by intros f l e H. Qed.

Section Enrichment.

Context {lib : Library}.
Variable caps : capabilities.
Hypothesis has_pil : HAS_PIL caps = true.
Hypothesis has_piexif : HAS_PIEXIF caps = true.

Variable p : string.
Variable w : world.
Variables (s : stat) (m : media).
Hypothesis p_image : file_ext_of p ∈ IMAGE_EXTENSIONS.
Hypothesis p_file : fs w !! p = Some (File s m).
Hypothesis p_no_date : (get_date_taken_from_image caps p w).1 = Ok None.
Variable d : datetime.
Hypothesis p_mtime : fromtimestamp (st_mtime s) = inr d.

(** [add_date_to_exif] on a JPEG that [piexif] can rewrite. *)
Lemma add_date_to_exif_writes (w2 : world) (d0 : datetime) s' m' :
  fs w2 !! p = Some (File s m) ->
  PyStr.endswith ".jpg" (PyStr.lower p) || PyStr.endswith ".jpeg" (PyStr.lower p) = true ->
  piexif_insert_dates (strftime d0 "%Y:%m:%d %H:%M:%S") s m = Some (s', m') ->
  add_date_to_exif caps p d0 w2
  = (Ok true, mk_world (<[p := File s' m']> (fs w2)) (log w2)).
Proof.
  intros Hp Hjpg Hins. unfold add_date_to_exif.
  rewrite has_pil, has_piexif. simpl. rewrite Hjpg. simpl.
  unfold try_except, bind, get_fs, put_fs, ret. by rewrite Hp, Hins.
Qed.

(** In the fallback branch the resolver calls [add_date_to_exif] on the
    source file before it returns. *)
Lemma get_file_date_enriches :
  exists w1 l1 l2,
    get_file_date caps p w = (Ok d, w1) /\
    log w1 = (log w ++ l1 ++ (INFO, AddedMtimeToExif p) :: l2)%list /\
    (PyStr.endswith ".jpg" (PyStr.lower p) || PyStr.endswith ".jpeg" (PyStr.lower p) = true ->
     forall s' m',
       piexif_insert_dates (strftime d "%Y:%m:%d %H:%M:%S") s m = Some (s', m') ->
       fs w1 !! p = Some (File s' m')).
Proof.
  unfold get_file_date, metadata_date.
  rewrite (bool_decide_eq_true_2 _ p_image), has_pil, has_piexif. simpl.
  destruct (get_date_taken_from_image caps p w) as [r w1] eqn:E.
  simpl in p_no_date. subst r.
  assert (fs w1 = fs w /\ log_from (log w) w1) as [Hfs [l1 Hl1]].
  { pose proof (preserves_get_date_taken_from_image caps
                  (fun w' => fs w' = fs w /\ log_from (log w) w')
                  ltac:(intros f l e [? ?]; split; [done | by apply log_from_stable])
                  p w (conj eq_refl (log_from_refl w))) as H.
    by rewrite E in H. }
  rewrite (bind_Ok _ _ _ _ _ E).
  assert (fs w1 !! p = Some (File s m)) as Hp1 by (by rewrite Hfs).
  rewrite (bind_Ok _ _ w1 s w1) by (by rewrite (os_stat_Some _ _ _ Hp1)).
  rewrite p_mtime.
  set (w2 := mk_world (fs w1) (log w1 ++ [(INFO, NoMetadataDate p d)])%list).
  rewrite (bind_Ok _ _ w1 tt w2) by done.
  destruct (returns_add_date_to_exif caps p d w2) as (b & w3 & E3).
  assert (log_from (log w2) w3) as [l3 Hl3].
  { pose proof (preserves_add_date_to_exif caps _ (log_from_stable (log w2)) p d
                  (log_from_blind (log w2)) w2 (log_from_refl w2)) as H.
    by rewrite E3 in H. }
  set (w4 := mk_world (fs w3) (log w3 ++ [(INFO, AddedMtimeToExif p)])%list).
  assert (try_except
            (add_date_to_exif caps p d ;;; logger INFO (AddedMtimeToExif p))
            (fun e => logger ERROR (FailedToAddMtime p)) w2 = (Ok tt, w4)) as E4.
  { unfold try_except. by rewrite (bind_Ok _ _ _ _ _ E3). }
  rewrite (bind_Ok _ _ _ _ _ E4).
  exists w4, (l1 ++ (INFO, NoMetadataDate p d) :: l3)%list, []. split; [done|]. split.
  - unfold w4. simpl. rewrite Hl3. unfold w2. simpl. rewrite Hl1.
    rewrite <- ?app_assoc. simpl. by rewrite <- ?app_assoc.
  - intros Hjpg s' m' Hins.
    rewrite (add_date_to_exif_writes w2 d s' m' Hp1 Hjpg Hins) in E3.
    injection E3 as _ <-. unfold w4. simpl. apply lookup_insert_eq.
Qed.

End Enrichment.

(** ** C9 *)

(** C9. The enrichment write does not depend on the run mode.  For an image
    file without a readable metadata date, with PIL and piexif present and
    a modification time [d] to fall back to, [process_file] calls
    [add_date_to_exif] on the source file whatever [dry_run] says (the log
    line that follows the call is there), and in a dry run a JPEG that
    [piexif] can rewrite is left rewritten: a dry run mutates the source
    file. *)
Theorem enrichment_ignores_dry_run {lib : Library} (caps : capabilities)
    (p dest_root : string) (w : world) (s : stat) (m : media) (d : datetime) :
  HAS_PIL caps = true ->
  HAS_PIEXIF caps = true ->
  file_ext_of p ∈ IMAGE_EXTENSIONS ->
  fs w !! p = Some (File s m) ->
  (get_date_taken_from_image caps p w).1 = Ok None ->
  fromtimestamp (st_mtime s) = inr d ->
  (forall dry_run copy,
     exists l1 l2,
       log (process_file caps p dest_root dry_run copy w).2
       = (log w ++ l1 ++ (INFO, AddedMtimeToExif p) :: l2)%list) /\
  (PyStr.endswith ".jpg" (PyStr.lower p) || PyStr.endswith ".jpeg" (PyStr.lower p) = true ->
   forall s' m' copy,
     piexif_insert_dates (strftime d "%Y:%m:%d %H:%M:%S") s m = Some (s', m') ->
     fs (process_file caps p dest_root true copy w).2 !! p = Some (File s' m')).
Proof.
  intros Hpil Hpiexif Himg Hp Hnone Hts.
  destruct (get_file_date_enriches caps Hpil Hpiexif p w s m Himg Hp Hnone d Hts)
    as (w1 & l1 & l2 & E & Hlog & Hfs).
  split.
  - intros dry_run copy. unfold process_file. rewrite (try_bind_Ok _ _ _ _ _ _ E).
    pose proof (log_from_stable (log w1)) as Hs.
    pose proof (log_from_blind (log w1)) as Hb.
    assert (mkdir_stable (log_from (log w1))) as Hm by (by intros f l q st _ H).
    match goal with
    | |- context [try_except ?k ?h w1] =>
        assert (preserves (log_from (log w1)) (try_except k h)) as HP
    end.
    { monad_solve. }
    destruct (HP w1 (log_from_refl w1)) as [l3 Hl3].
    exists l1, (l2 ++ l3)%list. rewrite Hl3, Hlog. by rewrite <- ?app_assoc.
  - intros Hjpg s' m' copy Hins. specialize (Hfs Hjpg s' m' Hins).
    unfold process_file. rewrite (try_bind_Ok _ _ _ _ _ _ E).
    pose proof (lookup_is_log_stable p (File s' m')) as Hs.
    pose proof (lookup_is_mkdir_stable p (File s' m')) as Hm.
    match goal with
    | |- context [try_except ?k ?h w1] =>
        assert (preserves (fun w => fs w !! p = Some (File s' m')) (try_except k h)) as HP
    end.
    { monad_solve. }
    exact (HP w1 Hfs).
Qed.

Lemma enrichment_ignores_dry_run_witness :
  (forall dry_run copy,
     exists l1 l2,
       log (@process_file Reference.library all_caps "/src/b.jpg" "/out" dry_run copy
              w_no_metadata).2
       = (log w_no_metadata ++ l1 ++ (INFO, AddedMtimeToExif "/src/b.jpg") :: l2)%list) /\
  (PyStr.endswith ".jpg" (PyStr.lower "/src/b.jpg")
   || PyStr.endswith ".jpeg" (PyStr.lower "/src/b.jpg") = true ->
   forall s' m' copy,
     @piexif_insert_dates Reference.library
       (@strftime Reference.library dt_mtime "%Y:%m:%d %H:%M:%S")
       (mk_stat 200 ts_mtime) (mk_media TagAbsent TagAbsent None) = Some (s', m') ->
     fs (@process_file Reference.library all_caps "/src/b.jpg" "/out" true copy
           w_no_metadata).2 !! "/src/b.jpg" = Some (File s' m')).
Proof.
  apply (@enrichment_ignores_dry_run Reference.library all_caps "/src/b.jpg" "/out"
           w_no_metadata (mk_stat 200 ts_mtime) (mk_media TagAbsent TagAbsent None)
           dt_mtime).
  - reflexivity.
  - reflexivity.
  - apply (bool_decide_unpack _). vm_compute. exact I.
  - reflexivity.
  - vm_compute. reflexivity.
  - vm_compute. reflexivity.
Defined.

(** The dry run of the reference library on [b.jpg]: the file grows by the
    EXIF block and now carries the modification time as its capture date. *)
Example dry_run_rewrites_source :
  fs (@process_file Reference.library all_caps "/src/b.jpg" "/out" true false
        w_no_metadata).2 !! "/src/b.jpg"
  = Some (File (mk_stat 274 ts_mtime)
               (mk_media (TagValue "2023:07:04 12:30:00")
                         (TagValue "2023:07:04 12:30:00") None)).
Proof. vm_compute. reflexivity. Qed.

(* ===================================================================== *)
(** * The walker *)
(* ===================================================================== *)

Lemma video_not_image (e : string) :
  e ∈ VIDEO_EXTENSIONS -> bool_decide (e ∈ IMAGE_EXTENSIONS) = false.
Proof.
  unfold VIDEO_EXTENSIONS. rewrite !elem_of_union, !elem_of_singleton.
  intros H. repeat (destruct H as [H | H]); subst e; by vm_compute.
Qed.

Section Walker.

Context {lib : Library}.
Variable caps : capabilities.

(** A media file is handed to [process_file] and counted by its result. *)
Lemma for_files_media root filename rest dest_root dry_run copy c w :
  file_ext_of filename ∈ MEDIA_EXTENSIONS ->
  exists r w',
    process_file caps (OsPath.join root filename) dest_root dry_run copy w = (Ok r, w') /\
    for_files caps root (filename :: rest) dest_root dry_run copy c w
    = for_files caps root rest dest_root dry_run copy (counted r c) w'.
Proof.
  intros H.
  destruct (returns_process_file caps (OsPath.join root filename) dest_root dry_run copy w)
    as (r & w' & E).
  exists r, w'. split; [done|]. simpl.
  rewrite (bool_decide_eq_true_2 _ H). unfold bind at 1. unfold bind at 1.
  by rewrite E.
Qed.

(** Any other file is counted as skipped and left alone. *)
Lemma for_files_non_media root filename rest dest_root dry_run copy c w :
  file_ext_of filename ∉ MEDIA_EXTENSIONS ->
  for_files caps root (filename :: rest) dest_root dry_run copy c w
  = for_files caps root rest dest_root dry_run copy
      (mk_counts (success_count c) (error_count c) (S (skipped_count c)))
      (mk_world (fs w)
         (log w ++ [(INFO, SkippingNonMedia (OsPath.join root filename))])%list).
Proof. intros H. simpl. by rewrite (bool_decide_eq_false_2 _ H). Qed.

End Walker.

(** *** The extension of a stem followed by an extension. *)







(** ** C8 *)



Example upper_case_image_is_media :
  file_ext_of "IMG_0001.JPG" = ".jpg" /\
  bool_decide (file_ext_of "IMG_0001.JPG" ∈ IMAGE_EXTENSIONS) = true.
Proof. split; vm_compute; reflexivity. Qed.

Example mixed_case_video_is_media :
  file_ext_of "clip.Mp4" = ".mp4" /\
  bool_decide (file_ext_of "clip.Mp4" ∈ VIDEO_EXTENSIONS) = true /\
  bool_decide (file_ext_of "clip.Mp4" ∈ MEDIA_EXTENSIONS) = true.
Proof. repeat split; vm_compute; reflexivity. Qed.

(* ===================================================================== *)
(** * The driver *)
(* ===================================================================== *)

Section Driver.

Context {lib : Library}.
Variable caps : capabilities.

Lemma total_counted r c : total (counted r c) = S (total c).
Proof. unfold counted, total. destruct (truthy r); simpl; lia. Qed.

(** The inner loop visits every file of the directory, whatever the
    earlier files did. *)
Lemma for_files_total root files dest_root dry_run copy c w :
  exists c' w',
    for_files caps root files dest_root dry_run copy c w = (Ok c', w') /\
    total c' = (total c + length files)%nat.
Proof.
  revert c w. induction files as [|filename rest IH]; intros c w.
  { exists c, w. split; [done|]. simpl. lia. }
  destruct (decide (file_ext_of filename ∈ MEDIA_EXTENSIONS)) as [H|H].
  - destruct (for_files_media caps root filename rest dest_root dry_run copy c w H)
      as (r & w1 & _ & ->).
    destruct (IH (counted r c) w1) as (c' & w' & -> & Ht).
    exists c', w'. split; [done|]. rewrite Ht, total_counted. simpl. lia.
  - rewrite (for_files_non_media caps root filename rest dest_root dry_run copy c w H).
    destruct (IH (mk_counts (success_count c) (error_count c) (S (skipped_count c)))
                 (mk_world (fs w)
                    (log w ++ [(INFO, SkippingNonMedia (OsPath.join root filename))])%list))
      as (c' & w' & -> & Ht).
    exists c', w'. split; [done|]. rewrite Ht. unfold total. simpl. lia.
Qed.

(** The whole walk is completed: every file it yields is counted once. *)
Lemma for_walk_total os_walk dest_root dry_run copy c w :
  exists c' w',
    for_walk caps os_walk dest_root dry_run copy c w = (Ok c', w') /\
    total c' = (total c + walked os_walk)%nat.
Proof.
  revert c w. induction os_walk as [|[root files] rest IH]; intros c w.
  { exists c, w. split; [done|]. unfold walked. simpl. lia. }
  destruct (for_files_total root files dest_root dry_run copy c w) as (c1 & w1 & E1 & Ht1).
  destruct (IH c1 w1) as (c' & w' & E & Ht).
  exists c', w'. split.
  - simpl. by rewrite (bind_Ok _ _ _ _ _ E1).
  - rewrite Ht, Ht1. unfold walked. rewrite fmap_cons. simpl. rewrite length_app. lia.
Qed.

(** The verdict of [process_directory] is read off its counters. *)
Lemma process_directory_verdict os_walk source_dir dest_root dry_run copy w :
  abspath source_dir <> abspath dest_root ->
  exists c w',
    for_walk caps os_walk (abspath dest_root) dry_run copy (mk_counts 0 0 0) w = (Ok c, w') /\
    total c = walked os_walk /\
    process_directory caps os_walk source_dir dest_root dry_run copy w
    = (Ok ((0 <? success_count c)%nat && (error_count c =? 0)%nat),
       mk_world (fs w')
         (log w' ++ [(INFO, ProcessingComplete (success_count c) (error_count c)
                              (skipped_count c))])%list).
Proof.
  intros Hne.
  destruct (for_walk_total os_walk (abspath dest_root) dry_run copy (mk_counts 0 0 0) w)
    as (c & w' & E & Ht).
  exists c, w'. split; [done|]. split; [by rewrite Ht|].
  unfold process_directory. rewrite (bool_decide_eq_false_2 _ Hne).
  by rewrite (bind_Ok _ _ _ _ _ E).
Qed.

(** A file that [process_file] skips (result [None]) goes into
    [error_count]: the test of line 268 does not tell [None] from
    [False]. *)
Lemma skip_counts_as_error root filename dest_root dry_run copy c w w' :
  file_ext_of filename ∈ MEDIA_EXTENSIONS ->
  process_file caps (OsPath.join root filename) dest_root dry_run copy w = (Ok RNone, w') ->
  for_files caps root [filename] dest_root dry_run copy c w
  = (Ok (mk_counts (success_count c) (S (error_count c)) (skipped_count c)), w').
Proof.
  intros H E.
  destruct (for_files_media caps root filename [] dest_root dry_run copy c w H)
    as (r & w1 & E1 & ->).
  rewrite E in E1. by injection E1 as <- <-.
Qed.

(** When the planned destination holds a file of the source's size,
    [process_file] logs the skip, returns [None] and touches nothing. *)
Lemma process_file_skips file_path dest_root dry_run copy w d w1 dest_path w2 src other :
  get_file_date caps file_path w = (Ok d, w1) ->
  create_destination_path dest_root d file_path w1 = (Ok dest_path, w2) ->
  fs w2 !! file_path = Some src ->
  fs w2 !! dest_path = Some other ->
  st_size (node_stat src) = st_size (node_stat other) ->
  process_file caps file_path dest_root dry_run copy w
  = (Ok RNone, mk_world (fs w2) (log w2 ++ [(INFO, SkippingSameSize file_path)])%list).
Proof.
  intros E1 E2 Hsrc Hdst Hsize. unfold process_file.
  rewrite (try_bind_Ok _ _ _ _ _ _ E1), (try_bind_Ok _ _ _ _ _ _ E2).
  rewrite (try_bind_Ok _ _ _ _ dest_path w2
             (handle_conflict_same_size _ _ _ _ _ Hsrc Hdst Hsize)).
  assert (same_size_exists file_path dest_path w2 = (Ok true, w2)) as E4.
  { unfold same_size_exists, os_path_exists, os_path_getsize, os_stat, get_fs, bind, ret.
    by rewrite (path_exists_Some _ _ _ Hdst), Hsrc, Hdst, Hsize, Nat.eqb_refl. }
  rewrite (try_bind_Ok _ _ _ _ _ _ E4). done.
Qed.

(** When the planned destination holds a file of another size,
    [process_file] never skips: it works on a renamed, free path and
    returns [True] or, when the copy or move fails, [False]. *)
Lemma process_file_renames file_path dest_root dry_run copy w d w1 dest_path w2 src other :
  get_file_date caps file_path w = (Ok d, w1) ->
  create_destination_path dest_root d file_path w1 = (Ok dest_path, w2) ->
  fs w2 !! file_path = Some src ->
  fs w2 !! dest_path = Some other ->
  st_size (node_stat src) <> st_size (node_stat other) ->
  exists r w',
    process_file caps file_path dest_root dry_run copy w = (Ok r, w') /\
    r <> RNone /\
    forall p, (INFO, SkippingSameSize p) ∉ drop (length (log w2)) (log w').
Proof.
  intros E1 E2 Hsrc Hdst Hsize. unfold process_file.
  rewrite (try_bind_Ok _ _ _ _ _ _ E1), (try_bind_Ok _ _ _ _ _ _ E2).
  destruct (handle_conflict_renames w2 file_path dest_path src other Hsrc Hdst Hsize)
    as (n & Hn & E3 & _ & Hfree).
  rewrite (try_bind_Ok _ _ _ _ _ _ E3).
  rewrite (try_bind_Ok _ _ _ _ _ _ (same_size_exists_free _ file_path _ Hfree)).
  assert (forall (l : list (level * message)) e1 p,
            e1 <> (INFO, SkippingSameSize p) ->
            (INFO, SkippingSameSize p) ∉ drop (length l) (l ++ [e1])) as One.
  { intros l e1 p He. rewrite drop_app_length. intros H%list_elem_of_singleton. congruence. }
  assert (forall (l : list (level * message)) e1 e2 p,
            e1 <> (INFO, SkippingSameSize p) -> e2 <> (INFO, SkippingSameSize p) ->
            (INFO, SkippingSameSize p) ∉ drop (length l) ((l ++ [e1]) ++ [e2])) as Two.
  { intros l e1 e2 p He1 He2. rewrite <- app_assoc, drop_app_length. simpl.
    rewrite !elem_of_cons, elem_of_nil. intros [H|[H|[]]]; congruence. }
  destruct dry_run; [|destruct copy];
    cbv [try_except bind logger shutil_copy2 shutil_move get_fs put_fs ret raise];
    cbn [fs log].
  - eexists _, _. split; [done|]. split; [done|]. intros p. cbn [log]. by apply One.
  - rewrite Hsrc. destruct src as [s|s m].
    + eexists _, _. split; [done|]. split; [done|]. intros p. cbn [log]. by apply Two.
    + eexists _, _. split; [done|]. split; [done|]. intros p. cbn [log]. by apply One.
  - rewrite Hsrc, Hfree.
    eexists _, _. split; [done|]. split; [done|]. intros p. cbn [log]. by apply One.
Qed.

End Driver.

(** ** C1 *)

(** C1, at a source file whose planned destination holds a file of the same
    size.  [process_file] yields the skip ([None], neither [True] nor
    [False]), logs it and leaves the filesystem as it was; but the driver
    counts the file in [error_count], reports one error and the run exits
    with status 1. *)
Theorem same_size_skip_is_counted_as_error :
  let file := @process_file Reference.library all_caps "/src/a.jpg" "/out" false false
                w_already_migrated in
  let run := @main Reference.library all_caps (mk_args "/src" "/out" false false false)
               [("/src", ["a.jpg"])] w_already_migrated in
  file.1 = Ok RNone /\
  fs file.2 = fs w_already_migrated /\
  log file.2 = [(INFO, SkippingSameSize "/src/a.jpg")] /\
  fs run.2 = fs w_already_migrated /\
  existsb is_failure (log run.2) = false /\
  (INFO, ProcessingComplete 0 1 0) ∈ log run.2 /\
  run.1 = Ok 1.
Proof.
  cbv zeta. repeat split; try (vm_compute; reflexivity).
  vm_compute. repeat constructor.
Qed.

(** ** C2 *)

(** C2, at a dry run over a source with one file and an empty destination
    root.  The run reports the move it would make and exits with status 0,
    and the directories [/out/2024] and [/out/2024/03 - Mar], absent before
    the run, exist after it: the dry run creates directories under the
    destination root (line 208 is not guarded by [dry_run]). *)
Theorem dry_run_creates_directories :
  let run := @main Reference.library all_caps (mk_args "/src" "/out" true false false)
               [("/src", ["a.jpg"])] w_one_file in
  fs w_one_file !! "/out/2024" = None /\
  fs w_one_file !! "/out/2024/03 - Mar" = None /\
  is_dir <$> fs run.2 !! "/out/2024" = Some true /\
  is_dir <$> fs run.2 !! "/out/2024/03 - Mar" = Some true /\
  fs run.2 !! "/out/2024/03 - Mar/a.jpg" = None /\
  fs run.2 !! "/src/a.jpg" = fs w_one_file !! "/src/a.jpg" /\
  (INFO, Would false "/src/a.jpg" "/out/2024/03 - Mar/a.jpg") ∈ log run.2 /\
  run.1 = Ok 0.
Proof.
  cbv zeta. repeat split; try (vm_compute; reflexivity).
  vm_compute. repeat constructor.
Qed.

(** The destination root itself is created in a dry run as well (line 300
    runs before the flag is looked at). *)
Example dry_run_creates_destination_root :
  let run := @main Reference.library all_caps (mk_args "/src" "/new" true false false)
               [("/src", ["a.jpg"])] w_one_file in
  fs w_one_file !! "/new" = None /\
  is_dir <$> fs run.2 !! "/new" = Some true /\
  is_dir <$> fs run.2 !! "/new/2024/03 - Mar" = Some true /\
  run.1 = Ok 0.
Proof. cbv zeta. repeat split; vm_compute; reflexivity. Qed.

(** ** C3 *)

(** C3, at a run over a new file [a.jpg] and an already migrated file
    [b.jpg].  One file is processed, no file fails (the [except] clause of
    [process_file] is never entered), and both files are visited; yet the
    skipped file is counted as an error and the run exits with status 1. *)
Theorem skipped_file_fails_the_run :
  let walk := [("/src", ["a.jpg"; "b.jpg"])] in
  let a := mk_args "/src" "/out" false false false in
  let first := @process_file Reference.library all_caps "/src/a.jpg" "/out" false false
                 w_partly_migrated in
  let second := @process_file Reference.library all_caps "/src/b.jpg" "/out" false false
                  first.2 in
  let run := @main Reference.library all_caps a walk w_partly_migrated in
  first.1 = Ok RTrue /\
  second.1 = Ok RNone /\
  existsb is_failure (log run.2) = false /\
  (INFO, ProcessingComplete 1 1 0) ∈ log run.2 /\
  @exit_status Reference.library all_caps a walk w_partly_migrated = Some 1.
Proof.
  cbv zeta. repeat split; try (vm_compute; reflexivity).
  vm_compute. repeat constructor.
Qed.

(* ===================================================================== *)
(** * What a dry run leaves behind *)
(* ===================================================================== *)

Section DryRun.

Context {lib : Library}.
Variable caps : capabilities.
Variable p : string.
Variable P : world -> Prop.
Hypothesis P_log : log_stable P.
Hypothesis P_mkdir : mkdir_stable P.
Hypothesis P_rewrite : rewrite_stable p P.

Lemma preserves_add_date_to_exif_at d : preserves P (add_date_to_exif caps p d).
Proof.
  intros [f l] Hw. unfold add_date_to_exif.
  destruct (_ || _); [done|].
  unfold try_except, bind, get_fs, put_fs, ret, raise, logger.
  destruct (negb _); [done|]. simpl.
  destruct (f !! p) as [[s|s m]|] eqn:E; simpl; [by apply P_log | | by apply P_log].
  destruct (piexif_insert_dates _ s m) as [[s' m']|]; simpl; [|by apply P_log].
  by eapply P_rewrite.
Qed.

Lemma preserves_get_file_date_at : preserves P (get_file_date caps p).
Proof.
  pose proof preserves_add_date_to_exif_at. unfold get_file_date. monad_solve.
Qed.

(** In a dry run [process_file] only resolves the date, creates the
    planned directories and logs. *)
Lemma preserves_process_file_dry_run dest_root copy :
  preserves P (process_file caps p dest_root true copy).
Proof.
  pose proof preserves_get_file_date_at. unfold process_file. monad_solve.
Qed.

End DryRun.

(** A dry run of [process_file] keeps every entry other than the source
    file as it is, and what it adds are directories: no file is written
    under the destination root. *)
Lemma dry_run_keeps_entries {lib : Library} (caps : capabilities)
    (p dest_root : string) (copy : bool) (w : world) (q : string) (n : node) :
  q <> p -> fs w !! q = Some n ->
  fs (process_file caps p dest_root true copy w).2 !! q = Some n.
Proof.
  intros Hq Hn.
  apply (preserves_process_file_dry_run caps p (fun w => fs w !! q = Some n)
           (lookup_is_log_stable q n) (lookup_is_mkdir_stable q n)); [|done].
  intros f l s m s' m' _ H. simpl in *. by rewrite lookup_insert_ne.
Qed.

Lemma dry_run_adds_directories_only {lib : Library} (caps : capabilities)
    (p dest_root : string) (copy : bool) (w : world) (q : string) (n : node) :
  fs w !! q = None ->
  fs (process_file caps p dest_root true copy w).2 !! q = Some n ->
  is_dir n = true.
Proof.
  intros Hq.
  pose proof (preserves_process_file_dry_run caps p
                (fun w' => forall n, fs w' !! q = Some n -> is_dir n = true)) as H.
  intros Hn. eapply H; [| | | |exact Hn].
  - by intros f l e H'.
  - intros f l q' st Hq' H' n'. simpl in *.
    destruct (decide (q' = q)) as [->|Hne].
    + rewrite lookup_insert_eq. by intros [= <-].
    + rewrite lookup_insert_ne by done. apply H'.
  - intros f l s m s' m' Hp H' n'. simpl in *.
    destruct (decide (p = q)) as [->|Hne].
    + specialize (H' _ Hp). done.
    + rewrite lookup_insert_ne by done. apply H'.
  - intros n'. by rewrite Hq.
Qed.

(* ===================================================================== *)
(** * The exit status *)
(* ===================================================================== *)

(** Once [main] is past its checks, the exit status is 0 exactly when the
    walk ended with [success_count > 0] and [error_count = 0]; every file
    of the walk has been counted by then. *)
Lemma main_verdict {lib : Library} (caps : capabilities) (a : args)
    (os_walk : list (string * list string)) (w w0 w1 : world) :
  check_dependencies caps w = (Ok true, w0) ->
  os_path_isdir (source a) w0 = (Ok true, w0) ->
  os_makedirs (destination a) w0 = (Ok tt, w1) ->
  abspath (source a) <> abspath (destination a) ->
  exists c w2,
    for_walk caps os_walk (abspath (destination a)) (dry_run a) (copy a) (mk_counts 0 0 0)
      (mk_world (fs w1)
         (log w1 ++ [(INFO, Starting (source a) (destination a))]
                 ++ [(INFO, Mode (dry_run a) (copy a))])%list)
    = (Ok c, w2) /\
    total c = walked os_walk /\
    exit_status caps a os_walk w
    = Some (if (0 <? success_count c)%nat && (error_count c =? 0)%nat then 0 else 1).
Proof.
  intros Hc Hd Hm Hne.
  set (w1' := mk_world (fs w1)
                (log w1 ++ [(INFO, Starting (source a) (destination a))]
                        ++ [(INFO, Mode (dry_run a) (copy a))])%list).
  destruct (process_directory_verdict caps os_walk (source a) (destination a)
              (dry_run a) (copy a) w1' Hne) as (c & w2 & E & Ht & Epd).
  exists c, w2. split; [done|]. split; [done|].
  unfold exit_status, main.
  rewrite (bind_Ok _ _ _ _ _ Hc). simpl.
  rewrite (bind_Ok _ _ _ _ _ Hd). simpl.
  rewrite (bind_Ok _ _ _ _ _ Hm).
  unfold bind at 1, logger at 1. unfold bind at 1, logger at 1. simpl.
  rewrite <- app_assoc. fold w1'.
  rewrite (bind_Ok _ _ _ _ _ Epd).
  by destruct ((0 <? success_count c)%nat && (error_count c =? 0)%nat).
Qed.

(* ===================================================================== *)
(** * Further properties: what a disposition can change *)
(* ===================================================================== *)

Lemma try_bind_Raise {A B} (m : M A) (k : A -> M B) (h : exn -> M B) w e w1 :
  m w = (Raise e, w1) -> try_except (bind m k) h w = h e w1.
Proof. intros H. unfold try_except, bind. by rewrite H. Qed.

Lemma same_size_exists_same (w : world) (file_path dest_path : string) n1 n2 :
  fs w !! file_path = Some n1 -> fs w !! dest_path = Some n2 ->
  st_size (node_stat n1) = st_size (node_stat n2) ->
  same_size_exists file_path dest_path w = (Ok true, w).
Proof.
  intros H1 H2 Hs.
  unfold same_size_exists, os_path_exists, os_path_getsize, os_stat, get_fs, bind, ret.
  by rewrite (path_exists_Some _ _ _ H2), H1, H2, Hs, Nat.eqb_refl.
Qed.

(** What the conflict handling hands on: a free path, or a path that the
    skip test accepts, or an exception (the source is gone). *)
Lemma handle_conflict_outcome (w : world) (file_path dest_path : string) :
  (exists dp, handle_conflict file_path dest_path w = (Ok dp, w) /\
              (fs w !! dp = None \/ same_size_exists file_path dp w = (Ok true, w))) \/
  (fs w !! file_path = None /\
   handle_conflict file_path dest_path w = (Raise FileNotFoundError, w)).
Proof.
  destruct (fs w !! dest_path) as [n2|] eqn:E2.
  - destruct (fs w !! file_path) as [n1|] eqn:E1.
    + destruct (decide (st_size (node_stat n1) = st_size (node_stat n2))) as [Hs|Hs].
      * left. exists dest_path. split; [by eapply handle_conflict_same_size|].
        right. by eapply same_size_exists_same.
      * left. destruct (handle_conflict_renames w _ _ _ _ E1 E2 Hs) as (n & _ & E & _ & Hfree).
        eauto.
    + right. split; [done|].
      unfold handle_conflict, os_path_exists, os_path_getsize, os_stat, get_fs, bind, ret, raise.
      by rewrite (path_exists_Some _ _ _ E2), E1.
  - left. exists dest_path. split; [by apply handle_conflict_free | by left].
Qed.

Section Disposition.

Context {lib : Library}.
Variable caps : capabilities.
Variable file_path : string.
Variable P : world -> Prop.
Hypothesis P_log : log_stable P.
Hypothesis P_mkdir : mkdir_stable P.
Hypothesis P_rewrite : rewrite_stable file_path P.
Hypothesis P_fresh : fresh_stable P.

Lemma log_then_return {A} (l : level) (msg : message) (r : A) w :
  P w -> P ((logger l msg ;;; ret r)%py w).2.
Proof. intros Hw. destruct w. unfold bind, logger, ret. simpl. by apply P_log. Qed.

(** The copy of line 238 lands on a free path. *)
Lemma copy_to_free_path dest_path w :
  fs w !! dest_path = None -> P w -> P (shutil_copy2 file_path dest_path w).2.
Proof.
  intros Hfree Hw. destruct w as [f l]. simpl in *.
  unfold shutil_copy2, bind, get_fs, put_fs, raise. simpl.
  destruct (f !! file_path) as [[s|s m]|]; simpl; [done| |done].
  unfold copy_target. rewrite Hfree. by apply P_fresh.
Qed.

(** The move of line 241 lands on a free path and takes the source away. *)
Lemma move_to_free_path dest_path w :
  delete_stable file_path P ->
  fs w !! dest_path = None -> P w -> P (shutil_move file_path dest_path w).2.
Proof.
  intros P_delete Hfree Hw. destruct w as [f l]. simpl in *.
  unfold shutil_move, bind, get_fs, put_fs, raise. simpl.
  destruct (f !! file_path) as [n|]; simpl; [|done].
  rewrite Hfree. simpl. apply P_fresh.
  - destruct (decide (file_path = dest_path)) as [->|Hne];
      [apply lookup_delete_eq | by rewrite lookup_delete_ne].
  - by apply P_delete.
Qed.

(** [process_file] keeps [P] when it copies or only pretends, and in every
    mode when [P] also survives the removal of the source. *)
Lemma preserves_process_file_modes dest_root dry_run copy :
  (dry_run = true \/ copy = true \/ delete_stable file_path P) ->
  preserves P (process_file caps file_path dest_root dry_run copy).
Proof.
  intros Hmode w Hw. unfold process_file.
  pose proof (preserves_get_file_date_at caps file_path P P_log P_rewrite w Hw) as H1.
  destruct (get_file_date caps file_path w) as [[d|e|] w1] eqn:E1; simpl in H1.
  2:{ rewrite (try_bind_Raise _ _ _ _ _ _ E1). by apply log_then_return. }
  2:{ unfold try_except, bind. by rewrite E1. }
  rewrite (try_bind_Ok _ _ _ _ _ _ E1).
  pose proof (preserves_create_destination_path P dest_root d file_path P_mkdir w1 H1)
    as H2.
  destruct (create_destination_path dest_root d file_path w1) as [[dp0|e|] w2] eqn:E2;
    simpl in H2.
  2:{ rewrite (try_bind_Raise _ _ _ _ _ _ E2). by apply log_then_return. }
  2:{ unfold try_except, bind. by rewrite E2. }
  rewrite (try_bind_Ok _ _ _ _ _ _ E2).
  destruct (handle_conflict_outcome w2 file_path dp0) as [(dp & E3 & Hdp)|[_ E3]].
  2:{ rewrite (try_bind_Raise _ _ _ _ _ _ E3). by apply log_then_return. }
  rewrite (try_bind_Ok _ _ _ _ _ _ E3).
  destruct Hdp as [Hfree|E4].
  2:{ rewrite (try_bind_Ok _ _ _ _ _ _ E4).
      unfold try_except. by apply log_then_return. }
  rewrite (try_bind_Ok _ _ _ _ _ _ (same_size_exists_free _ file_path _ Hfree)).
  destruct dry_run.
  { unfold try_except, bind, logger, ret. destruct w2. simpl. by apply P_log. }
  destruct copy.
  - set (w3 := mk_world (fs w2) (log w2 ++ [(DEBUG, Copying file_path dp)])%list).
    assert (P w3) as H3 by (destruct w2; by apply P_log).
    pose proof (copy_to_free_path dp w3 Hfree H3) as H4.
    unfold try_except, bind. unfold logger at 1. fold w3.
    destruct (shutil_copy2 file_path dp w3) as [[[]|e|] w4]; simpl in *; try done.
    destruct w4. by apply P_log.
  - destruct Hmode as [?|[?|P_delete]]; [done..|].
    set (w3 := mk_world (fs w2) (log w2 ++ [(DEBUG, Moving file_path dp)])%list).
    assert (P w3) as H3 by (destruct w2; by apply P_log).
    pose proof (move_to_free_path dp w3 P_delete Hfree H3) as H4.
    unfold try_except, bind. unfold logger at 1. fold w3.
    destruct (shutil_move file_path dp w3) as [[[]|e|] w4]; simpl in *; try done.
    destruct w4. by apply P_log.
Qed.

End Disposition.

Section RunPreserves.

Context {lib : Library}.
Variable caps : capabilities.
Variable P : world -> Prop.
Hypothesis P_log : log_stable P.
Variables dry_run copy : bool.

(** The loops keep what every call of [process_file] in them keeps. *)
Lemma preserves_for_files root files dest_root c :
  (forall f, f ∈ files ->
     preserves P (process_file caps (OsPath.join root f) dest_root dry_run copy)) ->
  preserves P (for_files caps root files dest_root dry_run copy c).
Proof.
  revert c. induction files as [|filename rest IH]; intros c Hs; [apply preserves_ret|].
  simpl. apply preserves_bind.
  - pose proof (Hs filename ltac:(left)). monad_solve.
  - intros c'. apply IH. intros f Hf. apply Hs. by right.
Qed.

Lemma preserves_for_walk os_walk dest_root c :
  (forall p, p ∈ walked_paths os_walk ->
     preserves P (process_file caps p dest_root dry_run copy)) ->
  preserves P (for_walk caps os_walk dest_root dry_run copy c).
Proof.
  revert c. induction os_walk as [|[root files] rest IH]; intros c Hs; [apply preserves_ret|].
  simpl. apply preserves_bind.
  - apply preserves_for_files. intros f Hf. apply Hs.
    unfold walked_paths. simpl. apply elem_of_app. left.
    apply list_elem_of_In, in_map, list_elem_of_In, Hf.
  - intros c'. apply IH. intros p Hp. apply Hs.
    unfold walked_paths. simpl. apply elem_of_app. by right.
Qed.

Lemma preserves_process_directory os_walk source_dir dest_root :
  (forall p root, p ∈ walked_paths os_walk ->
     preserves P (process_file caps p root dry_run copy)) ->
  preserves P (process_directory caps os_walk source_dir dest_root dry_run copy).
Proof.
  intros Hs.
  pose proof (preserves_for_walk os_walk (abspath dest_root)) as H.
  unfold process_directory. monad_solve; try (apply H; intros p Hp; by apply Hs).
Qed.

End RunPreserves.

Lemma preserves_check_dependencies (caps : capabilities) (P : world -> Prop) :
  log_stable P -> preserves P (check_dependencies caps).
Proof. intros HP. unfold check_dependencies. monad_solve. Qed.

(** The whole run keeps what its calls of [process_file] keep, if the
    creation of the destination root keeps it too. *)
Lemma preserves_main_calls {lib : Library} (caps : capabilities) (P : world -> Prop)
    (a : args) (os_walk : list (string * list string)) :
  log_stable P -> mkdir_stable P ->
  (forall p root, p ∈ walked_paths os_walk ->
     preserves P (process_file caps p root (dry_run a) (copy a))) ->
  preserves P (main caps a os_walk).
Proof.
  intros Hl Hm Hs.
  pose proof (preserves_check_dependencies caps P Hl).
  pose proof (preserves_process_directory caps P Hl (dry_run a) (copy a) os_walk
                (source a) (destination a) Hs).
  unfold main. monad_solve.
Qed.

Lemma preserves_main {lib : Library} (caps : capabilities) (P : world -> Prop)
    (a : args) (os_walk : list (string * list string)) :
  log_stable P -> mkdir_stable P -> fresh_stable P ->
  (forall p, p ∈ walked_paths os_walk -> survives P (dry_run a) (copy a) p) ->
  preserves P (main caps a os_walk).
Proof.
  intros Hl Hm Hf Hs. apply preserves_main_calls; [done..|].
  intros p root Hp. destruct (Hs p Hp) as [Hr Hmode].
  by apply preserves_process_file_modes.
Qed.

(** In a dry run the filesystem is only touched by date resolution and
    directory creation. *)
Lemma preserves_main_dry_run {lib : Library} (caps : capabilities) (P : world -> Prop)
    (a : args) (os_walk : list (string * list string)) :
  dry_run a = true ->
  log_stable P -> mkdir_stable P ->
  (forall p, p ∈ walked_paths os_walk -> rewrite_stable p P) ->
  preserves P (main caps a os_walk).
Proof.
  intros Hdry Hl Hm Hs. apply preserves_main_calls; [done..|].
  intros p root Hp. rewrite Hdry.
  by apply preserves_process_file_dry_run; [| |apply Hs].
Qed.

(* ===================================================================== *)
(** * Further properties: the outcomes of [process_file] *)
(* ===================================================================== *)

Section Outcomes.

Context {lib : Library}.
Variable caps : capabilities.

(** The action of lines 233-243 on a free destination path. *)
Lemma act_on_free_path (file_path dest_path : string) (dry_run copy : bool) (w : world) :
  fs w !! dest_path = None ->
  try_except
    ((if dry_run then logger INFO (Would copy file_path dest_path)
      else if copy then
        logger DEBUG (Copying file_path dest_path) ;;; shutil_copy2 file_path dest_path
      else
        logger DEBUG (Moving file_path dest_path) ;;; shutil_move file_path dest_path) ;;;
     ret RTrue)%py
    (fun e => logger ERROR (ErrorProcessing file_path e) ;;; ret RFalse)%py w
  = (Ok (acted file_path dest_path dry_run copy w).1,
     (acted file_path dest_path dry_run copy w).2).
Proof.
  intros Hfree. unfold acted.
  destruct dry_run; [done|]. destruct copy.
  - cbv [try_except bind logger shutil_copy2 get_fs put_fs ret raise copy_target logged].
    cbn [fs log]. rewrite Hfree.
    by destruct (fs w !! file_path) as [[s|s m]|].
  - cbv [try_except bind logger shutil_move get_fs put_fs ret raise logged].
    cbn [fs log]. rewrite Hfree.
    by destruct (fs w !! file_path) as [n|].
Qed.

(** Every call of [process_file] goes one of the five ways. *)
Lemma process_file_disposition file_path dest_root dry_run copy w :
  exists r w',
    process_file caps file_path dest_root dry_run copy w = (Ok r, w') /\
    disposition caps file_path dest_root dry_run copy w r w'.
Proof.
  unfold process_file.
  pose proof (terminates_get_file_date caps file_path w) as T1.
  destruct (get_file_date caps file_path w) as [[d|e|] w1] eqn:E1; [|clear T1|done].
  2:{ rewrite (try_bind_Raise _ _ _ _ _ _ E1). eexists _, _. split; [done|].
      by eapply disp_date_fails. }
  rewrite (try_bind_Ok _ _ _ _ _ _ E1).
  pose proof (terminates_create_destination_path dest_root d file_path w1) as T2.
  destruct (create_destination_path dest_root d file_path w1) as [[planned|e|] w2] eqn:E2;
    [| |done].
  2:{ rewrite (try_bind_Raise _ _ _ _ _ _ E2). eexists _, _. split; [done|].
      by eapply disp_makedirs_fails. }
  rewrite (try_bind_Ok _ _ _ _ _ _ E2).
  destruct (fs w2 !! planned) as [other|] eqn:Ep.
  - destruct (fs w2 !! file_path) as [src|] eqn:Es.
    + destruct (decide (st_size (node_stat src) = st_size (node_stat other))) as [Hs|Hs].
      * rewrite (try_bind_Ok _ _ _ _ _ _ (handle_conflict_same_size _ _ _ _ _ Es Ep Hs)).
        rewrite (try_bind_Ok _ _ _ _ _ _ (same_size_exists_same _ _ _ _ _ Es Ep Hs)).
        eexists _, _. split; [done|]. by eapply disp_skip.
      * destruct (handle_conflict_renames w2 _ _ _ _ Es Ep Hs) as (n & _ & E3 & _ & Hfree).
        rewrite (try_bind_Ok _ _ _ _ _ _ E3).
        rewrite (try_bind_Ok _ _ _ _ _ _ (same_size_exists_free _ file_path _ Hfree)).
        rewrite (act_on_free_path _ _ _ _ _ Hfree).
        eexists _, _. split; [done|]. by eapply disp_acted.
    + assert (handle_conflict file_path planned w2 = (Raise FileNotFoundError, w2)) as E3.
      { unfold handle_conflict, os_path_exists, os_path_getsize, os_stat, get_fs, bind,
          ret, raise.
        by rewrite (path_exists_Some _ _ _ Ep), Es. }
      rewrite (try_bind_Raise _ _ _ _ _ _ E3). eexists _, _. split; [done|].
      by eapply disp_source_gone.
  - rewrite (try_bind_Ok _ _ _ _ _ _ (handle_conflict_free _ file_path _ Ep)).
    rewrite (try_bind_Ok _ _ _ _ _ _ (same_size_exists_free _ file_path _ Ep)).
    rewrite (act_on_free_path _ _ _ _ _ Ep).
    eexists _, _. split; [done|]. eapply disp_acted; eauto using handle_conflict_free.
Qed.

End Outcomes.

Lemma exists_is_log_stable (q : string) : log_stable (fun w => is_Some (fs w !! q)).
Proof. by intros f l e H. Qed.

Lemma exists_is_mkdir_stable (q : string) : mkdir_stable (fun w => is_Some (fs w !! q)).
Proof.
  intros f l p st _ H. simpl in *.
  destruct (decide (p = q)) as [->|Hne]; [by rewrite lookup_insert_eq|].
  by rewrite lookup_insert_ne.
Qed.

Lemma exists_is_fresh_stable (q : string) : fresh_stable (fun w => is_Some (fs w !! q)).
Proof.
  intros f l p n _ H. simpl in *.
  destruct (decide (p = q)) as [->|Hne]; [by rewrite lookup_insert_eq|].
  by rewrite lookup_insert_ne.
Qed.

Lemma exists_is_rewrite_stable (p q : string) :
  rewrite_stable p (fun w => is_Some (fs w !! q)).
Proof.
  intros f l s m s' m' _ H. simpl in *.
  destruct (decide (p = q)) as [->|Hne]; [by rewrite lookup_insert_eq|].
  by rewrite lookup_insert_ne.
Qed.

Lemma still_there_log_stable (q : string) (n : node) : log_stable (still_there q n).
Proof. by intros f l e H. Qed.

Lemma still_there_fresh_stable (q : string) (n : node) : fresh_stable (still_there q n).
Proof.
  intros f l p n0 Hp (n' & Hn' & Hk). exists n'. split; [|done]. simpl in *.
  rewrite lookup_insert_ne; [done|]. intros ->. congruence.
Qed.

Lemma still_there_mkdir_stable (q : string) (n : node) : mkdir_stable (still_there q n).
Proof. intros f l p st. apply (still_there_fresh_stable q n f l p (Dir st)). Qed.

Lemma still_there_rewrite_stable (p q : string) (n : node) :
  q <> p -> rewrite_stable p (still_there q n).
Proof.
  intros Hq f l s m s' m' _ (n' & Hn' & Hk). exists n'. split; [|done]. simpl in *.
  by rewrite lookup_insert_ne.
Qed.

Lemma still_there_delete_stable (p q : string) (n : node) :
  q <> p -> delete_stable p (still_there q n).
Proof.
  intros Hq f l (n' & Hn' & Hk). exists n'. split; [|done]. simpl in *.
  by rewrite lookup_delete_ne.
Qed.

Section Planning.

Context {lib : Library}.
Variable caps : capabilities.

(** Date resolution and directory creation never remove an entry. *)
Lemma planning_keeps_existence file_path dest_root w r1 w1 d r2 w2 q :
  get_file_date caps file_path w = (r1, w1) ->
  create_destination_path dest_root d file_path w1 = (r2, w2) ->
  is_Some (fs w !! q) -> is_Some (fs w2 !! q).
Proof.
  intros E1 E2 Hq.
  pose proof (preserves_get_file_date_at caps file_path _ (exists_is_log_stable q)
                (exists_is_rewrite_stable file_path q) w Hq) as H1.
  rewrite E1 in H1. simpl in H1.
  pose proof (preserves_create_destination_path _ dest_root d file_path
                (exists_is_mkdir_stable q) w1 H1) as H2.
  by rewrite E2 in H2.
Qed.

(** Directory creation keeps every entry as it is. *)
Lemma create_destination_path_keeps dest_root d file_path w1 r2 w2 q n :
  create_destination_path dest_root d file_path w1 = (r2, w2) ->
  fs w1 !! q = Some n -> fs w2 !! q = Some n.
Proof.
  intros E2 Hq.
  pose proof (preserves_create_destination_path _ dest_root d file_path
                (lookup_is_mkdir_stable q n) w1 Hq) as H2.
  by rewrite E2 in H2.
Qed.

(** Both extractors give up on a file that is not there. *)
Lemma metadata_date_missing e p w :
  fs w !! p = None ->
  exists w1, metadata_date caps e p w = (Ok None, w1) /\ fs w1 = fs w.
Proof.
  intros Hp.
  assert (forall view failed w0, fs w0 !! p = None ->
            exists w1, image_strategy view failed p w0 = (Ok None, w1) /\ fs w1 = fs w0)
    as Hstrategy.
  { intros view failed w0 H0. unfold image_strategy, backend_read, bind, get_fs, ret, logger.
    rewrite H0. eauto. }
  unfold metadata_date. destruct (bool_decide _).
  - unfold get_date_taken_from_image.
    assert (exists w0, (if HAS_PIL caps
                        then image_strategy pil_exif (PilFailed p) p else ret None) w
                       = (Ok None, w0) /\ fs w0 = fs w) as (w0 & E0 & F0).
    { destruct (HAS_PIL caps); [by apply Hstrategy | by exists w]. }
    rewrite (bind_Ok _ _ _ _ _ E0).
    destruct (HAS_EXIFREAD caps).
    + destruct (Hstrategy exifread_tags (ExifreadFailed p) w0) as (w1 & E1 & F1);
        [by rewrite F0|].
      exists w1. split; [done|]. by rewrite F1.
    + by exists w0.
  - destruct (bool_decide _); [|by exists w].
    unfold get_date_taken_from_video. destruct (HAS_FFMPEG caps); [|by exists w].
    unfold bind, get_fs, ret, logger. rewrite Hp. simpl. eauto.
Qed.

(** [os.path.getmtime] raises on a file that is not there. *)
Lemma get_file_date_missing p w :
  fs w !! p = None ->
  exists w1, get_file_date caps p w = (Raise FileNotFoundError, w1) /\ fs w1 = fs w.
Proof.
  intros Hp. unfold get_file_date.
  destruct (metadata_date_missing (file_ext_of p) p w Hp) as (w1 & E1 & F1).
  rewrite (bind_Ok _ _ _ _ _ E1).
  exists w1. split; [|done].
  assert (os_stat p w1 = (Raise FileNotFoundError, w1)) as E2.
  { unfold os_stat, bind, get_fs, ret, raise. by rewrite F1, Hp. }
  unfold bind at 1. by rewrite E2.
Qed.

(** So a resolved date means the file was there. *)
Lemma get_file_date_Ok_exists p w d w1 :
  get_file_date caps p w = (Ok d, w1) -> is_Some (fs w !! p) /\ is_Some (fs w1 !! p).
Proof.
  intros E.
  assert (is_Some (fs w !! p)) as Hp.
  { destruct (fs w !! p) eqn:Hp; [eauto|].
    destruct (get_file_date_missing p w Hp) as (w' & E' & _). congruence. }
  split; [done|].
  pose proof (preserves_get_file_date_at caps p _ (exists_is_log_stable p)
                (exists_is_rewrite_stable p p) w Hp) as H1.
  by rewrite E in H1.
Qed.

End Planning.

(** ** X1 *)

(** X1. [process_file] never removes an entry other than its own source
    file, and never puts an entry of another kind in its place, in any
    mode and however the call ends: a path [q] different from [file_path]
    that holds a regular file before the call holds a regular file after
    it, and a directory stays a directory. *)
Theorem process_file_removes_no_other_entry {lib : Library} (caps : capabilities)
    (file_path dest_root : string) (dry_run copy : bool) (w : world)
    (q : string) (n : node) :
  q <> file_path ->
  fs w !! q = Some n ->
  exists n',
    fs (process_file caps file_path dest_root dry_run copy w).2 !! q = Some n' /\
    is_dir n' = is_dir n.
Proof.
  intros Hq Hn.
  apply (preserves_process_file_modes caps file_path (still_there q n)).
  - apply still_there_log_stable.
  - apply still_there_mkdir_stable.
  - by apply still_there_rewrite_stable.
  - apply still_there_fresh_stable.
  - right. right. by apply still_there_delete_stable.
  - by exists n.
Qed.

Lemma process_file_removes_no_other_entry_witness :
  exists n',
    fs (@process_file Reference.library all_caps "/src/a.jpg" "/out" false false
          w_two_sources).2 !! "/out/2024/03 - Mar/a.jpg" = Some n' /\
    is_dir n' = is_dir (jpeg_with_exif 150 "2024:03:15 09:00:00").
Proof.
  apply (@process_file_removes_no_other_entry Reference.library all_caps "/src/a.jpg"
           "/out" false false w_two_sources).
  - discriminate.
  - reflexivity.
Defined.

(** ** X2 *)

(** X2. A whole run removes nothing but walked files, also when it moves:
    a path that is not one of the paths [process_directory] builds from
    the walk and that holds an entry before [main] holds an entry of the
    same kind after it, in every mode and whatever fails on the way. *)
Theorem run_removes_only_walked_files {lib : Library} (caps : capabilities) (a : args)
    (os_walk : list (string * list string)) (w : world) (q : string) (n : node) :
  q ∉ walked_paths os_walk ->
  fs w !! q = Some n ->
  exists n',
    fs (main caps a os_walk w).2 !! q = Some n' /\ is_dir n' = is_dir n.
Proof.
  intros Hq Hn.
  apply (preserves_main caps (still_there q n)).
  - apply still_there_log_stable.
  - apply still_there_mkdir_stable.
  - apply still_there_fresh_stable.
  - intros p Hp. assert (q <> p) as Hne by (intros ->; done). split.
    + by apply still_there_rewrite_stable.
    + right. right. by apply still_there_delete_stable.
  - by exists n.
Qed.

Lemma run_removes_only_walked_files_witness :
  exists n',
    fs (@main Reference.library all_caps (mk_args "/src" "/out" false false false)
          [("/src", ["a.jpg"; "b.jpg"; "notes.txt"])] w_two_sources).2
       !! "/out/2024/03 - Mar/a.jpg" = Some n' /\
    is_dir n' = is_dir (jpeg_with_exif 150 "2024:03:15 09:00:00").
Proof.
  apply (@run_removes_only_walked_files Reference.library all_caps
           (mk_args "/src" "/out" false false false)
           [("/src", ["a.jpg"; "b.jpg"; "notes.txt"])] w_two_sources).
  - apply (bool_decide_unpack _). vm_compute. exact I.
  - reflexivity.
Defined.

(** ** X3 *)

(** X3. With [--copy] or [--dry-run] nothing disappears: every path that
    exists before the run exists after it (the source files included). *)
Theorem copy_and_dry_run_lose_nothing {lib : Library} (caps : capabilities) (a : args)
    (os_walk : list (string * list string)) (w : world) (q : string) :
  dry_run a = true \/ copy a = true ->
  is_Some (fs w !! q) ->
  is_Some (fs (main caps a os_walk w).2 !! q).
Proof.
  intros Hmode Hq.
  apply (preserves_main caps (fun w => is_Some (fs w !! q))).
  - apply exists_is_log_stable.
  - apply exists_is_mkdir_stable.
  - apply exists_is_fresh_stable.
  - intros p Hp. split; [apply exists_is_rewrite_stable|].
    destruct Hmode; auto.
  - done.
Qed.

Lemma copy_and_dry_run_lose_nothing_witness :
  is_Some (fs (@main Reference.library all_caps (mk_args "/src" "/out" false true false)
                 [("/src", ["a.jpg"; "b.jpg"; "notes.txt"])] w_two_sources).2
              !! "/src/a.jpg").
Proof.
  apply (@copy_and_dry_run_lose_nothing Reference.library all_caps
           (mk_args "/src" "/out" false true false)
           [("/src", ["a.jpg"; "b.jpg"; "notes.txt"])] w_two_sources).
  - right. reflexivity.
  - vm_compute. eauto.
Defined.

(** ** X4 *)

(** X4. Every call of [process_file] returns (no exception escapes it and
    it does not loop), and its last log line tells the result: [True] after
    the line that announces the copy or move (or the would-be one in a dry
    run), [None] after the skip line, [False] after the error line that
    names the file and the exception. *)
Theorem process_file_result_is_logged {lib : Library} (caps : capabilities)
    (file_path dest_root : string) (dry_run copy : bool) (w : world) :
  exists r w' before,
    process_file caps file_path dest_root dry_run copy w = (Ok r, w') /\
    match r with
    | RTrue =>
        exists dest_path,
          log w' = (before ++ [if dry_run then (INFO, Would copy file_path dest_path)
                               else if copy then (DEBUG, Copying file_path dest_path)
                               else (DEBUG, Moving file_path dest_path)])%list
    | RNone => log w' = (before ++ [(INFO, SkippingSameSize file_path)])%list
    | RFalse => exists e, log w' = (before ++ [(ERROR, ErrorProcessing file_path e)])%list
    end.
Proof.
  destruct (process_file_disposition caps file_path dest_root dry_run copy w)
    as (r & w' & E & D).
  destruct D as [e w1 E1|d w1 e w2 E1 E2|d w1 planned w2 E1 E2 Hp Hs
                |d w1 planned w2 src other E1 E2 Hs Hp Hsize
                |d w1 planned w2 dest_path E1 E2 E3 Hfree].
  - eexists _, _, (log w1). split; [exact E|]. cbn beta iota. by exists e.
  - eexists _, _, (log w2). split; [exact E|]. cbn beta iota. by exists e.
  - eexists _, _, (log w2). split; [exact E|]. cbn beta iota. by exists FileNotFoundError.
  - eexists _, _, (log w2). split; [exact E|]. done.
  - revert E. unfold acted, logged. destruct dry_run; [|destruct copy]; cbn [fst snd].
    + intros E. eexists _, _, (log w2). split; [exact E|]. cbn beta iota. by exists dest_path.
    + destruct (fs w2 !! file_path) as [[s|s m]|]; cbn [fst snd fs log]; intros E.
      * eexists _, _, (log w2 ++ [(DEBUG, Copying file_path dest_path)])%list.
        split; [exact E|]. cbn beta iota. by exists IsADirectoryError.
      * eexists _, _, (log w2). split; [exact E|]. cbn beta iota. by exists dest_path.
      * eexists _, _, (log w2 ++ [(DEBUG, Copying file_path dest_path)])%list.
        split; [exact E|]. cbn beta iota. by exists FileNotFoundError.
    + destruct (fs w2 !! file_path) as [n|]; cbn [fst snd fs log]; intros E.
      * eexists _, _, (log w2). split; [exact E|]. cbn beta iota. by exists dest_path.
      * eexists _, _, (log w2 ++ [(DEBUG, Moving file_path dest_path)])%list.
        split; [exact E|]. cbn beta iota. by exists FileNotFoundError.
Qed.

(** ** X5 *)

(** X5. When a real run of [process_file] returns [True], the file is
    where the log says: some path that was free before the call now holds
    the source file exactly as date resolution left it; after a move the
    source path is gone, after a copy it still holds the same file. *)
Theorem processed_file_is_at_destination {lib : Library} (caps : capabilities)
    (file_path dest_root : string) (copy : bool) (w w' : world) :
  process_file caps file_path dest_root false copy w = (Ok RTrue, w') ->
  exists dest_path n,
    fs w !! dest_path = None /\
    fs (get_file_date caps file_path w).2 !! file_path = Some n /\
    fs w' !! dest_path = Some n /\
    fs w' !! file_path = (if copy then Some n else None) /\
    (exists before,
       log w' = (before ++ [(DEBUG, if copy then Copying file_path dest_path
                                    else Moving file_path dest_path)])%list).
Proof.
  intros H.
  destruct (process_file_disposition caps file_path dest_root false copy w)
    as (r & w'' & E & D).
  rewrite E in H. injection H as -> ->.
  inversion D as [| | | |d w1 planned w2 dest_path E1 E2 E3 Hfree Hr Hw]; subst.
  exists dest_path.
  destruct (get_file_date_Ok_exists caps _ _ _ _ E1) as [_ [n1 Hn1]].
  pose proof (create_destination_path_keeps _ _ _ _ _ _ _ _ E2 Hn1) as Hn2.
  assert (fs w !! dest_path = None) as Hfree0.
  { destruct (fs w !! dest_path) eqn:Hd; [|done].
    pose proof (planning_keeps_existence caps _ _ _ _ _ _ _ _ dest_path E1 E2
                  ltac:(by rewrite Hd)) as [? Hx]. congruence. }
  assert (file_path <> dest_path) as Hne by (intros ->; congruence).
  revert Hr. unfold acted, logged. rewrite E1. cbn [fst snd]. rewrite Hn2.
  destruct copy; cbn [fst snd fs log].
  - destruct n1 as [s|s m]; cbn [fst snd fs log]; [done|]. intros _.
    exists (File s m). repeat split; try done.
    + apply lookup_insert_eq.
    + by rewrite lookup_insert_ne.
    + by exists (log w2).
  - intros _. exists n1. repeat split; try done.
    + apply lookup_insert_eq.
    + rewrite lookup_insert_ne by done. apply lookup_delete_eq.
    + by exists (log w2).
Qed.

Lemma processed_file_is_at_destination_witness :
  exists dest_path n,
    fs w_two_sources !! dest_path = None /\
    fs (@get_file_date Reference.library all_caps "/src/a.jpg" w_two_sources).2
       !! "/src/a.jpg" = Some n /\
    fs (@process_file Reference.library all_caps "/src/a.jpg" "/out" false false
          w_two_sources).2 !! dest_path = Some n /\
    fs (@process_file Reference.library all_caps "/src/a.jpg" "/out" false false
          w_two_sources).2 !! "/src/a.jpg" = None /\
    (exists before,
       log (@process_file Reference.library all_caps "/src/a.jpg" "/out" false false
              w_two_sources).2
       = (before ++ [(DEBUG, Moving "/src/a.jpg" dest_path)])%list).
Proof.
  apply (@processed_file_is_at_destination Reference.library all_caps "/src/a.jpg" "/out"
           false w_two_sources).
  vm_compute. reflexivity.
Defined.

(** ** X6 *)

(** X6. [process_file] skips a file (returns [None]) exactly when, after
    date resolution and directory creation, the planned path holds an entry
    of the same byte size as the source; only sizes are compared.  The skip
    adds its log line and changes nothing else. *)
Theorem skip_iff_same_size_at_planned_path {lib : Library} (caps : capabilities)
    (file_path dest_root : string) (dry_run copy : bool) (w w' : world) :
  process_file caps file_path dest_root dry_run copy w = (Ok RNone, w') <->
  exists d w1 planned w2 src other,
    get_file_date caps file_path w = (Ok d, w1) /\
    create_destination_path dest_root d file_path w1 = (Ok planned, w2) /\
    fs w2 !! file_path = Some src /\
    fs w2 !! planned = Some other /\
    st_size (node_stat src) = st_size (node_stat other) /\
    w' = logged w2 INFO (SkippingSameSize file_path).
Proof.
  split.
  - intros H.
    destruct (process_file_disposition caps file_path dest_root dry_run copy w)
      as (r & w'' & E & D).
    rewrite E in H. injection H as -> ->.
    inversion D as [| | |d w1 planned w2 src other E1 E2 Hs Hp Hsize
                   |d w1 planned w2 dest_path E1 E2 E3 Hfree Hr Hw]; subst.
    + by exists d, w1, planned, w2, src, other.
    + exfalso. revert Hr. unfold acted.
      destruct dry_run; [done|]. destruct copy.
      * by destruct (fs w2 !! file_path) as [[s|s m]|].
      * by destruct (fs w2 !! file_path) as [n|].
  - intros (d & w1 & planned & w2 & src & other & E1 & E2 & Hs & Hp & Hsize & ->).
    by rewrite (process_file_skips caps _ _ _ _ _ _ _ _ _ _ _ E1 E2 Hs Hp Hsize).
Qed.

(** ** X7 *)

(** X7. A file that is no longer there when [process_file] is called makes
    the call return [False]: [os.path.getmtime] raises, the error is
    logged with the file name, and the filesystem is left as it was (no
    directory is created for it). *)
Theorem missing_source_fails_cleanly {lib : Library} (caps : capabilities)
    (file_path dest_root : string) (dry_run copy : bool) (w : world) :
  fs w !! file_path = None ->
  exists w',
    process_file caps file_path dest_root dry_run copy w = (Ok RFalse, w') /\
    fs w' = fs w /\
    exists before,
      log w' = (before ++ [(ERROR, ErrorProcessing file_path FileNotFoundError)])%list.
Proof.
  intros Hp.
  destruct (get_file_date_missing caps file_path w Hp) as (w1 & E1 & F1).
  unfold process_file. rewrite (try_bind_Raise _ _ _ _ _ _ E1).
  eexists. split; [done|]. split; [done|]. by exists (log w1).
Qed.

Lemma missing_source_fails_cleanly_witness :
  exists w',
    @process_file Reference.library all_caps "/src/gone.jpg" "/out" false false w_one_file
      = (Ok RFalse, w') /\
    fs w' = fs w_one_file /\
    exists before,
      log w' = (before ++ [(ERROR, ErrorProcessing "/src/gone.jpg" FileNotFoundError)])%list.
Proof.
  apply (@missing_source_fails_cleanly Reference.library all_caps "/src/gone.jpg" "/out"
           false false w_one_file).
  reflexivity.
Defined.

(** ** X8 *)

(** X8. A dry run creates nothing but directories: a path that does not
    exist before a run with [--dry-run] and exists after it is a
    directory. *)
Theorem dry_run_only_creates_directories {lib : Library} (caps : capabilities)
    (a : args) (os_walk : list (string * list string)) (w : world)
    (q : string) (n : node) :
  dry_run a = true ->
  fs w !! q = None ->
  fs (main caps a os_walk w).2 !! q = Some n ->
  is_dir n = true.
Proof.
  intros Hdry Hq Hn.
  pose proof (preserves_main_dry_run caps
                (fun w' => forall n, fs w' !! q = Some n -> is_dir n = true)
                a os_walk Hdry) as H.
  eapply H; [| | | |exact Hn].
  - by intros f l e H'.
  - intros f l q' st Hq' H' n'. simpl in *.
    destruct (decide (q' = q)) as [->|Hne].
    + rewrite lookup_insert_eq. by intros [= <-].
    + rewrite lookup_insert_ne by done. apply H'.
  - intros p _ f l s m s' m' Hp H' n'. simpl in *.
    destruct (decide (p = q)) as [->|Hne].
    + specialize (H' _ Hp). done.
    + rewrite lookup_insert_ne by done. apply H'.
  - intros n'. by rewrite Hq.
Qed.

Lemma dry_run_only_creates_directories_witness :
  is_dir (Dir (mk_stat 4096 Reference.epoch)) = true.
Proof.
  apply (@dry_run_only_creates_directories Reference.library all_caps
           (mk_args "/src" "/out" true false false) [("/src", ["a.jpg"])] w_one_file
           "/out/2024").
  - reflexivity.
  - reflexivity.
  - vm_compute. reflexivity.
Defined.

(* ===================================================================== *)
(** * Further properties: the metadata extractors and the resolver *)
(* ===================================================================== *)

(** ** X9 *)

(** X9. The two extractors never raise and never touch the filesystem:
    whatever the backends do, [get_date_taken_from_image] and
    [get_date_taken_from_video] return a date or [None] and leave every
    file as it was. *)
Theorem metadata_extraction_is_read_only {lib : Library} (caps : capabilities)
    (file_path : string) (w : world) :
  (exists r w', get_date_taken_from_image caps file_path w = (Ok r, w') /\ fs w' = fs w) /\
  (exists r w', get_date_taken_from_video caps file_path w = (Ok r, w') /\ fs w' = fs w).
Proof.
  split.
  - destruct (returns_get_date_taken_from_image caps file_path w) as (r & w' & E).
    exists r, w'. split; [done|].
    pose proof (preserves_get_date_taken_from_image caps _ (fs_is_stable (fs w))
                  file_path w eq_refl) as H.
    by rewrite E in H.
  - destruct (returns_get_date_taken_from_video caps file_path w) as (r & w' & E).
    exists r, w'. split; [done|].
    pose proof (preserves_get_date_taken_from_video caps _ (fs_is_stable (fs w))
                  file_path w eq_refl) as H.
    by rewrite E in H.
Qed.

(** ** X10 *)

(** X10. PIL comes first: when PIL is there and the file's
    [DateTimeOriginal] parses, that date is the answer of
    [get_date_taken_from_image] (exifread is not asked, nothing is logged),
    and for a file with an image extension it is the date [get_file_date]
    returns, with the world unchanged. *)
Theorem pil_date_wins {lib : Library} (caps : capabilities)
    (file_path : string) (w : world) (n : node) (value : string) (d : datetime) :
  HAS_PIL caps = true ->
  fs w !! file_path = Some n ->
  pil_exif (node_media n) = TagValue value ->
  strptime value "%Y:%m:%d %H:%M:%S" = Some d ->
  get_date_taken_from_image caps file_path w = (Ok (Some d), w) /\
  (file_ext_of file_path ∈ IMAGE_EXTENSIONS ->
   get_file_date caps file_path w = (Ok d, w)).
Proof.
  intros Hpil Hn Htag Hparse.
  assert (get_date_taken_from_image caps file_path w = (Ok (Some d), w)) as E.
  { unfold get_date_taken_from_image, image_strategy, backend_read, bind, get_fs, ret.
    by rewrite Hpil, Hn, Htag, Hparse. }
  split; [done|]. intros Himg.
  unfold get_file_date, metadata_date. rewrite (bool_decide_eq_true_2 _ Himg).
  by rewrite (bind_Ok _ _ _ _ _ E).
Qed.

Lemma pil_date_wins_witness :
  @get_date_taken_from_image Reference.library all_caps "/src/a.jpg" w_one_file
    = (Ok (Some dt_2024_03_15), w_one_file) /\
  (file_ext_of "/src/a.jpg" ∈ IMAGE_EXTENSIONS ->
   @get_file_date Reference.library all_caps "/src/a.jpg" w_one_file
     = (Ok dt_2024_03_15, w_one_file)).
Proof.
  apply (@pil_date_wins Reference.library all_caps "/src/a.jpg" w_one_file
           (jpeg_with_exif 100 "2024:03:15 10:00:00") "2024:03:15 10:00:00").
  - reflexivity.
  - reflexivity.
  - reflexivity.
  - vm_compute. reflexivity.
Defined.

(** ** X11 *)

(** X11. exifread is the second strategy: when PIL is missing, raises,
    finds no tag or finds one that does not parse, and exifread finds an
    [EXIF DateTimeOriginal] that parses, that date is the answer; the
    filesystem is not touched. *)
Theorem exifread_is_second {lib : Library} (caps : capabilities)
    (file_path : string) (w : world) (n : node) (value : string) (d : datetime) :
  HAS_EXIFREAD caps = true ->
  fs w !! file_path = Some n ->
  (HAS_PIL caps = false \/
   pil_exif (node_media n) = ReadRaises \/
   pil_exif (node_media n) = TagAbsent \/
   exists v0, pil_exif (node_media n) = TagValue v0 /\
              strptime v0 "%Y:%m:%d %H:%M:%S" = None) ->
  exifread_tags (node_media n) = TagValue value ->
  strptime value "%Y:%m:%d %H:%M:%S" = Some d ->
  exists w',
    get_date_taken_from_image caps file_path w = (Ok (Some d), w') /\ fs w' = fs w.
Proof.
  intros Hexif Hn Hpil Htag Hparse.
  assert (forall w0, fs w0 = fs w ->
            image_strategy exifread_tags (ExifreadFailed file_path) file_path w0
            = (Ok (Some d), w0)) as Hsecond.
  { intros w0 H0. unfold image_strategy, backend_read, bind, get_fs, ret.
    by rewrite H0, Hn, Htag, Hparse. }
  unfold get_date_taken_from_image. rewrite Hexif.
  destruct Hpil as [Hpil|Hpil].
  { rewrite Hpil. exists w. split; [|done]. unfold bind at 1, ret at 1. by apply Hsecond. }
  destruct (HAS_PIL caps).
  2:{ exists w. split; [|done]. unfold bind at 1, ret at 1. by apply Hsecond. }
  assert (exists w0, image_strategy pil_exif (PilFailed file_path) file_path w = (Ok None, w0)
                     /\ fs w0 = fs w) as (w0 & E0 & F0).
  { unfold image_strategy, backend_read, bind, get_fs, ret, logger. rewrite Hn.
    destruct Hpil as [->|[->|(v0 & -> & ->)]]; eauto. }
  rewrite (bind_Ok _ _ _ _ _ E0). exists w0. split; [by apply Hsecond | done].
Qed.

Lemma exifread_is_second_witness :
  exists w',
    @get_date_taken_from_image Reference.library all_caps "/src/h.heic" w_mixed
      = (Ok (Some dt_2022_12_24), w') /\ fs w' = fs w_mixed.
Proof.
  apply (@exifread_is_second Reference.library all_caps "/src/h.heic" w_mixed heic_file
           "2022:12:24 18:00:00").
  - reflexivity.
  - reflexivity.
  - right. left. reflexivity.
  - reflexivity.
  - vm_compute. reflexivity.
Defined.

(** ** X12 *)

(** X12. For a video the container comes first: when [ffmpeg.probe]
    answers and [format.tags.creation_time] is a non-empty string that
    parses as ISO 8601 (a trailing [Z] read as [+00:00]), that is the date,
    whatever the streams say; nothing is logged. *)
Theorem container_creation_time_wins {lib : Library} (caps : capabilities)
    (file_path : string) (w : world) (n : node) (probe : probe_info)
    (ct : string) (d : datetime) :
  HAS_FFMPEG caps = true ->
  fs w !! file_path = Some n ->
  ffprobe (node_media n) = Some probe ->
  format_creation_time probe = Some ct ->
  ct <> "" ->
  fromisoformat (PyStr.replace_char "Z" "+00:00" ct) = Some d ->
  get_date_taken_from_video caps file_path w = (Ok (Some d), w).
Proof.
  intros Hff Hn Hprobe Hct Hne Hiso.
  unfold get_date_taken_from_video, bind, get_fs, ret. rewrite Hff, Hn. simpl.
  rewrite Hprobe, Hct. simpl.
  rewrite (bool_decide_eq_false_2 _ Hne). simpl.
  rewrite (bool_decide_eq_false_2 _ Hne). simpl. by rewrite Hiso.
Qed.

Lemma container_creation_time_wins_witness :
  @get_date_taken_from_video Reference.library all_caps "/src/v.mp4" w_mixed
    = (Ok (Some dt_2020_05_20), w_mixed).
Proof.
  apply (@container_creation_time_wins Reference.library all_caps "/src/v.mp4" w_mixed
           mp4_file mp4_probe "2020-05-20T15:30:10.000000Z").
  - reflexivity.
  - reflexivity.
  - reflexivity.
  - reflexivity.
  - discriminate.
  - vm_compute. reflexivity.
Defined.

(** ** X13 *)

(** X13. The streams are the fallback, and only the first tagged one
    counts: when the container has no creation time (or an empty one), the
    date is read from the first stream that has a [creation_time] tag; if
    that tag is empty the answer is [None], whatever later streams
    carry. *)
Theorem first_tagged_stream_is_fallback {lib : Library} (caps : capabilities)
    (file_path : string) (w : world) (n : node) (probe : probe_info)
    (untagged : nat) (ct : string) (later : list (option string)) :
  HAS_FFMPEG caps = true ->
  fs w !! file_path = Some n ->
  ffprobe (node_media n) = Some probe ->
  format_creation_time probe = None \/ format_creation_time probe = Some "" ->
  streams_creation_time probe = (replicate untagged None ++ Some ct :: later)%list ->
  (ct = "" -> get_date_taken_from_video caps file_path w = (Ok None, w)) /\
  (forall d, ct <> "" ->
             fromisoformat (PyStr.replace_char "Z" "+00:00" ct) = Some d ->
             get_date_taken_from_video caps file_path w = (Ok (Some d), w)).
Proof.
  intros Hff Hn Hprobe Hfmt Hstreams.
  assert (first_stream_tag (streams_creation_time probe) = Some ct) as Hfirst.
  { rewrite Hstreams. clear. induction untagged as [|k IH]; [done | exact IH]. }
  assert (negb (str_truthy (format_creation_time probe)) = true) as Hfalsy.
  { by destruct Hfmt as [->| ->]. }
  unfold get_date_taken_from_video, bind, get_fs, ret. rewrite Hff, Hn. simpl.
  rewrite Hprobe. simpl. rewrite Hfalsy, Hfirst. split.
  - intros ->. done.
  - intros d Hne Hiso. simpl. rewrite (bool_decide_eq_false_2 _ Hne). simpl.
    by rewrite Hiso.
Qed.

Lemma first_tagged_stream_is_fallback_witness :
  ("2019-01-01T00:00:00.000000Z" = "" ->
   @get_date_taken_from_video Reference.library all_caps "/src/w.mov" w_mixed
     = (Ok None, w_mixed)) /\
  (forall d, "2019-01-01T00:00:00.000000Z" <> "" ->
             @fromisoformat Reference.library
               (PyStr.replace_char "Z" "+00:00" "2019-01-01T00:00:00.000000Z") = Some d ->
             @get_date_taken_from_video Reference.library all_caps "/src/w.mov" w_mixed
               = (Ok (Some d), w_mixed)).
Proof.
  apply (@first_tagged_stream_is_fallback Reference.library all_caps "/src/w.mov" w_mixed
           mov_file mov_probe 1 "2019-01-01T00:00:00.000000Z"
           [Some "2018-01-01T00:00:00.000000Z"]).
  - reflexivity.
  - reflexivity.
  - reflexivity.
  - left. reflexivity.
  - reflexivity.
Defined.

(** ** X14 *)

(** X14. A creation time that neither parser accepts is logged and treated
    as absent: [get_date_taken_from_video] returns [None] after one error
    line that quotes the value, and [get_file_date] then falls back to the
    modification time: it returns what [datetime.fromtimestamp] makes of
    it, after the log line of the fallback, or raises what that call
    raises. *)
Theorem unparsable_creation_time_is_absent {lib : Library} (caps : capabilities)
    (file_path : string) (w : world) (n : node) (probe : probe_info) (ct : string) :
  HAS_FFMPEG caps = true ->
  fs w !! file_path = Some n ->
  ffprobe (node_media n) = Some probe ->
  format_creation_time probe = Some ct ->
  ct <> "" ->
  fromisoformat (PyStr.replace_char "Z" "+00:00" ct) = None ->
  strptime ct "%Y-%m-%d %H:%M:%S" = None ->
  get_date_taken_from_video caps file_path w
    = (Ok None, logged w ERROR (CouldNotParseCreationTime ct)) /\
  (file_ext_of file_path ∈ VIDEO_EXTENSIONS ->
   get_file_date caps file_path w
   = match fromtimestamp (st_mtime (node_stat n)) with
     | inr d =>
         (Ok d, logged (logged w ERROR (CouldNotParseCreationTime ct))
                       INFO (NoMetadataDate file_path d))
     | inl e => (Raise e, logged w ERROR (CouldNotParseCreationTime ct))
     end).
Proof.
  intros Hff Hn Hprobe Hct Hne Hiso Hstr.
  assert (get_date_taken_from_video caps file_path w
          = (Ok None, logged w ERROR (CouldNotParseCreationTime ct))) as E.
  { unfold get_date_taken_from_video, bind, get_fs, ret, logger, logged.
    rewrite Hff, Hn. simpl. rewrite Hprobe, Hct. simpl.
    rewrite (bool_decide_eq_false_2 _ Hne). simpl.
    rewrite (bool_decide_eq_false_2 _ Hne). simpl. by rewrite Hiso, Hstr. }
  split; [done|]. intros Hvid.
  unfold get_file_date, metadata_date.
  rewrite (video_not_image _ Hvid), (bool_decide_eq_true_2 _ Hvid).
  rewrite (bind_Ok _ _ _ _ _ E).
  rewrite (bind_Ok _ _ _ (node_stat n) (logged w ERROR (CouldNotParseCreationTime ct)))
    by (by apply os_stat_Some).
  by destruct (fromtimestamp (st_mtime (node_stat n))).
Qed.

Lemma unparsable_creation_time_is_absent_witness :
  @get_date_taken_from_video Reference.library all_caps "/src/x.avi" w_mixed
    = (Ok None, logged w_mixed ERROR (CouldNotParseCreationTime "yesterday")) /\
  (file_ext_of "/src/x.avi" ∈ VIDEO_EXTENSIONS ->
   @get_file_date Reference.library all_caps "/src/x.avi" w_mixed
   = (Ok dt_mtime,
      logged (logged w_mixed ERROR (CouldNotParseCreationTime "yesterday"))
             INFO (NoMetadataDate "/src/x.avi" dt_mtime))).
Proof.
  apply (@unparsable_creation_time_is_absent Reference.library all_caps "/src/x.avi"
           w_mixed avi_file (mk_probe (Some "yesterday") []) "yesterday").
  - reflexivity.
  - reflexivity.
  - reflexivity.
  - reflexivity.
  - discriminate.
  - vm_compute. reflexivity.
  - vm_compute. reflexivity.
Defined.

(** ** X15 *)

Lemma add_date_to_exif_no_write {lib : Library} (caps : capabilities)
    (P : world -> Prop) (file_path : string) (d : datetime) :
  log_stable P ->
  (PyStr.endswith ".jpg" (PyStr.lower file_path)
   || PyStr.endswith ".jpeg" (PyStr.lower file_path) = false
   \/ HAS_PIL caps = false \/ HAS_PIEXIF caps = false) ->
  preserves P (add_date_to_exif caps file_path d).
Proof.
  intros HP Hno. unfold add_date_to_exif.
  destruct (negb (HAS_PIL caps) || negb (HAS_PIEXIF caps)) eqn:Hcaps;
    [apply preserves_ret|].
  destruct Hno as [Hjpg|[Hpil|Hpiexif]].
  - rewrite Hjpg. simpl. monad_solve.
  - rewrite Hpil in Hcaps. done.
  - rewrite Hpiexif, orb_true_r in Hcaps. done.
Qed.

(** X15. The resolver rewrites JPEG files only, and only with PIL and
    piexif present: for a path that does not end in [.jpg] or [.jpeg]
    (case ignored), or without one of the two backends, or with an
    extension that is not an image extension, [get_file_date] leaves the
    filesystem exactly as it was. *)
Theorem resolver_rewrites_only_jpeg {lib : Library} (caps : capabilities)
    (file_path : string) (w : world) :
  PyStr.endswith ".jpg" (PyStr.lower file_path)
  || PyStr.endswith ".jpeg" (PyStr.lower file_path) = false
  \/ HAS_PIL caps = false \/ HAS_PIEXIF caps = false
  \/ file_ext_of file_path ∉ IMAGE_EXTENSIONS ->
  fs (get_file_date caps file_path w).2 = fs w.
Proof.
  intros Hno.
  pose proof (fs_is_stable (fs w)) as Hs.
  assert (preserves (fun w' => fs w' = fs w) (get_file_date caps file_path)) as H;
    [|by apply H].
  unfold get_file_date.
  destruct Hno as [Hjpg|[Hpil|[Hpiexif|Hext]]].
  - pose proof (fun d => add_date_to_exif_no_write caps (fun w' => fs w' = fs w)
                            file_path d Hs (or_introl Hjpg)) as Hadd.
    monad_solve.
  - pose proof (fun d => add_date_to_exif_no_write caps (fun w' => fs w' = fs w)
                            file_path d Hs (or_intror (or_introl Hpil))) as Hadd.
    monad_solve.
  - pose proof (fun d => add_date_to_exif_no_write caps (fun w' => fs w' = fs w)
                            file_path d Hs (or_intror (or_intror Hpiexif))) as Hadd.
    monad_solve.
  - rewrite (bool_decide_eq_false_2 _ Hext). simpl. monad_solve.
Qed.

Lemma resolver_rewrites_only_jpeg_witness :
  fs (@get_file_date Reference.library all_caps "/src/c.png" w_mixed).2 = fs w_mixed.
Proof.
  apply (@resolver_rewrites_only_jpeg Reference.library all_caps "/src/c.png" w_mixed).
  left. reflexivity.
Defined.

(** ** X16 *)

(** X16. [add_date_to_exif] never raises, and its result tells whether it
    wrote: [True] means the path is a regular file whose name ends in
    [.jpg] or [.jpeg] and that [piexif] rewrote, nothing else changed;
    [False] means the filesystem is untouched (a backend is missing, the
    name is not a JPEG name, or an exception was caught and logged). *)
Theorem add_date_to_exif_reports_the_write {lib : Library} (caps : capabilities)
    (file_path : string) (d : datetime) (w : world) :
  exists b w',
    add_date_to_exif caps file_path d w = (Ok b, w') /\
    (b = true ->
     HAS_PIL caps = true /\ HAS_PIEXIF caps = true /\
     PyStr.endswith ".jpg" (PyStr.lower file_path)
     || PyStr.endswith ".jpeg" (PyStr.lower file_path) = true /\
     exists s m s' m',
       fs w !! file_path = Some (File s m) /\
       piexif_insert_dates (strftime d "%Y:%m:%d %H:%M:%S") s m = Some (s', m') /\
       w' = mk_world (<[file_path := File s' m']> (fs w)) (log w)) /\
    (b = false -> fs w' = fs w).
Proof.
  unfold add_date_to_exif.
  destruct (HAS_PIL caps), (HAS_PIEXIF caps); simpl;
    try (exists false, w; split; [done|]; split; [done|done]).
  destruct (PyStr.endswith ".jpg" (PyStr.lower file_path)
            || PyStr.endswith ".jpeg" (PyStr.lower file_path)) eqn:Hjpg; simpl.
  2:{ exists false, w. split; [done|]. by split. }
  unfold try_except, bind, get_fs, put_fs, ret, raise, logger.
  destruct (fs w !! file_path) as [[s|s m]|] eqn:Hp; simpl.
  - eexists false, _. split; [done|]. by split.
  - destruct (piexif_insert_dates _ s m) as [[s' m']|] eqn:Hins; simpl.
    + eexists true, _. split; [done|]. split; [|done]. intros _.
      repeat split; try done. by exists s, m, s', m'.
    + eexists false, _. split; [done|]. by split.
  - eexists false, _. split; [done|]. by split.
Qed.

(* ===================================================================== *)
(** * Further properties: the planned directory *)
(* ===================================================================== *)

Lemma dir_chain_last (acc s : string) :
  acc +:+ s <> "" -> PyStr.endswith "/" (acc +:+ s) = false ->
  acc +:+ s ∈ OsPath.dir_chain acc s.
Proof.
  revert acc. induction s as [|c s IH]; intros acc Hne Hend.
  - rewrite app_empty_r in *. simpl.
    rewrite Hend, orb_false_r, (bool_decide_eq_false_2 _ Hne). by left.
  - assert (acc +:+ String c s = (acc +:+ String c "") +:+ s) as Heq
      by (by rewrite app_assoc_str).
    simpl. destruct (Ascii.eqb c OsPath.sep) eqn:Ec.
    + apply Ascii.eqb_eq in Ec as ->. apply elem_of_app. right.
      rewrite Heq in *. by apply IH.
    + rewrite Heq in *. by apply IH.
Qed.

Lemma planned_dir_shape (dest_root : string) (d : datetime) :
  spec_planned_dir dest_root d <> "" /\
  PyStr.endswith "/" (spec_planned_dir dest_root d) = false.
Proof.
  destruct (datetime_ranges d) as [Hy Hm].
  destruct (month_facts _ Hm) as (_ & _ & Hms & Hme & Hmn).
  unfold spec_planned_dir. split.
  - by do 3 apply app_nonempty.
  - rewrite endswith_sep_app by (by apply app_nonempty).
    rewrite endswith_sep_app by (by apply app_nonempty).
    by rewrite endswith_sep_app.
Qed.

Lemma planned_dir_in_chain (dest_root : string) (d : datetime) :
  spec_planned_dir dest_root d ∈ OsPath.dir_chain "" (spec_planned_dir dest_root d).
Proof.
  destruct (planned_dir_shape dest_root d) as [Hne Hend].
  exact (dir_chain_last "" _ Hne Hend).
Qed.

Lemma makedirs_chain_keeps (st : stat) (chain : list string) (f : gmap string node)
    (p : string) (n : node) :
  f !! p = Some n -> (makedirs_chain st chain f).2 !! p = Some n.
Proof.
  intros H.
  exact (makedirs_chain_stable (fun w => fs w !! p = Some n) st chain f []
           (lookup_is_mkdir_stable p n) H).
Qed.

(** After a successful [makedirs] every directory of the chain exists. *)
Lemma makedirs_chain_makes (st : stat) (chain : list string) (f : gmap string node)
    (p : string) :
  (makedirs_chain st chain f).1 = None -> p ∈ chain ->
  exists s, (makedirs_chain st chain f).2 !! p = Some (Dir s).
Proof.
  revert f. induction chain as [|x rest IH]; intros f Hok Hp; [by apply elem_of_nil in Hp|].
  simpl in *. apply elem_of_cons in Hp.
  destruct (f !! x) as [[s|s m]|] eqn:Hx; [| done |].
  - destruct Hp as [->|Hp]; [|by apply IH].
    exists s. by apply makedirs_chain_keeps.
  - destruct Hp as [->|Hp]; [|by apply IH].
    exists st. apply makedirs_chain_keeps. apply lookup_insert_eq.
Qed.

(** On directories that are all there [makedirs] does nothing. *)
Lemma makedirs_chain_again (st : stat) (chain : list string) (f : gmap string node) :
  (forall p, p ∈ chain -> exists s, f !! p = Some (Dir s)) ->
  makedirs_chain st chain f = (None, f).
Proof.
  induction chain as [|x rest IH]; intros H; [done|].
  simpl. destruct (H x ltac:(left)) as [s ->]. apply IH. intros p Hp. apply H. by right.
Qed.

(** A regular file on the chain stops [makedirs]. *)
Lemma makedirs_chain_blocked (st : stat) (chain : list string) (f : gmap string node)
    (p : string) (s : stat) (m : media) :
  p ∈ chain -> f !! p = Some (File s m) ->
  exists e, (makedirs_chain st chain f).1 = Some e.
Proof.
  revert f. induction chain as [|x rest IH]; intros f Hp Hf; [by apply elem_of_nil in Hp|].
  simpl. apply elem_of_cons in Hp.
  destruct (f !! x) as [[s0|s0 m0]|] eqn:Hx; [| by eauto |].
  - destruct Hp as [->|Hp]; [congruence | by apply IH].
  - destruct Hp as [->|Hp]; [congruence|]. apply IH; [done|].
    rewrite lookup_insert_ne; [done|]. intros ->. congruence.
Qed.

(** ** X17 *)

(** X17. When [create_destination_path] returns, the planned directory
    exists and is a directory, the returned path lies directly in it, every
    regular file is as it was and every directory is still a directory;
    calling it again in the world it left returns the same path and changes
    nothing (the directory creation is idempotent). *)
Theorem planned_directory_exists_afterwards {lib : Library}
    (dest_root : string) (d : datetime) (file_path : string) (w w' : world)
    (path : string) :
  create_destination_path dest_root d file_path w = (Ok path, w') ->
  (exists s, fs w' !! spec_planned_dir dest_root d = Some (Dir s)) /\
  path = spec_planned_dir dest_root d +:+ "/" +:+ OsPath.basename file_path /\
  (forall q s m, fs w !! q = Some (File s m) -> fs w' !! q = Some (File s m)) /\
  (forall q s, fs w !! q = Some (Dir s) -> exists s', fs w' !! q = Some (Dir s')) /\
  log w' = log w /\
  create_destination_path dest_root d file_path w' = (Ok path, w').
Proof.
  rewrite !create_destination_path_spec. unfold bind, os_makedirs, ret.
  destruct (makedirs_chain mkdir_stat
              (OsPath.dir_chain "" (spec_planned_dir dest_root d)) (fs w))
    as [[e|] f'] eqn:E; [done|].
  intros [= <- <-]. cbn [fs log].
  assert (forall p, p ∈ OsPath.dir_chain "" (spec_planned_dir dest_root d) ->
            exists s, f' !! p = Some (Dir s)) as Hall.
  { intros p Hp.
    pose proof (makedirs_chain_makes mkdir_stat
                  (OsPath.dir_chain "" (spec_planned_dir dest_root d)) (fs w) p) as H.
    rewrite E in H. by apply H. }
  assert (forall q n, fs w !! q = Some n -> f' !! q = Some n) as Hkeep.
  { intros q n Hq.
    pose proof (makedirs_chain_keeps mkdir_stat
                  (OsPath.dir_chain "" (spec_planned_dir dest_root d)) (fs w) q n Hq) as H.
    by rewrite E in H. }
  split; [apply Hall, planned_dir_in_chain|]. split; [done|].
  split; [intros q s m; apply Hkeep|].
  split; [intros q s Hq; exists s; by apply Hkeep|].
  split; [done|]. by rewrite (makedirs_chain_again _ _ _ Hall).
Qed.

Lemma planned_directory_exists_afterwards_witness :
  (exists s, fs (@create_destination_path Reference.library "/out" dt_2024_03_15
                   "/src/a.jpg" w_one_file).2
             !! spec_planned_dir "/out" dt_2024_03_15 = Some (Dir s)) /\
  "/out/2024/03 - Mar/a.jpg"
    = spec_planned_dir "/out" dt_2024_03_15 +:+ "/" +:+ OsPath.basename "/src/a.jpg" /\
  (forall q s m,
     fs w_one_file !! q = Some (File s m) ->
     fs (@create_destination_path Reference.library "/out" dt_2024_03_15
           "/src/a.jpg" w_one_file).2 !! q = Some (File s m)) /\
  (forall q s,
     fs w_one_file !! q = Some (Dir s) ->
     exists s', fs (@create_destination_path Reference.library "/out" dt_2024_03_15
                      "/src/a.jpg" w_one_file).2 !! q = Some (Dir s')) /\
  log (@create_destination_path Reference.library "/out" dt_2024_03_15
         "/src/a.jpg" w_one_file).2 = log w_one_file /\
  @create_destination_path Reference.library "/out" dt_2024_03_15 "/src/a.jpg"
    (@create_destination_path Reference.library "/out" dt_2024_03_15
       "/src/a.jpg" w_one_file).2
  = (Ok "/out/2024/03 - Mar/a.jpg",
     (@create_destination_path Reference.library "/out" dt_2024_03_15
        "/src/a.jpg" w_one_file).2).
Proof.
  apply (@planned_directory_exists_afterwards Reference.library "/out" dt_2024_03_15
           "/src/a.jpg" w_one_file).
  vm_compute. reflexivity.
Defined.

(** ** X18 *)

(** X18. A regular file where the planned month directory should be stops
    the planner: [create_destination_path] raises ([FileExistsError], or
    [NotADirectoryError] when a file sits higher up), every existing entry
    stays as it is, and [process_file] returns [False] for a file that
    resolves to that month. *)
Theorem file_in_the_way_fails {lib : Library} (caps : capabilities)
    (dest_root : string) (d : datetime) (file_path : string) (w : world)
    (s : stat) (m : media) :
  fs w !! spec_planned_dir dest_root d = Some (File s m) ->
  (exists e w',
     create_destination_path dest_root d file_path w = (Raise e, w') /\
     (e = FileExistsError \/ e = NotADirectoryError) /\
     forall q n, fs w !! q = Some n -> fs w' !! q = Some n) /\
  (forall dry_run copy w0,
     get_file_date caps file_path w0 = (Ok d, w) ->
     (process_file caps file_path dest_root dry_run copy w0).1 = Ok RFalse).
Proof.
  intros Hfile.
  assert (exists e w',
            create_destination_path dest_root d file_path w = (Raise e, w') /\
            (e = FileExistsError \/ e = NotADirectoryError) /\
            forall q n, fs w !! q = Some n -> fs w' !! q = Some n) as Hraise.
  { rewrite create_destination_path_spec. unfold bind, os_makedirs.
    destruct (makedirs_chain_blocked mkdir_stat _ (fs w) _ s m
                (planned_dir_in_chain dest_root d) Hfile) as [e He].
    pose proof (makedirs_chain_exn mkdir_stat
                  (OsPath.dir_chain "" (spec_planned_dir dest_root d)) (fs w) e He) as Hexn.
    pose proof (fun q n => makedirs_chain_keeps mkdir_stat
                  (OsPath.dir_chain "" (spec_planned_dir dest_root d)) (fs w) q n) as Hkeep.
    destruct (makedirs_chain _ _ _) as [o f']. simpl in He. subst o.
    eexists e, _. split; [done|]. split; [done|]. exact Hkeep. }
  split; [done|].
  intros dry_run copy w0 E1. destruct Hraise as (e & w' & E2 & _).
  unfold process_file.
  by rewrite (try_bind_Ok _ _ _ _ _ _ E1), (try_bind_Raise _ _ _ _ _ _ E2).
Qed.

Lemma file_in_the_way_fails_witness :
  (exists e w',
     @create_destination_path Reference.library "/out" dt_2024_03_15 "/src/a.jpg" w_blocked
       = (Raise e, w') /\
     (e = FileExistsError \/ e = NotADirectoryError) /\
     forall q n, fs w_blocked !! q = Some n -> fs w' !! q = Some n) /\
  (forall dry_run copy w0,
     @get_file_date Reference.library all_caps "/src/a.jpg" w0 = (Ok dt_2024_03_15, w_blocked) ->
     (@process_file Reference.library all_caps "/src/a.jpg" "/out" dry_run copy w0).1
     = Ok RFalse).
Proof.
  apply (@file_in_the_way_fails Reference.library all_caps "/out" dt_2024_03_15
           "/src/a.jpg" w_blocked (mk_stat 1 Reference.epoch)
           (mk_media TagAbsent TagAbsent None)).
  vm_compute. reflexivity.
Defined.

(* ===================================================================== *)
(** * Further properties: the driver and the command line *)
(* ===================================================================== *)

Section Counting.

Context {lib : Library}.
Variable caps : capabilities.

(** The inner loop counts the non-media names as skipped and every other
    name as a success or an error. *)
Lemma for_files_counts root files dest_root dry_run copy c w :
  exists c' w',
    for_files caps root files dest_root dry_run copy c w = (Ok c', w') /\
    skipped_count c' = (skipped_count c + length (other_names files))%nat /\
    (success_count c' + error_count c'
     = success_count c + error_count c + length (media_names files))%nat.
Proof.
  revert c w. induction files as [|filename rest IH]; intros c w.
  { exists c, w. split; [done|]. simpl. lia. }
  unfold other_names, media_names, is_media_name in *. simpl.
  destruct (decide (file_ext_of filename ∈ MEDIA_EXTENSIONS)) as [H|H].
  - destruct (for_files_media caps root filename rest dest_root dry_run copy c w H)
      as (r & w1 & _ & E).
    simpl in E. rewrite E.
    destruct (IH (counted r c) w1) as (c' & w' & -> & Hk & Hs).
    exists c', w'. split; [done|].
    rewrite (bool_decide_eq_true_2 _ H). simpl.
    rewrite Hk, Hs. unfold counted. destruct (truthy r); simpl; lia.
  - pose proof (for_files_non_media caps root filename rest dest_root dry_run copy c w H)
      as E.
    simpl in E. rewrite E.
    destruct (IH (mk_counts (success_count c) (error_count c) (S (skipped_count c)))
                 (mk_world (fs w)
                    (log w ++ [(INFO, SkippingNonMedia (OsPath.join root filename))])%list))
      as (c' & w' & -> & Hk & Hs).
    exists c', w'. split; [done|].
    rewrite (bool_decide_eq_false_2 _ H). simpl. rewrite Hk, Hs. simpl. lia.
Qed.

Lemma for_walk_counts os_walk dest_root dry_run copy c w :
  exists c' w',
    for_walk caps os_walk dest_root dry_run copy c w = (Ok c', w') /\
    skipped_count c' = (skipped_count c + length (other_names (walked_names os_walk)))%nat /\
    (success_count c' + error_count c'
     = success_count c + error_count c + length (media_names (walked_names os_walk)))%nat.
Proof.
  revert c w. induction os_walk as [|[root files] rest IH]; intros c w.
  { exists c, w. split; [done|]. simpl. lia. }
  destruct (for_files_counts root files dest_root dry_run copy c w)
    as (c1 & w1 & E1 & Hk1 & Hs1).
  destruct (IH c1 w1) as (c' & w' & E & Hk & Hs).
  exists c', w'. split.
  - simpl. by rewrite (bind_Ok _ _ _ _ _ E1).
  - unfold walked_names, other_names, media_names in *. rewrite fmap_cons. simpl.
    rewrite !List.filter_app, !length_app. lia.
Qed.

(** A loop over names that are not media names only logs. *)
Lemma for_files_other_names root files dest_root dry_run copy c w :
  media_names files = [] ->
  exists w',
    for_files caps root files dest_root dry_run copy c w
    = (Ok (mk_counts (success_count c) (error_count c)
                     (skipped_count c + length files)), w') /\
    fs w' = fs w.
Proof.
  revert c w. induction files as [|filename rest IH]; intros c w Hnone.
  { exists w. split; [|done]. destruct c. unfold ret. simpl. by rewrite Nat.add_0_r. }
  unfold media_names, is_media_name in Hnone. simpl in Hnone.
  destruct (decide (file_ext_of filename ∈ MEDIA_EXTENSIONS)) as [H|H].
  { by rewrite (bool_decide_eq_true_2 _ H) in Hnone. }
  rewrite (bool_decide_eq_false_2 _ H) in Hnone.
  pose proof (for_files_non_media caps root filename rest dest_root dry_run copy c w H) as E.
  rewrite E.
  destruct (IH (mk_counts (success_count c) (error_count c) (S (skipped_count c)))
               (mk_world (fs w)
                  (log w ++ [(INFO, SkippingNonMedia (OsPath.join root filename))])%list)
               Hnone) as (w' & -> & Hfs).
  exists w'. split; [|done]. simpl. do 3 f_equal. lia.
Qed.

Lemma for_walk_other_names os_walk dest_root dry_run copy c w :
  media_names (walked_names os_walk) = [] ->
  exists w',
    for_walk caps os_walk dest_root dry_run copy c w
    = (Ok (mk_counts (success_count c) (error_count c)
                     (skipped_count c + length (walked_names os_walk))), w') /\
    fs w' = fs w.
Proof.
  revert c w. induction os_walk as [|[root files] rest IH]; intros c w Hnone.
  { exists w. split; [|done]. destruct c. unfold ret. simpl. by rewrite Nat.add_0_r. }
  unfold walked_names, media_names in Hnone. rewrite fmap_cons in Hnone. simpl in Hnone.
  rewrite List.filter_app in Hnone. apply app_eq_nil in Hnone as [Hfiles Hrest].
  destruct (for_files_other_names root files dest_root dry_run copy c w Hfiles)
    as (w1 & E1 & F1).
  destruct (IH (mk_counts (success_count c) (error_count c)
                          (skipped_count c + length files)) w1 Hrest) as (w' & E & F).
  exists w'. split; [|by rewrite F, F1].
  simpl. rewrite (bind_Ok _ _ _ _ _ E1), E. simpl.
  unfold walked_names. rewrite fmap_cons. simpl. rewrite length_app.
  do 3 f_equal. lia.
Qed.

End Counting.

(** *** The lines a computation adds to the log. *)

Section Adds.

Context {A B : Type}.
Variable Q : level * message -> bool.

Lemma adds_quiet (m : M A) : (forall w, log (m w).2 = log w) -> adds Q m.
Proof. intros H w. exists []. by rewrite H, app_nil_r. Qed.

Lemma adds_ret (a : A) : adds Q (ret a).
Proof. by apply adds_quiet. Qed.

Lemma adds_raise (e : exn) : adds Q (raise (A := A) e).
Proof. by apply adds_quiet. Qed.

Lemma adds_bind (m : M A) (k : A -> M B) :
  adds Q m -> (forall a, adds Q (k a)) -> adds Q (bind m k).
Proof.
  intros Hm Hk w. unfold bind. destruct (Hm w) as (l1 & E1 & Q1).
  destruct (m w) as [[a|e|] w1]; simpl in *; [|by exists l1..].
  destruct (Hk a w1) as (l2 & E2 & Q2). exists (l1 ++ l2)%list.
  rewrite E2, E1, <- app_assoc. split; [done|]. by apply Forall_app.
Qed.

Lemma adds_try_except (m : M A) (h : exn -> M A) :
  adds Q m -> (forall e, adds Q (h e)) -> adds Q (try_except m h).
Proof.
  intros Hm Hh w. unfold try_except. destruct (Hm w) as (l1 & E1 & Q1).
  destruct (m w) as [[a|e|] w1]; simpl in *; [by exists l1| |by exists l1].
  destruct (Hh e w1) as (l2 & E2 & Q2). exists (l1 ++ l2)%list.
  rewrite E2, E1, <- app_assoc. split; [done|]. by apply Forall_app.
Qed.

End Adds.

Lemma adds_logger Q l msg : Q (l, msg) = true -> adds Q (logger l msg).
Proof. intros H w. exists [(l, msg)]. split; [done|]. by constructor. Qed.

Lemma adds_get_fs Q : adds Q get_fs.
Proof. by apply adds_quiet. Qed.

Lemma adds_put_fs Q f : adds Q (put_fs f).
Proof. by apply adds_quiet. Qed.

Lemma adds_os_makedirs {lib : Library} Q name : adds Q (os_makedirs name).
Proof.
  apply adds_quiet. intros w. unfold os_makedirs.
  by destruct (makedirs_chain _ _ _) as [[e|] f'].
Qed.

Lemma adds_while_exists Q base ext dest_path : adds Q (while_exists base ext dest_path).
Proof.
  apply adds_quiet. intros w. unfold while_exists.
  by destruct (rename_loop _ _ _ _ _ _) as [[? ?]|].
Qed.

Ltac adds_step :=
  match goal with
  | |- adds _ (bind _ _) => apply adds_bind; [|intros ?]
  | |- adds _ (try_except _ _) => apply adds_try_except; [|intros ?]
  | |- adds _ (ret _) => apply adds_ret
  | |- adds _ (raise _) => apply adds_raise
  | |- adds _ (logger _ _) => apply adds_logger; reflexivity
  | |- adds _ get_fs => apply adds_get_fs
  | |- adds _ (put_fs _) => apply adds_put_fs
  | |- adds _ (os_makedirs _) => apply adds_os_makedirs
  | |- adds _ (while_exists _ _ _) => apply adds_while_exists
  | |- adds _ (if ?b then _ else _) => destruct b
  | |- adds _ (match ?x with _ => _ end) => destruct x
  end.

Ltac adds_solve := repeat adds_step.

Section Uneventful.

Context {lib : Library}.
Variable caps : capabilities.

(** Date resolution logs no line about a failed or a skipped file. *)
Lemma adds_get_file_date p : adds uneventful (get_file_date caps p).
Proof.
  unfold get_file_date, metadata_date, get_date_taken_from_image,
    get_date_taken_from_video, image_strategy, backend_read, add_date_to_exif, os_stat.
  adds_solve.
Qed.

Lemma adds_create_destination_path dest_root d p :
  adds uneventful (create_destination_path dest_root d p).
Proof. unfold create_destination_path. adds_solve. Qed.


(** A call of [process_file] that returns [True] has logged no failure
    and no skip. *)
Lemma process_file_True_uneventful file_path dest_root dry_run copy w w' :
  process_file caps file_path dest_root dry_run copy w = (Ok RTrue, w') ->
  exists l, log w' = (log w ++ l)%list /\ Forall (fun e => uneventful e = true) l.
Proof.
  intros H.
  destruct (process_file_disposition caps file_path dest_root dry_run copy w)
    as (r & w'' & E & D).
  rewrite E in H. injection H as -> ->.
  inversion D as [| | | |d w1 planned w2 dest_path E1 E2 E3 Hfree Hr Hw]; subst.
  destruct (adds_get_file_date file_path w) as (l1 & L1 & Q1). rewrite E1 in L1.
  destruct (adds_create_destination_path dest_root d file_path w1) as (l2 & L2 & Q2).
  rewrite E2 in L2. simpl in L1, L2.
  assert (exists line, log (acted file_path dest_path dry_run copy w2).2
                       = (log w2 ++ [line])%list /\ uneventful line = true)
    as (line & L3 & Q3).
  { revert Hr. unfold acted, logged. destruct dry_run; [by eexists|].
    destruct copy.
    - destruct (fs w2 !! file_path) as [[?|? ?]|]; cbn [fst snd fs log]; try done.
      by eexists.
    - destruct (fs w2 !! file_path) as [?|]; cbn [fst snd fs log]; try done.
      by eexists. }
  exists (l1 ++ l2 ++ [line])%list. rewrite L3, L2, L1, <- !app_assoc. split; [done|].
  rewrite !Forall_app. repeat split; try done. by constructor.
Qed.

Lemma truthy_True (r : pyresult) : truthy r = true -> r = RTrue.
Proof. by destruct r. Qed.

(** [process_file] only appends to the log. *)
Lemma adds_process_file file_path dest_root dry_run copy :
  adds (fun _ => true) (process_file caps file_path dest_root dry_run copy).
Proof.
  unfold process_file, get_file_date, metadata_date, get_date_taken_from_image,
    get_date_taken_from_video, image_strategy, backend_read, add_date_to_exif,
    create_destination_path, handle_conflict, same_size_exists, os_path_exists,
    os_path_getsize, os_stat, shutil_copy2, shutil_move.
  adds_solve.
Qed.

(** A loop that ends with the error count it started with has logged no
    failure and no skip: every media file it met was processed. *)
Lemma for_files_uneventful root files dest_root dry_run copy c w :
  exists c' w' l,
    for_files caps root files dest_root dry_run copy c w = (Ok c', w') /\
    log w' = (log w ++ l)%list /\
    (error_count c <= error_count c')%nat /\
    (error_count c' = error_count c -> Forall (fun e => uneventful e = true) l).
Proof.
  revert c w. induction files as [|filename rest IH]; intros c w.
  { exists c, w, []. rewrite app_nil_r. repeat split; try done. }
  destruct (decide (file_ext_of filename ∈ MEDIA_EXTENSIONS)) as [H|H].
  - destruct (for_files_media caps root filename rest dest_root dry_run copy c w H)
      as (r & w1 & Er & ->).
    destruct (adds_process_file (OsPath.join root filename) dest_root dry_run copy w)
      as (l0 & L0 & _).
    rewrite Er in L0. simpl in L0.
    destruct (IH (counted r c) w1) as (c' & w' & l & -> & L & Hle & Hq).
    exists c', w', (l0 ++ l)%list. split; [done|].
    split; [by rewrite L, L0, <- app_assoc|].
    assert (error_count c <= error_count (counted r c))%nat as Hc.
    { unfold counted. destruct (truthy r); simpl; lia. }
    split; [lia|]. intros Heq.
    assert (truthy r = true) as Ht.
    { revert Hle Heq. unfold counted. destruct (truthy r); simpl; [done | lia]. }
    apply truthy_True in Ht. subst r.
    destruct (process_file_True_uneventful _ _ _ _ _ _ Er) as (l0' & L0' & Q0).
    rewrite L0 in L0'. apply app_inv_head in L0'. subst l0'.
    apply Forall_app. split; [done|]. apply Hq.
    revert Hle Heq. unfold counted. simpl. lia.
  - rewrite (for_files_non_media caps root filename rest dest_root dry_run copy c w H).
    destruct (IH (mk_counts (success_count c) (error_count c) (S (skipped_count c)))
                 (mk_world (fs w)
                    (log w ++ [(INFO, SkippingNonMedia (OsPath.join root filename))])%list))
      as (c' & w' & l & -> & L & Hle & Hq).
    exists c', w', ((INFO, SkippingNonMedia (OsPath.join root filename)) :: l).
    split; [done|]. split; [by rewrite L; simpl; rewrite <- app_assoc|].
    split; [done|]. intros Heq. constructor; [done|]. by apply Hq.
Qed.

Lemma for_walk_uneventful os_walk dest_root dry_run copy c w :
  exists c' w' l,
    for_walk caps os_walk dest_root dry_run copy c w = (Ok c', w') /\
    log w' = (log w ++ l)%list /\
    (error_count c <= error_count c')%nat /\
    (error_count c' = error_count c -> Forall (fun e => uneventful e = true) l).
Proof.
  revert c w. induction os_walk as [|[root files] rest IH]; intros c w.
  { exists c, w, []. rewrite app_nil_r. repeat split; try done. }
  destruct (for_files_uneventful root files dest_root dry_run copy c w)
    as (c1 & w1 & l1 & E1 & L1 & Hle1 & Hq1).
  destruct (IH c1 w1) as (c' & w' & l & E & L & Hle & Hq).
  exists c', w', (l1 ++ l)%list. split.
  { simpl. by rewrite (bind_Ok _ _ _ _ _ E1). }
  split; [by rewrite L, L1, <- app_assoc|]. split; [lia|].
  intros Heq. apply Forall_app. split; [apply Hq1 | apply Hq]; lia.
Qed.

End Uneventful.

(** What [process_directory] returns and logs once it is past the test of
    its two paths. *)
Lemma process_directory_counts {lib : Library} (caps : capabilities)
    (os_walk : list (string * list string)) (source_dir dest_root : string)
    (dry_run copy : bool) (w : world) :
  abspath source_dir <> abspath dest_root ->
  exists s e w1 l,
    process_directory caps os_walk source_dir dest_root dry_run copy w
      = (Ok ((0 <? s)%nat && (e =? 0)%nat),
         mk_world (fs w1)
           (log w1 ++ [(INFO, ProcessingComplete s e
                                (length (other_names (walked_names os_walk))))])%list) /\
    (s + e)%nat = length (media_names (walked_names os_walk)) /\
    log w1 = (log w ++ l)%list /\
    (e = 0%nat -> Forall (fun e => uneventful e = true) l).
Proof.
  intros Hne.
  destruct (for_walk_counts caps os_walk (abspath dest_root) dry_run copy
              (mk_counts 0 0 0) w) as (c & w1 & E & Hk & Hs).
  destruct (for_walk_uneventful caps os_walk (abspath dest_root) dry_run copy
              (mk_counts 0 0 0) w) as (c2 & w2 & l & E2 & L & _ & Hq).
  rewrite E in E2. injection E2 as <- <-.
  exists (success_count c), (error_count c), w1, l. split; [|by repeat split].
  unfold process_directory. rewrite (bool_decide_eq_false_2 _ Hne).
  rewrite (bind_Ok _ _ _ _ _ E). simpl in Hk. by rewrite <- Hk.
Qed.

(** ** X19 *)

(** X19. [process_directory] counts every name of the walk exactly once:
    the names whose lower-cased extension is not a media extension make up
    [skipped_count], all the others are counted as a success or as an
    error, whatever happened to the files before them; the three counts
    are the last log line and the verdict is read off them. *)
Theorem every_walked_file_is_counted {lib : Library} (caps : capabilities)
    (os_walk : list (string * list string)) (source_dir dest_root : string)
    (dry_run copy : bool) (w : world) :
  abspath source_dir <> abspath dest_root ->
  exists s e k w' before,
    process_directory caps os_walk source_dir dest_root dry_run copy w
      = (Ok ((0 <? s)%nat && (e =? 0)%nat), w') /\
    log w' = (before ++ [(INFO, ProcessingComplete s e k)])%list /\
    k = length (other_names (walked_names os_walk)) /\
    (s + e)%nat = length (media_names (walked_names os_walk)).
Proof.
  intros Hne.
  destruct (process_directory_counts caps os_walk source_dir dest_root dry_run copy w Hne)
    as (s & e & w1 & _ & E & Hs & _).
  exists s, e, (length (other_names (walked_names os_walk))).
  eexists _, (log w1). split; [exact E|]. by split.
Qed.

Lemma every_walked_file_is_counted_witness :
  exists s e k w' before,
    @process_directory Reference.library all_caps
      [("/src", ["a.jpg"; "b.jpg"; "notes.txt"])] "/src" "/out" false false w_two_sources
      = (Ok ((0 <? s)%nat && (e =? 0)%nat), w') /\
    log w' = (before ++ [(INFO, ProcessingComplete s e k)])%list /\
    k = length (other_names (walked_names [("/src", ["a.jpg"; "b.jpg"; "notes.txt"])])) /\
    (s + e)%nat
    = length (media_names (walked_names [("/src", ["a.jpg"; "b.jpg"; "notes.txt"])])).
Proof.
  apply (@every_walked_file_is_counted Reference.library all_caps
           [("/src", ["a.jpg"; "b.jpg"; "notes.txt"])] "/src" "/out" false false
           w_two_sources).
  discriminate.
Defined.

(** ** X20 *)

(** X20. A walk without a media name (an empty source included) changes
    nothing and is reported as a failure: [process_directory] leaves the
    filesystem as it was, logs [0] processed, [0] errors and every name as
    skipped, and returns [False]. *)
Theorem run_without_media_changes_nothing {lib : Library} (caps : capabilities)
    (os_walk : list (string * list string)) (source_dir dest_root : string)
    (dry_run copy : bool) (w : world) :
  abspath source_dir <> abspath dest_root ->
  media_names (walked_names os_walk) = [] ->
  exists w' before,
    process_directory caps os_walk source_dir dest_root dry_run copy w = (Ok false, w') /\
    fs w' = fs w /\
    log w' = (before ++ [(INFO, ProcessingComplete 0 0 (length (walked_names os_walk)))])%list.
Proof.
  intros Hne Hnone.
  destruct (for_walk_other_names caps os_walk (abspath dest_root) dry_run copy
              (mk_counts 0 0 0) w Hnone) as (w1 & E & F).
  eexists _, (log w1). split; [|split].
  - unfold process_directory. rewrite (bool_decide_eq_false_2 _ Hne).
    by rewrite (bind_Ok _ _ _ _ _ E).
  - done.
  - done.
Qed.

Lemma run_without_media_changes_nothing_witness :
  exists w' before,
    @process_directory Reference.library all_caps [("/src", ["notes.txt"; "README"])]
      "/src" "/out" false false w_two_sources = (Ok false, w') /\
    fs w' = fs w_two_sources /\
    log w' = (before ++
                [(INFO, ProcessingComplete 0 0
                          (length (walked_names [("/src", ["notes.txt"; "README"])])))])%list.
Proof.
  apply (@run_without_media_changes_nothing Reference.library all_caps
           [("/src", ["notes.txt"; "README"])] "/src" "/out" false false w_two_sources).
  - discriminate.
  - vm_compute. reflexivity.
Defined.

Lemma check_dependencies_result (caps : capabilities) (w : world) :
  exists w0,
    check_dependencies caps w = (Ok (HAS_PIL caps || HAS_EXIFREAD caps), w0) /\
    fs w0 = fs w.
Proof.
  unfold check_dependencies, bind, logger, ret.
  destruct (HAS_PIL caps), (HAS_EXIFREAD caps), (HAS_FFMPEG caps), (HAS_PIEXIF caps);
    simpl; eauto.
Qed.

Lemma os_path_isdir_result (p : string) (w : world) :
  os_path_isdir p w
  = (Ok (match fs w !! p with Some (Dir _) => true | _ => false end), w).
Proof. done. Qed.

(** ** X21 *)

(** X21. [main] refuses to run, with exit status 1 and before anything is
    touched (not even the destination root is created), when neither PIL
    nor exifread is there or when the source is not an existing
    directory. *)
Theorem run_is_refused_untouched {lib : Library} (caps : capabilities) (a : args)
    (os_walk : list (string * list string)) (w : world) :
  (HAS_PIL caps = false /\ HAS_EXIFREAD caps = false) \/
  (forall s, fs w !! source a <> Some (Dir s)) ->
  exit_status caps a os_walk w = Some 1 /\
  fs (main caps a os_walk w).2 = fs w.
Proof.
  intros Hwhy. unfold exit_status, main.
  destruct (check_dependencies_result caps w) as (w0 & E0 & F0).
  rewrite (bind_Ok _ _ _ _ _ E0).
  destruct (HAS_PIL caps || HAS_EXIFREAD caps) eqn:Hcaps; simpl; [|done].
  destruct Hwhy as [[Hpil Hexif]|Hsrc].
  { by rewrite Hpil, Hexif in Hcaps. }
  rewrite (bind_Ok _ _ _ _ _ (os_path_isdir_result (source a) w0)). rewrite F0.
  destruct (fs w !! source a) as [[s|s m]|] eqn:Hs; simpl; [|done..].
  by destruct (Hsrc s).
Qed.

Lemma run_is_refused_untouched_witness :
  @exit_status Reference.library no_image_caps (mk_args "/src" "/new" false false false)
    [("/src", ["a.jpg"])] w_one_file = Some 1 /\
  fs (@main Reference.library no_image_caps (mk_args "/src" "/new" false false false)
        [("/src", ["a.jpg"])] w_one_file).2 = fs w_one_file.
Proof.
  apply (@run_is_refused_untouched Reference.library no_image_caps
           (mk_args "/src" "/new" false false false) [("/src", ["a.jpg"])] w_one_file).
  left. split; reflexivity.
Defined.

Lemma bind_Raise {A B} (m : M A) (k : A -> M B) w e w1 :
  m w = (Raise e, w1) -> bind m k w = (Raise e, w1).
Proof. intros H. unfold bind. by rewrite H. Qed.


(** ** X22 *)


(** ** X23 *)

(** X23. When source and destination are the same directory (their
    absolute paths are equal) the run fails with exit status 1 without
    processing any file: no entry of the filesystem is moved, removed or
    rewritten, whatever the walk holds and in every mode. *)
Theorem same_source_and_destination_is_refused {lib : Library} (caps : capabilities)
    (a : args) (os_walk : list (string * list string)) (w : world) :
  abspath (source a) = abspath (destination a) ->
  exit_status caps a os_walk w = Some 1 /\
  forall q n, fs w !! q = Some n -> fs (main caps a os_walk w).2 !! q = Some n.
Proof.
  intros Heq.
  assert (Hpd : process_directory caps os_walk (source a) (destination a)
                  (dry_run a) (copy a)
                = (logger ERROR SameSourceAndDestination ;;; ret false)%py).
  { unfold process_directory. by rewrite (bool_decide_eq_true_2 _ Heq). }
  split.
  - unfold exit_status, main. rewrite Hpd.
    destruct (check_dependencies_result caps w) as (w0 & E0 & _).
    rewrite (bind_Ok _ _ _ _ _ E0).
    destruct (HAS_PIL caps || HAS_EXIFREAD caps); simpl; [|done].
    rewrite (bind_Ok _ _ _ _ _ (os_path_isdir_result (source a) w0)).
    destruct (match fs w0 !! source a with Some (Dir _) => true | _ => false end); simpl;
      [|done].
    pose proof (terminates_os_makedirs (destination a) w0) as T.
    destruct (os_makedirs (destination a) w0) as [[[]|e|] w1] eqn:E1.
    + by rewrite (bind_Ok _ _ _ _ _ E1).
    + by rewrite (bind_Raise _ _ _ _ _ E1).
    + exfalso. by apply T.
  - intros q n Hq.
    assert (Hp : preserves (fun w' => fs w' !! q = Some n) (main caps a os_walk)).
    { pose proof (lookup_is_log_stable q n) as Hl.
      pose proof (lookup_is_mkdir_stable q n) as Hm.
      unfold main. rewrite Hpd.
      apply preserves_bind; [by apply preserves_check_dependencies|].
      intros ok. destruct ok; simpl; [|by apply preserves_ret].
      apply preserves_bind; [by intros w0|].
      intros d. destruct d; simpl.
      - apply preserves_bind; [by apply preserves_os_makedirs|]. intros _.
        apply preserves_bind; [by apply preserves_logger|]. intros _.
        apply preserves_bind; [by apply preserves_logger|]. intros _.
        apply preserves_bind.
        + apply preserves_bind; [by apply preserves_logger|]. intros _.
          apply preserves_ret.
        + intros success. destruct success;
            (apply preserves_bind; [by apply preserves_logger|]; intros _;
             apply preserves_ret).
      - apply preserves_bind; [by apply preserves_logger|]. intros _.
        apply preserves_ret. }
    by apply Hp.
Qed.

Lemma same_source_and_destination_is_refused_witness :
  @exit_status Reference.library all_caps (mk_args "/src" "/src" false false false)
    [("/src", ["a.jpg"; "b.jpg"; "notes.txt"])] w_two_sources = Some 1 /\
  forall q n,
    fs w_two_sources !! q = Some n ->
    fs (@main Reference.library all_caps (mk_args "/src" "/src" false false false)
          [("/src", ["a.jpg"; "b.jpg"; "notes.txt"])] w_two_sources).2 !! q = Some n.
Proof.
  apply (@same_source_and_destination_is_refused Reference.library all_caps
           (mk_args "/src" "/src" false false false)
           [("/src", ["a.jpg"; "b.jpg"; "notes.txt"])] w_two_sources).
  reflexivity.
Defined.
